(** * Remora chunk extraction, k-mer encoding and datasets

    A shallow embedding of [remora/data_chunks.py]: the read and chunk
    records, chunk extraction ([load_chunks]), the k-mer context encoder
    ([Chunk.seq_nn_input]), the batched dataset ([RemoraDataset]), the
    train/validation split ([load_datasets]) and the loaders of Taiyaki
    reads ([RemoraRead.from_taiyaki_read], [load_taiyaki_dataset]), with
    [get_train_set] of [remora/extract_train_data.py].

    Conventions of the embedding.
    - Python and NumPy integers are [Z]; the one explicit fixed-width cast
      of the source, [astype(np.int32)], is written out as [wrap32], and the
      arithmetic NumPy performs on the resulting int32 array ([np.diff])
      wraps the same way.
    - Python exceptions are values of [exn]; a computation that may raise
      has type [result A].  [str_of_exn] is Python's [str(e)].
    - Signal samples are never inspected by the code modelled here; they are
      rationals.
    - The float [val_prop] is an IEEE 754 double, a [spec_float] of the
      Standard Library with a mantissa of 53 bits; the arithmetic of
      [load_datasets] on it rounds to nearest, ties to even, and [int()]
      raises on infinities and NaN, as in Python.
    - [defaultdict(int)] is a [gmap string nat] read with default [0].
    - Random choices ([torch.randperm], [np.random.shuffle]) are explicit
      arguments. *)

From Stdlib Require Import ZArith List Ascii String QArith Lia ZifyBool
  Permutation.
From Stdlib Require Import Floats.SpecFloat.
From stdpp Require Import base numbers option list gmap strings pretty.

Local Open Scope Z_scope.

(** ** Exceptions and the error monad *)

Inductive exn : Type :=
| RemoraError (msg : string)
| ValueError (msg : string)
| IndexError (msg : string)
| TypeError (msg : string)
| KeyError (key : ascii)
| ZeroDivisionError (msg : string)
| OverflowError (msg : string)
| AttributeError (msg : string)
| StopIteration.

Definition str_of_exn (e : exn) : string :=
  match e with
  | RemoraError m | ValueError m | IndexError m | TypeError m
  | ZeroDivisionError m | OverflowError m | AttributeError m => m
  | StopIteration => EmptyString
  | KeyError k => String "'"%char (String k (String "'"%char EmptyString))
  end.

Inductive result (A : Type) : Type :=
| Ok (a : A)
| Raise (e : exn).
Arguments Ok {A} a.
Arguments Raise {A} e.

#[global] Instance result_bind : MBind result :=
  fun A B (k : A -> result B) (m : result A) =>
    match m with
    | Ok a => k a
    | Raise e => Raise e
    end.

#[global] Instance result_ret : MRet result := fun A a => Ok a.

(** ** Python and NumPy primitives *)

Module Py.

(** [a[i]] for an integer [i]: negative indices count from the end. *)
Definition norm_index (n : nat) (i : Z) : option nat :=
  if (0 <=? i) && (i <? Z.of_nat n) then Some (Z.to_nat i)
  else if (i <? 0) && (- Z.of_nat n <=? i) then Some (Z.to_nat (i + Z.of_nat n))
  else None.

Definition str_index_error : exn := IndexError "string index out of range".

Definition np_index_error (n : nat) (i : Z) : exn :=
  IndexError ("index " +:+ pretty i +:+ " is out of bounds for axis 0 with size "
              +:+ pretty (Z.of_nat n)).

Definition getitem {A} (err : nat -> Z -> exn) (l : list A) (i : Z) : result A :=
  match norm_index (length l) i with
  | Some k =>
      match l !! k with
      | Some x => Ok x
      | None => Raise (err (length l) i)
      end
  | None => Raise (err (length l) i)
  end.

(** [a[i] = x] on a NumPy array. *)
Definition setitem {A} (l : list A) (i : Z) (x : A) : result (list A) :=
  match norm_index (length l) i with
  | Some k => Ok (<[k := x]> l)
  | None => Raise (np_index_error (length l) i)
  end.

(** A slice bound is clamped into [0, len]. *)
Definition slice_index (n : nat) (i : Z) : nat :=
  if i <? 0 then Z.to_nat (Z.max 0 (i + Z.of_nat n))
  else Z.to_nat (Z.min i (Z.of_nat n)).

(** [l[start:stop]], [l[start:]] and [l[:stop]]. *)
Definition slice {A} (l : list A) (start stop : Z) : list A :=
  let s := slice_index (length l) start in
  let e := slice_index (length l) stop in
  take (e - s)%nat (drop s l).

Definition slice_from {A} (l : list A) (start : Z) : list A :=
  drop (slice_index (length l) start) l.

Definition slice_to {A} (l : list A) (stop : Z) : list A :=
  take (slice_index (length l) stop) l.

(** [x.astype(np.int32)] on one entry: two's complement wrap-around. *)
Definition wrap32 (z : Z) : Z := (z + 2 ^ 31) mod 2 ^ 32 - 2 ^ 31.

(** [np.diff] of an int32 array. *)
Fixpoint diff (a : list Z) : list Z :=
  match a with
  | x :: (y :: _) as t => wrap32 (y - x) :: diff t
  | _ => []
  end.

Inductive side : Type := Left | Right.

(** The comparison of NumPy's binary search: an entry sends the search to
    the right when it is below the key ([side="left"]) or not above it
    ([side="right"]). *)
Definition side_cmp (s : side) (mid_val key : Z) : bool :=
  match s with
  | Left => mid_val <? key
  | Right => mid_val <=? key
  end.

(** NumPy's [binsearch] loop for one key, [min_idx = lo], [max_idx = hi]. *)
Fixpoint binsearch (fuel : nat) (s : side) (a : list Z) (key : Z)
    (lo hi : nat) : nat :=
  match fuel with
  | O => lo
  | S fuel' =>
      if (lo <? hi)%nat then
        let mid := (lo + (hi - lo) / 2)%nat in
        match a !! mid with
        | Some v =>
            if side_cmp s v key
            then binsearch fuel' s a key (S mid) hi
            else binsearch fuel' s a key lo mid
        | None => lo
        end
      else lo
  end.

Definition searchsorted (a : list Z) (v : Z) (s : side) : Z :=
  Z.of_nat (binsearch (length a) s a v 0 (length a)).

End Py.

(** ** Reads and motifs *)

Definition sample : Type := Q.

(** A feature tensor of shape [(rows, cols)], stored row by row.  Entries
    are [np.bool8]. *)
Definition tensor : Type := list (list bool).

(** [t.shape[1]]; every tensor built below has at least four rows. *)
Definition shape1 (t : tensor) : nat :=
  match t with
  | r :: _ => length r
  | [] => O
  end.

Module RemoraRead.

Record t : Type := mk {
  sig : list sample;
  seq : list ascii;
  seq_to_sig_map : list Z;
  read_id : option string;
  int_seq : option (list Z)
}.

End RemoraRead.

(** Modelled from the spec: [util.Motif], whose defining module is not among
    the sources.  A motif is an ordered sequence of base-matching symbols,
    each given by the bases it accepts (a wildcard accepts every base), and
    a focus offset.  [finditer] is the left-to-right, non-overlapping scan
    of a standard text-pattern search and [match_prefix] is the anchored
    match used to validate one explicit focus offset. *)
Module Motif.

Record t : Type := mk {
  pattern : list (list ascii);
  focus_pos : Z
}.

Definition num_bases_after_focus (m : t) : Z :=
  Z.of_nat (length (pattern m)) - focus_pos m - 1.

Fixpoint match_prefix (p : list (list ascii)) (s : list ascii) : bool :=
  match p, s with
  | [], _ => true
  | cls :: p', c :: s' => existsb (Ascii.eqb c) cls && match_prefix p' s'
  | _ :: _, [] => false
  end.

(** [scan p s i skip]: match starts in [s], which begins at offset [i] of
    the searched string; the next [skip] symbols belong to the previous
    match. *)
Fixpoint scan (p : list (list ascii)) (s : list ascii) (i : nat) (skip : nat)
    : list nat :=
  match s with
  | [] =>
      match skip with
      | O => if match_prefix p [] then [i] else []
      | S _ => []
      end
  | _ :: s' =>
      match skip with
      | S k => scan p s' (S i) k
      | O =>
          if match_prefix p s
          then i :: scan p s' (S i) (length p - 1)
          else scan p s' (S i) O
      end
  end.

Definition finditer (m : t) (s : list ascii) : list nat := scan (pattern m) s O O.

End Motif.

(** ** Chunks and the k-mer context encoder *)

Definition ENCODING_LEN : nat := 4.

(** [BASE_ENCODINGS[b]]; a symbol outside the table is a [KeyError]. *)
Definition BASE_ENCODINGS (b : ascii) : result (list bool) :=
  if Ascii.eqb b "A" then Ok [true; false; false; false]
  else if Ascii.eqb b "C" then Ok [false; true; false; false]
  else if Ascii.eqb b "G" then Ok [false; false; true; false]
  else if Ascii.eqb b "T" then Ok [false; false; false; true]
  else if Ascii.eqb b "N" then Ok [false; false; false; false]
  else Raise (KeyError b).

(** [np.stack(arrays, axis=1)] of length-4 vectors: a [4 x n] block. *)
Definition stack_axis1 (cols : list (list bool)) : result tensor :=
  match cols with
  | [] => Raise (ValueError "need at least one array to stack")
  | _ :: _ =>
      Ok ((fun ch => (fun col => nth ch col false) <$> cols) <$> seq 0 ENCODING_LEN)
  end.

(** [np.repeat(t, repeats, axis=1)]: a one-element [repeats] is broadcast
    to every column, any other length has to equal the number of columns,
    and a negative count is refused. *)
Definition np_repeat_axis1 (t : tensor) (repeats : list Z) : result tensor :=
  let n := shape1 t in
  match repeats with
  | [d] =>
      if d <? 0 then Raise (ValueError "negative dimensions are not allowed")
      else Ok ((fun row => mjoin ((fun x => replicate (Z.to_nat d) x) <$> row)) <$> t)
  | _ =>
      if negb (length repeats =? n)%nat then
        Raise (ValueError
                 ("operands could not be broadcast"
                  +:+ " together with shape (" +:+ pretty (Z.of_nat n) +:+ ",) ("
                  +:+ pretty (Z.of_nat (length repeats)) +:+ ",)"))
      else if existsb (fun d => d <? 0) repeats then
        Raise (ValueError "repeats may not contain negative values.")
      else
        Ok ((fun row =>
               mjoin (zip_with (fun x d => replicate (Z.to_nat d) x) row repeats))
              <$> t)
  end.

Module Chunk.

Record t : Type := mk {
  signal : list sample;
  sequence : list ascii;
  seq_to_sig_map : list Z;
  before_context_seq : list ascii;
  after_context_seq : list ascii;
  sig_focus_pos : Z;
  seq_focus_pos : Z;
  label : Z;
  read_id : option string;
  read_seq_pos : Z;
  _base_sig_lens : option (list Z);
  _seq_nn_input : option tensor
}.

Definition set_sequence (c : t) (s : list ascii) : t :=
  mk (signal c) s (seq_to_sig_map c) (before_context_seq c)
     (after_context_seq c) (sig_focus_pos c) (seq_focus_pos c) (label c)
     (read_id c) (read_seq_pos c) (_base_sig_lens c) (_seq_nn_input c).

Definition set_base_sig_lens (c : t) (v : option (list Z)) : t :=
  mk (signal c) (sequence c) (seq_to_sig_map c) (before_context_seq c)
     (after_context_seq c) (sig_focus_pos c) (seq_focus_pos c) (label c)
     (read_id c) (read_seq_pos c) v (_seq_nn_input c).

Definition set_seq_nn_input (c : t) (v : option tensor) : t :=
  mk (signal c) (sequence c) (seq_to_sig_map c) (before_context_seq c)
     (after_context_seq c) (sig_focus_pos c) (seq_focus_pos c) (label c)
     (read_id c) (read_seq_pos c) (_base_sig_lens c) v.

Definition mask_focus_base (c : t) : result t :=
  b ← Py.getitem (fun _ _ => Py.str_index_error) (sequence c) (seq_focus_pos c);
  if Ascii.eqb b "N" then Ok c
  else
    Ok (set_seq_nn_input
          (set_sequence c
             (Py.slice_to (sequence c) (seq_focus_pos c)
                ++ "N"%char :: Py.slice_from (sequence c) (seq_focus_pos c + 1)))
          None).

Definition kmer_len (c : t) : nat :=
  (length (before_context_seq c) + length (after_context_seq c) + 1)%nat.

Definition seq_w_context (c : t) : list ascii :=
  before_context_seq c ++ sequence c ++ after_context_seq c.

(** The properties [base_sig_lens] and [seq_nn_input] fill a cache on first
    use: they return the value together with the updated chunk. *)
Definition base_sig_lens (c : t) : list Z * t :=
  match _base_sig_lens c with
  | Some l => (l, c)
  | None =>
      let l := Py.diff (seq_to_sig_map c) in
      (l, set_base_sig_lens c (Some l))
  end.

(** One [4 x len(sequence)] block of [enc_kmers]. *)
Definition enc_block (c : t) (offset : Z) : result tensor :=
  cols ← mapM BASE_ENCODINGS
         (Py.slice (seq_w_context c) offset
            (offset + Z.of_nat (length (sequence c))));
  stack_axis1 cols.

Definition enc_kmers (c : t) : result tensor :=
  blocks ← mapM (enc_block c) (seqZ 0 (Z.of_nat (kmer_len c)));
  Ok (mjoin blocks).

Definition seq_nn_input (c : t) : result (tensor * t) :=
  match _seq_nn_input c with
  | Some v => Ok (v, c)
  | None =>
      e ← enc_kmers c;
      let '(lens, c1) := base_sig_lens c in
      v ← np_repeat_axis1 e lens;
      Ok (v, set_seq_nn_input c1 (Some v))
  end.

Definition check (c : t) : result t :=
  if (length (signal c) <=? 0)%nat then Raise (RemoraError "No signal for chunk")
  else
    '(v, c1) ← seq_nn_input c;
    if negb (shape1 v =? length (signal c1))%nat then
      Raise (RemoraError "Invalid encoded sig length")
    else if negb (Z.of_nat (length (sequence c1))
                  =? Z.of_nat (length (seq_to_sig_map c1)) - 1) then
      Raise (RemoraError "Invalid sig to seq map length")
    else Ok c1.

Definition extract_chunk_from_read (read : RemoraRead.t)
    (kmer_context_bases : Z * Z) (sig_start sig_end : Z) (label : Z)
    (seq_start seq_end : option Z) (sig_focus_pos : Z)
    (read_id : option string) (read_seq_pos : Z) : result t :=
  let '(seq_start, seq_end) :=
    match seq_start, seq_end with
    | Some s, Some e => (s, e)
    | _, _ =>
        (Py.searchsorted (RemoraRead.seq_to_sig_map read) sig_start Py.Right - 1,
         Py.searchsorted (RemoraRead.seq_to_sig_map read) sig_end Py.Left)
    end in
  let chunk_seq_to_sig :=
    Py.slice (RemoraRead.seq_to_sig_map read) seq_start (seq_end + 1) in
  chunk_seq_to_sig ← Py.setitem chunk_seq_to_sig 0 sig_start;
  chunk_seq_to_sig ← Py.setitem chunk_seq_to_sig (-1) sig_end;
  let chunk_seq_to_sig := (fun x => x - sig_start) <$> chunk_seq_to_sig in
  let chunk_seq_to_sig := Py.wrap32 <$> chunk_seq_to_sig in
  let '(kmer_before_bases, kmer_after_bases) := kmer_context_bases in
  let before_context_seq :=
    Py.slice (RemoraRead.seq read)
      (Z.max 0 (seq_start - kmer_before_bases)) seq_start in
  let after_context_seq :=
    Py.slice (RemoraRead.seq read) seq_end (seq_end + kmer_after_bases) in
  if negb (Z.of_nat (length before_context_seq) =? kmer_before_bases)
     || negb (Z.of_nat (length after_context_seq) =? kmer_after_bases) then
    Raise (RemoraError "Invalid context seq extracted")
  else
    Ok (mk (Py.slice (RemoraRead.sig read) sig_start sig_end)
           (Py.slice (RemoraRead.seq read) seq_start seq_end)
           chunk_seq_to_sig
           before_context_seq
           after_context_seq
           (sig_focus_pos - sig_start)
           (read_seq_pos - seq_start)
           label
           read_id
           read_seq_pos
           None None).

End Chunk.

(** ** Chunk extraction: [load_chunks] *)

(** [reject_reasons[k] += 1] on a [defaultdict(int)]. *)
Definition count (h : gmap string nat) (k : string) : nat := default O (h !! k).

Definition incr (h : gmap string nat) (k : string) : gmap string nat :=
  <[k := S (count h k)]> h.

(** The loop state: the list [chunks] and the histogram [reject_reasons]. *)
Definition lc_state : Type := list Chunk.t * gmap string nat.

Inductive flow : Type := Continue | Break.

Section LoadChunks.

Variable num_chunks : option Z.
Variable motif : Motif.t.
Variable label_conv : list Z.
Variable chunk_context : Z * Z.
Variable kmer_context_bases : Z * Z.
Variable focus_offset : option Z.
Variable fixed_seq_len_chunks : bool.
Variable base_pred : bool.
Variable full : bool.

(** The window of one focus position (source lines 317-339): either the
    name of the rejection counter, or [(sig_start, sig_end, seq_start,
    seq_end)]; the sequence bounds stay [None] in fixed-signal-length mode. *)
Definition window (read : RemoraRead.t) (m_pos sig_focus_pos : Z)
    : result (string + (Z * Z * option Z * option Z)) :=
  let map := RemoraRead.seq_to_sig_map read in
  if fixed_seq_len_chunks then
    let seq_start := m_pos - chunk_context.1 in
    let seq_end := m_pos + chunk_context.2 + 1 in
    if seq_start <=? 0 then Ok (inl "Invalid base start"%string)
    else if seq_end >=? Z.of_nat (length map) then Ok (inl "Invalid base end"%string)
    else
      sig_start ← Py.getitem Py.np_index_error map seq_start;
      sig_end ← Py.getitem Py.np_index_error map seq_end;
      Ok (inr (sig_start, sig_end, Some seq_start, Some seq_end))
  else
    let sig_start := sig_focus_pos - chunk_context.1 in
    let sig_end := sig_focus_pos + chunk_context.2 in
    if sig_start <? 0 then Ok (inl "Invalid signal start"%string)
    else
      total ← Py.getitem Py.np_index_error map (-1);
      if sig_end >? total then Ok (inl "Invalid signal end"%string)
      else if sig_start >=? sig_end then Ok (inl "Empty signal"%string)
      else Ok (inr (sig_start, sig_end, None, None)).

(** The body of the [try] block up to [chunk.check()]. *)
Definition try_chunk (read : RemoraRead.t) (sig_start sig_end label : Z)
    (seq_start seq_end : option Z) (sig_focus_pos m_pos : Z) : result Chunk.t :=
  chunk ← Chunk.extract_chunk_from_read read kmer_context_bases sig_start
             sig_end label seq_start seq_end sig_focus_pos
             (RemoraRead.read_id read) m_pos;
  chunk ← (if base_pred then Chunk.mask_focus_base chunk else Ok chunk);
  Chunk.check chunk.

Definition cap_reached (chunks : list Chunk.t) : bool :=
  match num_chunks with
  | Some n => Z.of_nat (length chunks) >=? n
  | None => false
  end.

(** The position at the centre of the focus base (source lines 314-316). *)
Definition focus_sig_pos (read : RemoraRead.t) (m_pos : Z) : result Z :=
  a ← Py.getitem Py.np_index_error (RemoraRead.seq_to_sig_map read) m_pos;
  b ← Py.getitem Py.np_index_error (RemoraRead.seq_to_sig_map read) (m_pos + 1);
  Ok ((a + b) `div` 2).

(** The label of the chunk at [m_pos] (source lines 341-343). *)
Definition chunk_label (read : RemoraRead.t) (m_pos : Z) : result Z :=
  match RemoraRead.int_seq read with
  | None => Ok (-1)
  | Some int_seq =>
      code ← Py.getitem Py.np_index_error int_seq m_pos;
      Py.getitem Py.np_index_error label_conv code
  end.

(** One iteration of [for m_pos in motif_pos].  Only what runs outside the
    [try] block can make the whole call raise. *)
Definition pos_step (read : RemoraRead.t) (st : lc_state) (m_pos : Z)
    : result (flow * lc_state) :=
  let '(chunks, reject_reasons) := st in
  sig_focus_pos ← focus_sig_pos read m_pos;
  w ← window read m_pos sig_focus_pos;
  match w with
  | inl reason => Ok (Continue, (chunks, incr reject_reasons reason))
  | inr (sig_start, sig_end, seq_start, seq_end) =>
      label ← chunk_label read m_pos;
      match try_chunk read sig_start sig_end label seq_start seq_end
              sig_focus_pos m_pos with
      | Ok chunk =>
          let chunks := chunks ++ [chunk] in
          let reject_reasons := incr reject_reasons "success" in
          Ok (if cap_reached chunks then Break else Continue,
              (chunks, reject_reasons))
      | Raise e => Ok (Continue, (chunks, incr reject_reasons (str_of_exn e)))
      end
  end.

(** [for m_pos in motif_pos], left by [break]. *)
Fixpoint pos_loop (read : RemoraRead.t) (motif_pos : list Z) (st : lc_state)
    : result lc_state :=
  match motif_pos with
  | [] => Ok st
  | m_pos :: rest =>
      '(fl, st') ← pos_step read st m_pos;
      match fl with
      | Break => Ok st'
      | Continue => pos_loop read rest st'
      end
  end.

(** One iteration of [for read in reads]. *)
Definition read_step (st : lc_state) (read : RemoraRead.t) : result lc_state :=
  if full then
    pos_loop read
      ((fun start => Z.of_nat start + Motif.focus_pos motif)
         <$> Motif.finditer motif (RemoraRead.seq read))
      st
  else
    match focus_offset with
    | None =>
        Raise (TypeError
                 "'>=' not supported between instances of 'NoneType' and 'int'")
    | Some fo =>
        if fo >=? Z.of_nat (length (RemoraRead.seq read)) then
          Ok (st.1, incr st.2 "[--focus-offset] past read seq")
        else
          let read_motif :=
            Py.slice (RemoraRead.seq read)
              (fo - Motif.focus_pos motif)
              (fo + Motif.num_bases_after_focus motif + 1) in
          if negb (Motif.match_prefix (Motif.pattern motif) read_motif) then
            Ok (st.1, incr st.2 "Focus position motif mismatch")
          else pos_loop read [fo] st
    end.

Fixpoint reads_loop (reads : list RemoraRead.t) (st : lc_state)
    : result lc_state :=
  match reads with
  | [] => Ok st
  | read :: rest =>
      st' ← read_step st read;
      reads_loop rest st'
  end.

(** The loops of [load_chunks]: the chunks and the rejection histogram that
    the summary logs. *)
Definition load_chunks_run (reads : list RemoraRead.t) : result lc_state :=
  match focus_offset, full with
  | None, false =>
      Raise (ValueError "Either --focus-offset or --full need to be set.")
  | _, _ => reads_loop reads ([], ∅)
  end.

End LoadChunks.

(** [num_chunks] is [None] or an integer and [chunk_context] a pair of
    integers by their types, so the first three argument checks of the
    source cannot fail. *)
Definition load_chunks (reads : list RemoraRead.t) (num_chunks : option Z)
    (motif : Motif.t) (label_conv : list Z) (chunk_context : Z * Z)
    (kmer_context_bases : Z * Z) (focus_offset : option Z)
    (fixed_seq_len_chunks base_pred full : bool) : result (list Chunk.t) :=
  '(chunks, _) ← load_chunks_run num_chunks motif label_conv chunk_context
                    kmer_context_bases focus_offset fixed_seq_len_chunks
                    base_pred full reads;
  if (length chunks =? 0)%nat then Raise (RemoraError "No valid chunks extracted")
  else Ok chunks.

(** The read of the end-to-end example: ten bases, ten samples per base. *)
Definition example_read : RemoraRead.t :=
  RemoraRead.mk (replicate 100 (0 # 1)%Q)
    (list_ascii_of_string "ACGTACGTAC")
    [0; 10; 20; 30; 40; 50; 60; 70; 80; 90; 100]
    (Some "read0"%string) None.

Definition motif_CG : Motif.t :=
  Motif.mk [["C"%char]; ["G"%char]] 0.

(** ** The batched dataset *)

(** [np.stack] needs at least one array, and arrays of one shape. *)
Definition np_stack {A S} `{EqDecision S} (shape : A -> S) (arrays : list A)
    : result (list A) :=
  match arrays with
  | [] => Raise (ValueError "need at least one array to stack")
  | a :: rest =>
      if forallb (fun b => bool_decide (shape b = shape a)) rest then Ok arrays
      else Raise (ValueError "all input arrays must have the same shape")
  end.

Definition tensor_shape (t : tensor) : nat * nat := (length t, shape1 t).

(** [[c.seq_nn_input for c in chunks]]. *)
Definition seq_nn_inputs (chunks : list Chunk.t) : result (list tensor) :=
  mapM (fun c => '(v, _) ← Chunk.seq_nn_input c; Ok v) chunks.

Module RemoraDataset.

Definition read_datum : Type := option string * Z.

Record t : Type := mk {
  batch_size : Z;
  shuffle : bool;
  drop_last : bool;
  return_read_data : bool;
  dataset_len : nat;
  n_batches : Z;
  sig_tensor : list (list sample);
  seq_tensor : list tensor;
  labels : list Z;
  read_data : option (list read_datum);
  _batch_i : option Z
}.

(** [RemoraDataset.__init__]; [divmod] is Python's flooring division. *)
Definition init (chunks : list Chunk.t) (batch_size : Z)
    (shuffle drop_last return_read_data : bool) : result t :=
  let dataset_len := length chunks in
  if batch_size =? 0 then
    Raise (ZeroDivisionError "integer division or modulo by zero")
  else
    let n_batches := Z.of_nat dataset_len `div` batch_size in
    let remainder := Z.of_nat dataset_len `mod` batch_size in
    let n_batches :=
      if negb drop_last && (remainder >? 0) then n_batches + 1 else n_batches in
    sig_tensor ← np_stack (@length sample) (Chunk.signal <$> chunks);
    inputs ← seq_nn_inputs chunks;
    seq_tensor ← np_stack tensor_shape inputs;
    let labels := Chunk.label <$> chunks in
    let read_data :=
      if return_read_data
      then Some ((fun c => (Chunk.read_id c, Chunk.read_seq_pos c)) <$> chunks)
      else None in
    Ok (mk batch_size shuffle drop_last return_read_data dataset_len n_batches
           sig_tensor seq_tensor labels read_data None).

(** [tensor[shuf_idx]]: the rows at the given indices, in that order. *)
Definition index_rows {A} (rows : list A) (idx : list nat) : result (list A) :=
  mapM (fun i =>
          match rows !! i with
          | Some r => Ok r
          | None => Raise (Py.np_index_error (length rows) (Z.of_nat i))
          end) idx.

(** [RemoraDataset.__iter__]; [shuf_idx] is the value of
    [torch.randperm(self.dataset_len)]. *)
Definition iter (ds : t) (shuf_idx : list nat) : result t :=
  if shuffle ds then
    sig_tensor' ← index_rows (sig_tensor ds) shuf_idx;
    seq_tensor' ← index_rows (seq_tensor ds) shuf_idx;
    labels' ← index_rows (labels ds) shuf_idx;
    read_data' ←
      (if return_read_data ds then
         match read_data ds with
         | Some rd => rd' ← index_rows rd shuf_idx; Ok (Some rd')
         | None => Raise (TypeError "'NoneType' object is not subscriptable")
         end
       else Ok (read_data ds));
    Ok (mk (batch_size ds) (shuffle ds) (drop_last ds) (return_read_data ds)
           (dataset_len ds) (n_batches ds) sig_tensor' seq_tensor' labels'
           read_data' (Some 0))
  else
    Ok (mk (batch_size ds) (shuffle ds) (drop_last ds) (return_read_data ds)
           (dataset_len ds) (n_batches ds) (sig_tensor ds) (seq_tensor ds)
           (labels ds) (read_data ds) (Some 0)).

Definition batch : Type :=
  (list (list sample) * list tensor) * list Z * option (list read_datum).

(** [RemoraDataset.__next__]: the next batch and the advanced dataset. *)
Definition next (ds : t) : result (batch * t) :=
  match _batch_i ds with
  | None =>
      Raise (AttributeError "'RemoraDataset' object has no attribute '_batch_i'")
  | Some batch_i =>
      if batch_i >=? n_batches ds then Raise StopIteration
      else
        let b_st := batch_i * batch_size ds in
        let b_en := b_st + batch_size ds in
        batch_read_data ←
          (if return_read_data ds then
             match read_data ds with
             | Some rd => Ok (Some (Py.slice rd b_st b_en))
             | None => Raise (TypeError "'NoneType' object is not subscriptable")
             end
           else Ok None);
        Ok (((Py.slice (sig_tensor ds) b_st b_en,
              Py.slice (seq_tensor ds) b_st b_en),
             Py.slice (labels ds) b_st b_en,
             batch_read_data),
            mk (batch_size ds) (shuffle ds) (drop_last ds) (return_read_data ds)
               (dataset_len ds) (n_batches ds) (sig_tensor ds) (seq_tensor ds)
               (labels ds) (read_data ds) (Some (batch_i + 1)))
  end.

(** The calls of [__next__] made by a [for] loop, until [StopIteration];
    [None] when [fuel] calls were not enough to reach it. *)
Fixpoint drain (fuel : nat) (ds : t) : option (result (list batch)) :=
  match fuel with
  | O => None
  | S fuel' =>
      match next ds with
      | Raise StopIteration => Some (Ok [])
      | Raise e => Some (Raise e)
      | Ok (b, ds') =>
          match drain fuel' ds' with
          | Some (Ok bs) => Some (Ok (b :: bs))
          | other => other
          end
      end
  end.

(** One full pass [for batch in ds]. *)
Definition full_pass (fuel : nat) (ds : t) (shuf_idx : list nat)
    : option (result (list batch)) :=
  match iter ds shuf_idx with
  | Ok ds' => drain fuel ds'
  | Raise e => Some (Raise e)
  end.

(** The rows of the parallel buffers, and the rows of a batch. *)
Definition row : Type := list sample * tensor * Z * option read_datum.

Definition zip_rows (sigs : list (list sample)) (seqs : list tensor)
    (labs : list Z) (rd : option (list read_datum)) : list row :=
  match rd with
  | Some rd =>
      zip_with (fun '(s, q, l) d => (s, q, l, Some d))
        (zip (zip sigs seqs) labs) rd
  | None => (fun '(s, q, l) => (s, q, l, None)) <$> zip (zip sigs seqs) labs
  end.

Definition rows (ds : t) : list row :=
  zip_rows (sig_tensor ds) (seq_tensor ds) (labels ds) (read_data ds).

Definition batch_rows (b : batch) : list row :=
  let '((sigs, seqs), labs, rd) := b in zip_rows sigs seqs labs rd.

(** [RemoraDataset.__len__]. *)
Definition len (ds : t) : Z := n_batches ds.

End RemoraDataset.

(** ** Train/validation split: [load_datasets] *)

Definition DEFAULT_BATCH_SIZE : Z := 1024.

(** A Python [float] is an IEEE 754 binary64 number: a [spec_float] with a
    mantissa of [prec] bits and infinities at exponent [emax], a finite one
    in canonical form ([valid_binary]).  Every operation rounds its exact
    result to nearest, ties to even. *)
Module PyFloat.

Definition t : Type := spec_float.

Definition prec : Z := 53.
Definition emax : Z := 1024.

(** The literal [0.0]. *)
Definition zero : t := S754_zero false.

(** [float(n)] of an integer, which Python applies to the integer operand
    of [n * x] and [n / x]. *)
Definition of_int (n : Z) : result t :=
  match binary_normalize prec emax n 0 false with
  | S754_infinity _ => Raise (OverflowError "int too large to convert to float")
  | x => Ok x
  end.

(** [x * y]. *)
Definition mul (x y : t) : t := SFmul prec emax x y.

(** [x / y]. *)
Definition div (x y : t) : result t :=
  match y with
  | S754_zero _ => Raise (ZeroDivisionError "float division by zero")
  | _ => Ok (SFdiv prec emax x y)
  end.

(** [x <= y] and [x > y]; both are false when an operand is NaN. *)
Definition le (x y : t) : bool := SFleb x y.

Definition gt (x y : t) : bool := SFltb y x.

(** The rational that a finite float stands for, in lowest terms. *)
Definition value (x : t) : option Q :=
  match x with
  | S754_zero _ => Some (0 # 1)%Q
  | S754_finite s m e =>
      Some (Qred match e with
                 | Z.neg k => cond_Zopp s (Z.pos m) # 2 ^ k
                 | _ => inject_Z (cond_Zopp s (Z.pos m * 2 ^ e))
                 end)%Q
  | _ => None
  end.

End PyFloat.

(** [int(x)] on a float: the exact integer obtained by truncation towards
    zero; infinities and NaN are refused. *)
Definition py_int (x : PyFloat.t) : result Z :=
  match x with
  | S754_zero _ => Ok 0
  | S754_finite s m e => Ok (cond_Zopp s (Z.shiftl (Z.pos m) e))
  | S754_infinity _ =>
      Raise (OverflowError "cannot convert float infinity to integer")
  | S754_nan => Raise (ValueError "cannot convert float NaN to integer")
  end.

(** [int(1 / val_prop) * 2] of source lines 485 and 488. *)
Definition min_chunks (val_prop : PyFloat.t) : result Z :=
  one ← PyFloat.of_int 1;
  inv ← PyFloat.div one val_prop;
  n ← py_int inv;
  Ok (n * 2).

(** The guard of source line 485. *)
Definition too_few_chunks (n : nat) (val_prop : PyFloat.t) : result bool :=
  bound ← min_chunks val_prop;
  Ok (Z.of_nat n <? bound).

(** The error of source lines 486-489, whose message evaluates
    [int(1 / val_prop) * 2] once more. *)
Definition too_few_error (n : nat) (val_prop : PyFloat.t) : result exn :=
  bound ← min_chunks val_prop;
  Ok (RemoraError
        ("Too few chunks to extract validation proportion ("
         +:+ pretty (Z.of_nat n) +:+ " < " +:+ pretty bound +:+ ")")).

(** [int(len(chunks) * val_prop)] of source line 491. *)
Definition val_index (n : nat) (val_prop : PyFloat.t) : result Z :=
  len ← PyFloat.of_int (Z.of_nat n);
  py_int (PyFloat.mul len val_prop).

(** [np.random.shuffle(chunks)] with the drawn order [shuf_idx] made
    explicit: position [i] receives the chunk at [shuf_idx[i]]. *)
Definition np_random_shuffle {A} (l : list A) (shuf_idx : list nat) : list A :=
  omap (fun i => l !! i) shuf_idx.

(** [load_datasets].  [val_prop] is a float, as its default [0.0] and the
    command line give it; [num_data_workers] is not used by the source. *)
Definition load_datasets (reads : list RemoraRead.t) (chunk_context : Z * Z)
    (batch_size : Z) (num_chunks : option Z) (fixed_seq_len_chunks : bool)
    (focus_offset : option Z) (full : bool) (label_conv : list Z)
    (motif : Motif.t) (base_pred : bool) (val_prop : PyFloat.t)
    (kmer_context_bases : Z * Z) (return_read_data : bool)
    (shuf_idx : list nat)
    : result (RemoraDataset.t * option RemoraDataset.t
              * option RemoraDataset.t * list Chunk.t) :=
  chunks ← load_chunks reads num_chunks motif label_conv chunk_context
             kmer_context_bases focus_offset fixed_seq_len_chunks base_pred full;
  '(dl_val, dl_val_trn, trn_set, chunks) ←
    (if PyFloat.le val_prop PyFloat.zero then Ok (None, None, chunks, chunks)
     else
       few ← too_few_chunks (length chunks) val_prop;
       if few : bool then
         e ← too_few_error (length chunks) val_prop;
         Raise e
       else
         let chunks := np_random_shuffle chunks shuf_idx in
         val_idx ← val_index (length chunks) val_prop;
         let trn_set := Py.slice_from chunks val_idx in
         dl_val ← RemoraDataset.init (Py.slice_to chunks val_idx) batch_size
                    false false return_read_data;
         dl_val_trn ← RemoraDataset.init
                        (Py.slice chunks val_idx (val_idx + val_idx))
                        batch_size false false return_read_data;
         Ok (Some dl_val, Some dl_val_trn, trn_set, chunks));
  dl_trn ← RemoraDataset.init trn_set batch_size
             (PyFloat.gt val_prop PyFloat.zero)
             (PyFloat.gt val_prop PyFloat.zero) return_read_data;
  Ok (dl_trn, dl_val, dl_val_trn, chunks).

(** The double 0.75, which is [6755399441055744 * 2^-53]. *)
Definition float_0_75 : PyFloat.t := S754_finite false 6755399441055744 (-53).

(** The doubles 0.5, 1.0 and the largest finite one. *)
Definition float_0_5 : PyFloat.t := S754_finite false 4503599627370496 (-53).

Definition float_1 : PyFloat.t := S754_finite false 4503599627370496 (-52).

Definition float_max : PyFloat.t := S754_finite false 9007199254740991 971.

(** The doubles nearest to 0.6, 0.58 and 0.1. *)
Definition float_0_6 : PyFloat.t := S754_finite false 5404319552844595 (-53).

Definition float_0_58 : PyFloat.t := S754_finite false 5224175567749775 (-53).

Definition float_0_1 : PyFloat.t := S754_finite false 7205759403792794 (-56).

(** ** Properties named by the specification *)

(** The chunk-validity invariant for context lengths [kb] and [ka]. *)
Definition chunk_valid (kb ka : Z) (c : Chunk.t) : Prop :=
  Z.of_nat (length (Chunk.sequence c))
    = Z.of_nat (length (Chunk.seq_to_sig_map c)) - 1
  /\ Chunk.seq_to_sig_map c !! O = Some 0
  /\ last (Chunk.seq_to_sig_map c) = Some (Z.of_nat (length (Chunk.signal c)))
  /\ Z.of_nat (length (Chunk.before_context_seq c)) = kb
  /\ Z.of_nat (length (Chunk.after_context_seq c)) = ka.

(** The encoding of a chunk as a function of its fields, without the
    caches. *)
Definition encode_chunk (c : Chunk.t) : result tensor :=
  e ← Chunk.enc_kmers c;
  np_repeat_axis1 e (Py.diff (Chunk.seq_to_sig_map c)).

(** A cache is empty or holds what the property would compute. *)
Definition cache_coherent (c : Chunk.t) : Prop :=
  (forall l, Chunk._base_sig_lens c = Some l -> l = Py.diff (Chunk.seq_to_sig_map c))
  /\ (forall v, Chunk._seq_nn_input c = Some v -> encode_chunk c = Ok v).

Definition is_base (b : ascii) : Prop :=
  b = "A"%char \/ b = "C"%char \/ b = "G"%char \/ b = "T"%char \/ b = "N"%char.

Fixpoint non_decreasing (a : list Z) : Prop :=
  match a with
  | x :: (y :: _) as t => x <= y /\ non_decreasing t
  | _ => True
  end.

(** The data model of a chunk: bases over the alphabet, a non-decreasing
    map, a non-empty signal whose indices fit the int32 map, coherent
    caches. *)
Definition chunk_wf (c : Chunk.t) : Prop :=
  Forall is_base (Chunk.seq_w_context c)
  /\ non_decreasing (Chunk.seq_to_sig_map c)
  /\ (0 < length (Chunk.signal c))%nat
  /\ Z.of_nat (length (Chunk.signal c)) < 2 ^ 31
  /\ cache_coherent c.

(** The read's total signal length as the extraction reads it: the last
    entry of the map. *)
Definition total_sig_len (read : RemoraRead.t) : Z :=
  default 0 (last (RemoraRead.seq_to_sig_map read)).

(** The window of focus position [m_pos] is invalid. *)
Definition window_invalid (fixed_seq_len_chunks : bool) (chunk_context : Z * Z)
    (read : RemoraRead.t) (m_pos sig_focus_pos : Z) : Prop :=
  if fixed_seq_len_chunks then
    m_pos - chunk_context.1 <= 0
    \/ m_pos + chunk_context.2 + 1
         >= Z.of_nat (length (RemoraRead.seq_to_sig_map read))
  else
    sig_focus_pos - chunk_context.1 < 0
    \/ sig_focus_pos + chunk_context.2 > total_sig_len read
    \/ sig_focus_pos - chunk_context.1 >= sig_focus_pos + chunk_context.2.

Definition window_reasons : list string :=
  ["Invalid base start"; "Invalid base end"; "Invalid signal start";
   "Invalid signal end"; "Empty signal"]%string.

(** The exceptions that the body of the [try] block can raise: the four
    [RemoraError]s of [extract_chunk_from_read] and [check], and the errors
    of the Python and NumPy operations they run. *)
Inductive try_exn : exn -> Prop :=
| te_context : try_exn (RemoraError "Invalid context seq extracted")
| te_no_sig : try_exn (RemoraError "No signal for chunk")
| te_enc_len : try_exn (RemoraError "Invalid encoded sig length")
| te_map_len : try_exn (RemoraError "Invalid sig to seq map length")
| te_key b : try_exn (KeyError b)
| te_stack : try_exn (ValueError "need at least one array to stack")
| te_neg_dim : try_exn (ValueError "negative dimensions are not allowed")
| te_neg_rep : try_exn (ValueError "repeats may not contain negative values.")
| te_bcast m : try_exn (ValueError ("operands could not be broadcast" +:+ m))
| te_np_index n i : try_exn (Py.np_index_error n i)
| te_str_index : try_exn Py.str_index_error.

(** The exceptions that escape [load_chunks] from outside the [try] block. *)
Definition escapes_try (e : exn) : Prop :=
  match e with
  | IndexError _ | TypeError _ | ValueError _ => True
  | _ => False
  end.

(** The chunk carries its encoding in the cache, with the shape the
    specification gives it. *)
Definition encoded (c : Chunk.t) : Prop :=
  exists v,
    Chunk._seq_nn_input c = Some v
    /\ encode_chunk c = Ok v
    /\ length v = (4 * Chunk.kmer_len c)%nat
    /\ Forall (fun row => length row = length (Chunk.signal c)) v.

Definition sumZ (l : list Z) : Z := foldr Z.add 0 l.

(** Two chunks agree on every field but the caches. *)
Definition same_data (c c' : Chunk.t) : Prop :=
  Chunk.signal c' = Chunk.signal c
  /\ Chunk.sequence c' = Chunk.sequence c
  /\ Chunk.seq_to_sig_map c' = Chunk.seq_to_sig_map c
  /\ Chunk.before_context_seq c' = Chunk.before_context_seq c
  /\ Chunk.after_context_seq c' = Chunk.after_context_seq c
  /\ Chunk.sig_focus_pos c' = Chunk.sig_focus_pos c
  /\ Chunk.seq_focus_pos c' = Chunk.seq_focus_pos c
  /\ Chunk.label c' = Chunk.label c
  /\ Chunk.read_id c' = Chunk.read_id c
  /\ Chunk.read_seq_pos c' = Chunk.read_seq_pos c.

Definition int32 (z : Z) : Prop := - 2 ^ 31 <= z < 2 ^ 31.

(** What [load_chunks] establishes for a chunk before appending it:
    exact context lengths, the length relation between sequence and map, a
    re-anchored int32 map with non-negative differences that add up to the
    signal length, a non-empty signal, and the encoding in the cache. *)
Definition accepted (kmer_context_bases : Z * Z) (c : Chunk.t) : Prop :=
  Z.of_nat (length (Chunk.before_context_seq c)) = kmer_context_bases.1
  /\ Z.of_nat (length (Chunk.after_context_seq c)) = kmer_context_bases.2
  /\ Z.of_nat (length (Chunk.sequence c))
     = Z.of_nat (length (Chunk.seq_to_sig_map c)) - 1
  /\ Chunk.seq_to_sig_map c !! O = Some 0
  /\ (0 < length (Chunk.signal c))%nat
  /\ Forall int32 (Chunk.seq_to_sig_map c)
  /\ Forall (fun d => 0 <= d) (Py.diff (Chunk.seq_to_sig_map c))
  /\ sumZ (Py.diff (Chunk.seq_to_sig_map c))
     = Z.of_nat (length (Chunk.signal c))
  /\ encoded c
  /\ cache_coherent c.

(** The encoder as a total function, for chunks over the alphabet: the
    bits of one base, the [4 x len] block of a substring, the stacked
    blocks of all offsets, and the expansion of a row to one entry per
    sample. *)
Definition base_bits (b : ascii) : list bool :=
  match BASE_ENCODINGS b with
  | Ok v => v
  | Raise _ => [false; false; false; false]
  end.

Definition block_of (s : list ascii) : tensor :=
  (fun ch => (fun b => nth ch (base_bits b) false) <$> s) <$> seq 0 ENCODING_LEN.

Definition window_at (c : Chunk.t) (offset : Z) : list ascii :=
  Py.slice (Chunk.seq_w_context c) offset
    (offset + Z.of_nat (length (Chunk.sequence c))).

Definition enc_kmers_total (c : Chunk.t) : tensor :=
  mjoin ((fun o => block_of (window_at c o))
           <$> seqZ 0 (Z.of_nat (Chunk.kmer_len c))).

Definition expand (reps : list Z) (row : list bool) : list bool :=
  mjoin (zip_with (fun x d => replicate (Z.to_nat d) x) row reps).

Definition encode_total (c : Chunk.t) : tensor :=
  expand (Py.diff (Chunk.seq_to_sig_map c)) <$> enc_kmers_total c.

(** A small chunk: bases AC with one sample each, one base G of context
    before and none after, focus on the first base. *)
Definition example_chunk : Chunk.t :=
  Chunk.mk [(0 # 1)%Q; (0 # 1)%Q] (list_ascii_of_string "AC") [0; 1; 2]
    (list_ascii_of_string "G") [] 0 0 (-1) None 1 None None.

(** The columns that masking the focus base can change: the signal span of
    the bases within k-mer distance of the focus base, as base indices. *)
Definition affected_bases (c : Chunk.t) (f : nat) : nat * nat :=
  ((f - length (Chunk.after_context_seq c))%nat,
   (length (Chunk.sequence c)
      `min` (f + length (Chunk.before_context_seq c) + 1))%nat).

(** The chunk after [mask_focus_base] replaced the base at index [f]. *)
Definition masked (c : Chunk.t) (f : nat) : Chunk.t :=
  Chunk.set_seq_nn_input
    (Chunk.set_sequence c (<[f := "N"%char]> (Chunk.sequence c))) None.

(** Two rows agree before column [a] and from column [b] on. *)
Definition agree_outside {A} (a b : nat) (row row' : list A) : Prop :=
  take a row = take a row' /\ drop b row = drop b row'.

(** What [RemoraDataset.__init__] establishes: parallel buffers of
    [dataset_len] rows, metadata exactly when requested, a non-zero batch
    size and the number of batches that [divmod] and [drop_last] give. *)
Definition dataset_wf (ds : RemoraDataset.t) : Prop :=
  length (RemoraDataset.sig_tensor ds) = RemoraDataset.dataset_len ds
  /\ length (RemoraDataset.seq_tensor ds) = RemoraDataset.dataset_len ds
  /\ length (RemoraDataset.labels ds) = RemoraDataset.dataset_len ds
  /\ match RemoraDataset.read_data ds with
     | Some rd =>
         RemoraDataset.return_read_data ds = true
         /\ length rd = RemoraDataset.dataset_len ds
     | None => RemoraDataset.return_read_data ds = false
     end
  /\ RemoraDataset.batch_size ds <> 0
  /\ RemoraDataset.n_batches ds
     = Z.of_nat (RemoraDataset.dataset_len ds) `div` RemoraDataset.batch_size ds
       + (if negb (RemoraDataset.drop_last ds)
             && (Z.of_nat (RemoraDataset.dataset_len ds)
                 `mod` RemoraDataset.batch_size ds >? 0)
          then 1 else 0).

(** The dataset [ds] with the batch counter at [i]. *)
Definition at_batch (ds : RemoraDataset.t) (i : Z) : RemoraDataset.t :=
  RemoraDataset.mk (RemoraDataset.batch_size ds) (RemoraDataset.shuffle ds)
    (RemoraDataset.drop_last ds) (RemoraDataset.return_read_data ds)
    (RemoraDataset.dataset_len ds) (RemoraDataset.n_batches ds)
    (RemoraDataset.sig_tensor ds) (RemoraDataset.seq_tensor ds)
    (RemoraDataset.labels ds) (RemoraDataset.read_data ds) (Some i).

(** A read of the data model, for a given label table: the map has one
    entry more than the sequence, and the integer-coded sequence, when
    present, is parallel to the sequence with codes inside the table. *)
Definition read_wf (label_conv : list Z) (read : RemoraRead.t) : Prop :=
  length (RemoraRead.seq_to_sig_map read) = S (length (RemoraRead.seq read))
  /\ match RemoraRead.int_seq read with
     | None => True
     | Some int_seq =>
         length int_seq = length (RemoraRead.seq read)
         /\ Forall (fun code => 0 <= code < Z.of_nat (length label_conv)) int_seq
     end.

Definition motif_wf (motif : Motif.t) : Prop :=
  0 <= Motif.focus_pos motif < Z.of_nat (length (Motif.pattern motif)).

(** ** Where a chunk comes from *)

(** The sequence window of [extract_chunk_from_read] (source lines
    161-166): the given bounds, or the ones found by binary search in the
    map. *)
Definition seq_bounds (read : RemoraRead.t) (sig_start sig_end : Z)
    (seq_start seq_end : option Z) : Z * Z :=
  match seq_start, seq_end with
  | Some s, Some e => (s, e)
  | _, _ =>
      (Py.searchsorted (RemoraRead.seq_to_sig_map read) sig_start Py.Right - 1,
       Py.searchsorted (RemoraRead.seq_to_sig_map read) sig_end Py.Left)
  end.

(** The focus positions [motif_pos] that [load_chunks] visits in one read
    (source lines 292-310); a read that is skipped has none. *)
Definition motif_pos (motif : Motif.t) (focus_offset : option Z) (full : bool)
    (read : RemoraRead.t) : list Z :=
  if full then
    (fun start => Z.of_nat start + Motif.focus_pos motif)
      <$> Motif.finditer motif (RemoraRead.seq read)
  else
    match focus_offset with
    | None => []
    | Some fo =>
        if fo >=? Z.of_nat (length (RemoraRead.seq read)) then []
        else if negb (Motif.match_prefix (Motif.pattern motif)
                        (Py.slice (RemoraRead.seq read)
                           (fo - Motif.focus_pos motif)
                           (fo + Motif.num_bases_after_focus motif + 1)))
        then []
        else [fo]
    end.

(** The chunk [c] is the one that one iteration of the position loop
    appends for focus position [m_pos] of [read]. *)
Definition extracted_at (label_conv : list Z) (chunk_context : Z * Z)
    (kmer_context_bases : Z * Z) (fixed_seq_len_chunks base_pred : bool)
    (read : RemoraRead.t) (m_pos : Z) (c : Chunk.t) : Prop :=
  exists sig_focus_pos sig_start sig_end seq_start seq_end label,
    focus_sig_pos read m_pos = Ok sig_focus_pos
    /\ window chunk_context fixed_seq_len_chunks read m_pos sig_focus_pos
       = Ok (inr (sig_start, sig_end, seq_start, seq_end))
    /\ chunk_label label_conv read m_pos = Ok label
    /\ try_chunk kmer_context_bases base_pred read sig_start sig_end label
         seq_start seq_end sig_focus_pos m_pos = Ok c.

(** The chunks of two copies of the example read, for motif CG in
    fixed-signal-length mode: four chunks of ten samples. *)
Definition example_chunks : list Chunk.t :=
  match load_chunks [example_read; example_read] None motif_CG [] (5, 5)
          (1, 1) None false false true with
  | Ok chunks => chunks
  | Raise _ => []
  end.

(** ** Reads from a Taiyaki mapped-signal file *)

(** What [from_taiyaki_read] uses of a Taiyaki read, whose class belongs to
    an external library: [current] is the value of
    [read.get_current(read.get_mapped_dacs_region())], [Reference] the
    integer-coded reference and [Ref_to_signal] the map from reference
    positions to signal positions.  The dtype of [Ref_to_signal] is not
    fixed by the source; the subtraction below is the exact one. *)
Module TaiyakiRead.

Record t : Type := mk {
  current : list sample;
  Reference : list Z;
  Ref_to_signal : list Z;
  read_id : string
}.

End TaiyakiRead.

(** The content of a file opened with [MappedSignalReader]: its reads, in
    iteration order, and its alphabet information. *)
Module MappedSignalReader.

Record t : Type := mk {
  reads : list TaiyakiRead.t;
  alphabet : list ascii;
  collapse_alphabet : list ascii
}.

End MappedSignalReader.

Section Taiyaki.

(** [util.to_str], whose defining module is not among the sources. *)
Variable to_str : string -> string.

(** [RemoraRead.from_taiyaki_read]. *)
Definition from_taiyaki_read (read : TaiyakiRead.t)
    (collapse_alphabet : list ascii) : result RemoraRead.t :=
  let sig := TaiyakiRead.current read in
  seq ← mapM (fun b =>
                Py.getitem (fun _ _ => Py.str_index_error) collapse_alphabet b)
         (TaiyakiRead.Reference read);
  first ← Py.getitem Py.np_index_error (TaiyakiRead.Ref_to_signal read) 0;
  let seq_to_sig_map :=
    (fun x => x - first) <$> TaiyakiRead.Ref_to_signal read in
  let int_seq := TaiyakiRead.Reference read in
  Ok (RemoraRead.mk sig seq seq_to_sig_map
        (Some (to_str (TaiyakiRead.read_id read))) (Some int_seq)).

Definition load_taiyaki_dataset (input_msf : MappedSignalReader.t)
    : result (list RemoraRead.t * list ascii * list ascii) :=
  reads ← mapM (fun tai_read =>
                  from_taiyaki_read tai_read
                    (MappedSignalReader.collapse_alphabet input_msf))
           (MappedSignalReader.reads input_msf);
  Ok (reads, MappedSignalReader.alphabet input_msf,
      MappedSignalReader.collapse_alphabet input_msf).

End Taiyaki.

(** A Taiyaki read of the data model: one map entry more than reference
    positions, and reference codes that index the collapsed alphabet. *)
Definition taiyaki_read_wf (collapse_alphabet : list ascii)
    (read : TaiyakiRead.t) : Prop :=
  length (TaiyakiRead.Ref_to_signal read)
  = S (length (TaiyakiRead.Reference read))
  /\ Forall (fun b => 0 <= b < Z.of_nat (length collapse_alphabet))
       (TaiyakiRead.Reference read).

(** A Taiyaki read with three reference positions over the alphabet ACGT,
    mapped from signal position 7 on. *)
Definition example_taiyaki_read : TaiyakiRead.t :=
  TaiyakiRead.mk (replicate 9 (0 # 1)%Q) [1; 2; 0] [7; 10; 13; 16] "r1".

(** ** The rejection histogram *)

(** The sum of all counts of the histogram that [load_chunks] logs. *)
Definition hist_total (h : gmap string nat) : nat :=
  map_fold (fun _ v acc => (v + acc)%nat) O h.

(** The number of histogram entries that one read accounts for when no cap
    ends its position loop: one per motif hit in full mode, and one per
    read otherwise (the chunk at the focus offset, or the reason for which
    the read was skipped). *)
Definition positions_examined (motif : Motif.t) (full : bool)
    (read : RemoraRead.t) : nat :=
  if full then length (Motif.finditer motif (RemoraRead.seq read)) else 1%nat.

(** The chunks and the histogram of the example read for motif CG with
    signal context (20, 5): the hit at position 1 is rejected for its
    signal start, the hit at position 5 gives a chunk. *)
Definition example_run : lc_state :=
  match load_chunks_run None motif_CG [] (20, 5) (1, 1) None false false true
          [example_read] with
  | Ok st => st
  | Raise _ => ([], ∅)
  end.

(** ** The training set of [extract_train_data.py] *)

(** One iteration of [for read in mod_training_msf] of [get_train_set]:
    the entries appended to [sigs], [labels], [refs] and [base_locs]. *)
Definition train_set_entry (collapse_alphabet : list ascii) (mod_offset : Z)
    (read : TaiyakiRead.t)
    : result (list sample * bool * list ascii * list Z) :=
  let sig := TaiyakiRead.current read in
  ref ← mapM (fun b =>
                Py.getitem (fun _ _ => Py.str_index_error) collapse_alphabet b)
         (TaiyakiRead.Reference read);
  first ← Py.getitem Py.np_index_error (TaiyakiRead.Ref_to_signal read) 0;
  let base_loc := (fun x => x - first) <$> TaiyakiRead.Ref_to_signal read in
  code ← Py.getitem Py.np_index_error (TaiyakiRead.Reference read) mod_offset;
  let is_mod := code =? 1 in
  Ok (sig, is_mod, ref, base_loc).

(** [get_train_set]: the four lists are filled in step, so that an error
    in one read leaves nothing behind. *)
Definition get_train_set (mod_training_msf : MappedSignalReader.t)
    (mod_offset : Z)
    : result (list (list sample) * list bool * list (list ascii)
              * list (list Z)) :=
  entries ← mapM (train_set_entry
                    (MappedSignalReader.collapse_alphabet mod_training_msf)
                    mod_offset)
             (MappedSignalReader.reads mod_training_msf);
  Ok ((fun e => e.1.1.1) <$> entries, (fun e => e.1.1.2) <$> entries,
      (fun e => e.1.2) <$> entries, (fun e => e.2) <$> entries).

(** ** Chunk metadata *)

(** The metadata that [RemoraDataset] keeps of a chunk when
    [return_read_data] is set. *)
Definition chunk_meta (c : Chunk.t) : option string * Z :=
  (Chunk.read_id c, Chunk.read_seq_pos c).

(** The focus positions that [load_chunks] visits, read by read, each with
    the identifier of its read. *)
Definition visited (motif : Motif.t) (focus_offset : option Z) (full : bool)
    (reads : list RemoraRead.t) : list (option string * Z) :=
  mjoin ((fun read =>
            (fun m_pos => (RemoraRead.read_id read, m_pos))
              <$> motif_pos motif focus_offset full read) <$> reads).

(** ** The outcome of a focus position *)

(** What one iteration of [for m_pos in motif_pos] comes to: a chunk that
    is appended, or the key of the counter that is incremented. *)
Inductive outcome : Type :=
| Extracted (chunk : Chunk.t)
| Rejected (reason : string).

(** The body of the position loop (source lines 314-372) as a function of
    the read and the position alone, without the loop state: an error
    outside the [try] block is raised, one inside it is a rejection under
    [str(e)]. *)
Definition pos_outcome (label_conv : list Z) (chunk_context : Z * Z)
    (kmer_context_bases : Z * Z) (fixed_seq_len_chunks base_pred : bool)
    (read : RemoraRead.t) (m_pos : Z) : result outcome :=
  sig_focus_pos ← focus_sig_pos read m_pos;
  w ← window chunk_context fixed_seq_len_chunks read m_pos sig_focus_pos;
  match w with
  | inl reason => Ok (Rejected reason)
  | inr (sig_start, sig_end, seq_start, seq_end) =>
      label ← chunk_label label_conv read m_pos;
      match try_chunk kmer_context_bases base_pred read sig_start sig_end
              label seq_start seq_end sig_focus_pos m_pos with
      | Ok chunk => Ok (Extracted chunk)
      | Raise e => Ok (Rejected (str_of_exn e))
      end
  end.

(** The histogram key of an outcome. *)
Definition outcome_key (o : outcome) : string :=
  match o with
  | Extracted _ => "success"
  | Rejected reason => reason
  end.

(** The chunks among a list of outcomes, in order. *)
Definition extracted_chunks (outs : list outcome) : list Chunk.t :=
  omap (fun o => match o with
                 | Extracted c => Some c
                 | Rejected _ => None
                 end) outs.

(** The focus positions of all reads, in the order in which [load_chunks]
    visits them when no cap ends a position loop. *)
Definition focus_positions (motif : Motif.t) (focus_offset : option Z)
    (full : bool) (reads : list RemoraRead.t) : list (RemoraRead.t * Z) :=
  mjoin ((fun read =>
            (fun m_pos => (read, m_pos))
              <$> motif_pos motif focus_offset full read) <$> reads).

(** The keys under which a whole read is skipped (source lines 299-309). *)
Definition skip_reasons : list string :=
  ["[--focus-offset] past read seq"; "Focus position motif mismatch"]%string.

(** * Verification *)

(** ** The end-to-end example *)

(** C2: on the read ACGTACGTAC with ten samples per base, motif CG with
    focus 0, signal context (5,5) and k-mer context (1,1) in full mode, the
    motif is found at positions 1 and 5, the focus signal positions are 15
    and 55, and exactly two chunks are returned, each with ten samples and
    one base of context on either side. *)
Theorem load_chunks_example_CG :
  Motif.finditer motif_CG (RemoraRead.seq example_read) = [1%nat; 5%nat]
  /\ focus_sig_pos example_read 1 = Ok 15
  /\ focus_sig_pos example_read 5 = Ok 55
  /\ exists c1 c2,
       load_chunks [example_read] None motif_CG [] (5, 5) (1, 1) None
         false false true = Ok [c1; c2]
       /\ Chunk.read_seq_pos c1 = 1 /\ Chunk.read_seq_pos c2 = 5
       /\ Chunk.sig_focus_pos c1 = 15 - 10 /\ Chunk.sig_focus_pos c2 = 55 - 50
       /\ length (Chunk.signal c1) = 10%nat /\ length (Chunk.signal c2) = 10%nat
       /\ length (Chunk.before_context_seq c1) = 1%nat
       /\ length (Chunk.after_context_seq c1) = 1%nat
       /\ length (Chunk.before_context_seq c2) = 1%nat
       /\ length (Chunk.after_context_seq c2) = 1%nat.
Proof.
  split; [reflexivity|]. split; [reflexivity|]. split; [reflexivity|].
  eexists _, _. split; [vm_compute; reflexivity|].
  repeat split.
Qed.

(** ** The chunk cap *)

(** C1 (the cap is exceeded): with a cap of one chunk and two reads that
    each hold a valid motif hit, the [break] leaves only the loop over the
    positions of the first read, the second read is still processed, and
    two chunks are returned. *)
Theorem load_chunks_exceeds_cap :
  exists chunks,
    load_chunks [example_read; example_read] (Some 1) motif_CG [] (5, 5)
      (1, 1) None false false true = Ok chunks
    /\ length chunks = 2%nat
    /\ ~ (Z.of_nat (length chunks) <= 1).
Proof.
  eexists. split; [vm_compute; reflexivity|].
  split; [reflexivity|]. cbn. lia.
Qed.

(** ** The validation split *)

(** C5 (the guard lets too few chunks through): with [val_prop = 0.75],
    the double that is exactly 3/4, and the two chunks of the example read,
    [2 < 2 / val_prop] holds, yet the guard
    [len(chunks) < int(1 / val_prop) * 2] is [2 < 2]: no error is raised
    and the validation set receives a single chunk. *)
Theorem load_datasets_accepts_too_few :
  PyFloat.value float_0_75 = Some (3 # 4)%Q
  /\ (inject_Z 2 < 2 / (3 # 4))%Q
  /\ too_few_chunks 2 float_0_75 = Ok false
  /\ exists dl_trn dl_val dl_val_trn chunks,
       load_datasets [example_read] (5, 5) DEFAULT_BATCH_SIZE None false None true []
         motif_CG false float_0_75 (1, 1) false [O; 1%nat]
       = Ok (dl_trn, Some dl_val, Some dl_val_trn, chunks)
       /\ length chunks = 2%nat
       /\ RemoraDataset.dataset_len dl_val = 1%nat.
Proof.
  split; [reflexivity|]. split; [reflexivity|]. split; [reflexivity|].
  eexists _, _, _, _. split; [vm_compute; reflexivity|].
  split; reflexivity.
Qed.

(** ** The error monad, indexing and the histogram *)

Lemma bind_Ok {A B} (m : result A) (k : A -> result B) b :
  m ≫= k = Ok b -> exists a, m = Ok a /\ k a = Ok b.
Proof. destruct m as [a|e]; simpl; [eauto | discriminate]. Qed.

Lemma bind_Raise {A B} (m : result A) (k : A -> result B) e :
  m ≫= k = Raise e -> m = Raise e \/ exists a, m = Ok a /\ k a = Raise e.
Proof. destruct m as [a|e']; simpl; [eauto | intros [= ->]; by left]. Qed.

Lemma mapM_Raise {A B} (f : A -> result B) (l : list A) e :
  mapM f l = Raise e -> exists x, x ∈ l /\ f x = Raise e.
Proof.
  induction l as [|x l IH]; simpl; [discriminate|].
  destruct (f x) eqn:Hx; simpl.
  - destruct (mapM f l) eqn:Hl; simpl; [discriminate|].
    intros [= <-]. destruct IH as (y & Hy & Hfy); [done|].
    exists y. split; [by right | done].
  - intros [= <-]. exists x. split; [by left | done].
Qed.

Lemma mapM_Ok {A B} (f : A -> result B) (l : list A) k :
  mapM f l = Ok k -> Forall2 (fun x y => f x = Ok y) l k.
Proof.
  revert k. induction l as [|x l IH]; simpl; intros k.
  - intros [= <-]. constructor.
  - destruct (f x) eqn:Hx; simpl; [|discriminate].
    destruct (mapM f l) eqn:Hl; simpl; [|discriminate].
    intros [= <-]. constructor; [done | by apply IH].
Qed.

Lemma mapM_Ok_intro {A B} (f : A -> result B) (l : list A) k :
  Forall2 (fun x y => f x = Ok y) l k -> mapM f l = Ok k.
Proof.
  induction 1 as [|x y l k Hxy _ IH]; simpl; [done|].
  by rewrite Hxy, IH.
Qed.

Lemma getitem_Raise {A} (err : nat -> Z -> exn) (l : list A) i e :
  Py.getitem err l i = Raise e -> e = err (length l) i.
Proof.
  unfold Py.getitem. destruct (Py.norm_index _ _); [destruct (l !! _)|]; congruence.
Qed.

Lemma norm_index_lt n i k : Py.norm_index n i = Some k -> (k < n)%nat.
Proof.
  unfold Py.norm_index. intros H.
  repeat case_match; simplify_eq; lia.
Qed.

Lemma norm_index_nonneg n i :
  0 <= i < Z.of_nat n -> Py.norm_index n i = Some (Z.to_nat i).
Proof.
  intros H. unfold Py.norm_index. case_match; [done | lia].
Qed.

Lemma getitem_nonneg {A} err (l : list A) i x :
  0 <= i -> l !! Z.to_nat i = Some x -> Py.getitem err l i = Ok x.
Proof.
  intros Hi Hx. unfold Py.getitem.
  rewrite norm_index_nonneg; [by rewrite Hx|].
  apply lookup_lt_Some in Hx. lia.
Qed.

Lemma getitem_last {A} err (l : list A) x :
  Py.getitem err l (-1) = Ok x <-> last l = Some x.
Proof.
  unfold Py.getitem. rewrite last_lookup.
  destruct (Py.norm_index (length l) (-1)) as [k|] eqn:Hk.
  - assert (k = Nat.pred (length l)) as ->.
    { unfold Py.norm_index in Hk. repeat case_match; simplify_eq; lia. }
    destruct (l !! _); split; congruence.
  - assert (l = []) as ->.
    { destruct l; [done|]. unfold Py.norm_index in Hk. simpl in Hk.
      repeat case_match; simplify_eq; lia. }
    split; discriminate.
Qed.

Lemma count_incr_eq h k : count (incr h k) k = S (count h k).
Proof. unfold count at 1, incr. by rewrite lookup_insert_eq. Qed.

Lemma count_incr_ne h k k' : k <> k' -> count (incr h k) k' = count h k'.
Proof. intros H. unfold count at 1, incr. by rewrite lookup_insert_ne. Qed.

Lemma incr_inj h k k' : incr h k = incr h k' -> k = k'.
Proof.
  intros H. destruct (decide (k = k')) as [|Hne]; [done|].
  assert (count (incr h k) k = count (incr h k') k) as E by (by rewrite H).
  rewrite count_incr_eq, count_incr_ne in E by done. lia.
Qed.

(** ** Which exceptions the [try] block raises *)

Lemma enc_kmers_Raise c e : Chunk.enc_kmers c = Raise e -> try_exn e.
Proof.
  unfold Chunk.enc_kmers. intros H.
  apply bind_Raise in H as [H|(a & _ & H)]; [|discriminate].
  apply mapM_Raise in H as (o & _ & H). unfold Chunk.enc_block in H.
  apply bind_Raise in H as [H|(cols & _ & H)].
  - apply mapM_Raise in H as (b & _ & H). unfold BASE_ENCODINGS in H.
    repeat (destruct (Ascii.eqb _ _); [discriminate|]).
    injection H as <-. constructor.
  - unfold stack_axis1 in H. destruct cols; [|discriminate].
    injection H as <-. constructor.
Qed.

Lemma np_repeat_axis1_Raise t reps e :
  np_repeat_axis1 t reps = Raise e -> try_exn e.
Proof.
  unfold np_repeat_axis1. intros H.
  repeat (match type of H with
          | context [match ?x with _ => _ end] => destruct x
          end; try discriminate);
    injection H as <-; constructor.
Qed.

Lemma seq_nn_input_Raise c e : Chunk.seq_nn_input c = Raise e -> try_exn e.
Proof.
  unfold Chunk.seq_nn_input. destruct (Chunk._seq_nn_input c); [discriminate|].
  intros H. apply bind_Raise in H as [H|(t & _ & H)].
  - by apply enc_kmers_Raise in H.
  - destruct (Chunk.base_sig_lens c) as [lens c1].
    apply bind_Raise in H as [H|(v & _ & H)]; [|discriminate].
    by apply np_repeat_axis1_Raise in H.
Qed.

Lemma check_Raise c e : Chunk.check c = Raise e -> try_exn e.
Proof.
  unfold Chunk.check. destruct (_ <=? _)%nat; [intros [= <-]; constructor|].
  intros H. apply bind_Raise in H as [H|([v c1] & _ & H)].
  - by apply seq_nn_input_Raise in H.
  - simpl in H. destruct (negb _); [injection H as <-; constructor|].
    destruct (negb _); [injection H as <-; constructor | discriminate].
Qed.

Lemma setitem_Raise {A} (l : list A) i x e :
  Py.setitem l i x = Raise e -> try_exn e.
Proof.
  unfold Py.setitem. destruct (Py.norm_index _ _); [discriminate|].
  intros [= <-]. constructor.
Qed.

Lemma extract_chunk_from_read_Raise read kc ss se lab sqs sqe sfp rid rsp e :
  Chunk.extract_chunk_from_read read kc ss se lab sqs sqe sfp rid rsp = Raise e ->
  try_exn e.
Proof.
  unfold Chunk.extract_chunk_from_read.
  destruct (match sqs with Some _ => _ | None => _ end) as [s0 e0].
  intros H. apply bind_Raise in H as [H|(m1 & _ & H)];
    [by apply setitem_Raise in H|].
  apply bind_Raise in H as [H|(m2 & _ & H)];
    [by apply setitem_Raise in H|].
  destruct kc as [kb ka]. destruct (_ || _); [|discriminate].
  injection H as <-. constructor.
Qed.

Lemma mask_focus_base_Raise c e : Chunk.mask_focus_base c = Raise e -> try_exn e.
Proof.
  unfold Chunk.mask_focus_base. intros H.
  apply bind_Raise in H as [H|(b & _ & H)].
  - apply getitem_Raise in H as ->. constructor.
  - destruct (Ascii.eqb _ _); discriminate.
Qed.

Lemma try_chunk_Raise kc base_pred read ss se lab sqs sqe sfp m e :
  try_chunk kc base_pred read ss se lab sqs sqe sfp m = Raise e -> try_exn e.
Proof.
  unfold try_chunk. intros H.
  apply bind_Raise in H as [H|(c & _ & H)];
    [by apply extract_chunk_from_read_Raise in H|].
  apply bind_Raise in H as [H|(c' & _ & H)]; [|by apply check_Raise in H].
  destruct base_pred; [by apply mask_focus_base_Raise in H | discriminate].
Qed.

(** No exception of the [try] block is recorded under the key of a
    successful chunk or of a window rejection. *)
Lemma try_exn_key e :
  try_exn e -> str_of_exn e ∉ "success"%string :: window_reasons.
Proof.
  intros He Hin. unfold window_reasons in Hin.
  inversion He; subst; simpl in Hin;
    repeat (apply elem_of_cons in Hin as [Hin|Hin]; [discriminate|]);
    by apply elem_of_nil in Hin.
Qed.

(** ** Window rejections *)

Lemma focus_sig_pos_map_nonempty read m sfp :
  focus_sig_pos read m = Ok sfp ->
  exists total, last (RemoraRead.seq_to_sig_map read) = Some total.
Proof.
  unfold focus_sig_pos. intros H. apply bind_Ok in H as (a & Ha & _).
  destruct (RemoraRead.seq_to_sig_map read) as [|x l] eqn:E.
  - unfold Py.getitem, Py.norm_index in Ha. simpl in Ha.
    repeat case_match; simplify_eq; lia.
  - destruct (last (x :: l)) eqn:El; [eauto|].
    rewrite last_None in El. discriminate.
Qed.

(** On a read whose map ends at the length of its signal, the total
    signal length that the extraction reads is the number of samples. *)
Lemma total_sig_len_of_read read :
  last (RemoraRead.seq_to_sig_map read)
  = Some (Z.of_nat (length (RemoraRead.sig read))) ->
  total_sig_len read = Z.of_nat (length (RemoraRead.sig read)).
Proof. unfold total_sig_len. by intros ->. Qed.

Lemma window_reject_iff chunk_context fixed read m sfp :
  (exists total, last (RemoraRead.seq_to_sig_map read) = Some total) ->
  window_invalid fixed chunk_context read m sfp
  <-> exists reason, window chunk_context fixed read m sfp = Ok (inl reason).
Proof.
  intros [total Ht]. unfold window_invalid, window, total_sig_len.
  rewrite Ht. simpl. apply getitem_last with (err := Py.np_index_error) in Ht.
  destruct fixed.
  - destruct (_ <=? 0) eqn:E1; [split; [eauto | lia]|].
    destruct (_ >=? _) eqn:E2; [split; [eauto | lia]|].
    split; [lia|]. intros [reason H].
    apply bind_Ok in H as (a & _ & H). apply bind_Ok in H as (b & _ & H).
    discriminate.
  - destruct (_ <? 0) eqn:E1; [split; [eauto | lia]|].
    rewrite Ht. simpl.
    destruct (_ >? total) eqn:E2; [split; [eauto | lia]|].
    destruct (_ >=? _) eqn:E3; [split; [eauto | lia]|].
    split; [lia|]. intros [reason H]. discriminate.
Qed.

Lemma window_reason_named chunk_context fixed read m sfp reason :
  window chunk_context fixed read m sfp = Ok (inl reason) ->
  reason ∈ window_reasons.
Proof.
  unfold window, window_reasons. intros H. destruct fixed.
  - repeat (case_match; [injection H as <-; set_solver|]).
    apply bind_Ok in H as (a & _ & H). apply bind_Ok in H as (b & _ & H).
    discriminate.
  - case_match; [injection H as <-; set_solver|].
    apply bind_Ok in H as (a & _ & H).
    repeat (case_match; [injection H as <-; set_solver|]). discriminate.
Qed.

(** C6: for a focus position whose focus signal position [sfp] is defined,
    the step of the extraction loop leaves the chunk list unchanged,
    increments one of the five window-rejection counters by one and goes on
    to the next position (it does not raise) exactly when the window is
    invalid: in fixed-sequence-length mode when [m - before <= 0] or
    [m + after + 1 >= len(seq_to_sig_map)], in fixed-signal-length mode when
    [sfp - before < 0], [sfp + after] exceeds the total signal length or the
    window is empty. *)
Theorem window_rejection_exact num_chunks label_conv chunk_context
    kmer_context_bases fixed base_pred read st m sfp :
  focus_sig_pos read m = Ok sfp ->
  window_invalid fixed chunk_context read m sfp
  <-> exists reason,
        reason ∈ window_reasons
        /\ pos_step num_chunks label_conv chunk_context kmer_context_bases
             fixed base_pred read st m
           = Ok (Continue, (st.1, incr st.2 reason))
        /\ count (incr st.2 reason) reason = S (count st.2 reason).
Proof.
  intros Hsfp. pose proof (focus_sig_pos_map_nonempty _ _ _ Hsfp) as Hne.
  rewrite (window_reject_iff _ _ _ _ _ Hne).
  destruct st as [chunks hist]. unfold pos_step. rewrite Hsfp. simpl.
  split.
  - intros [reason Hw]. exists reason. rewrite Hw. simpl.
    split; [by eapply window_reason_named|].
    split; [done | apply count_incr_eq].
  - intros (reason & Hin & Hstep & _).
    destruct (window _ _ _ _ _) as [[r|[[[ss se] sqs] sqe]]|e] eqn:Hw;
      simpl in Hstep; [eauto | | discriminate].
    exfalso.
    apply bind_Ok in Hstep as (lab & _ & Hstep).
    destruct (try_chunk _ _ _ _ _ _ _ _ _ _) as [c|e] eqn:Htry.
    + injection Hstep as _ Hc _.
      apply (f_equal length) in Hc. rewrite length_app in Hc. simpl in Hc. lia.
    + injection Hstep as Hh. apply incr_inj in Hh.
      apply try_chunk_Raise in Htry. apply try_exn_key in Htry.
      apply Htry. rewrite Hh. by right.
Qed.

(** C6 at the example read: with a signal context of 20 samples before,
    the window of the hit at position 1 would start at sample -5. *)
Lemma window_rejection_exact_witness :
  window_invalid false (20, 5) example_read 1 15
  <-> exists reason,
        reason ∈ window_reasons
        /\ pos_step None [] (20, 5) (1, 1) false false example_read ([], ∅) 1
           = Ok (Continue, ([], incr ∅ reason))
        /\ count (incr ∅ reason) reason = S (count ∅ reason).
Proof.
  apply (window_rejection_exact None [] (20, 5) (1, 1) false false
           example_read ([], ∅) 1 15).
  reflexivity.
Defined.

(** C6 (a rejection with a valid window): at position 1 of the example
    read, with a signal context of (5, 5), the window [10, 20) is valid;
    yet with a k-mer context of two bases before the focus, of which the
    read has one, no chunk is produced.  The step does not raise: it adds
    one to the counter "Invalid context seq extracted", which is none of
    the window counters, and continues. *)
Theorem valid_window_rejected :
  focus_sig_pos example_read 1 = Ok 15
  /\ ~ window_invalid false (5, 5) example_read 1 15
  /\ pos_step None [] (5, 5) (2, 1) false false example_read ([], ∅) 1
     = Ok (Continue, ([], incr ∅ "Invalid context seq extracted"))
  /\ count (incr ∅ "Invalid context seq extracted")
       "Invalid context seq extracted"
     = S (count ∅ "Invalid context seq extracted")
  /\ "Invalid context seq extracted"%string ∉ window_reasons.
Proof.
  split; [reflexivity|]. split.
  { unfold window_invalid, total_sig_len. simpl. lia. }
  split; [vm_compute; reflexivity|]. split; [apply count_incr_eq|].
  unfold window_reasons. intros Hin.
  repeat (apply elem_of_cons in Hin as [Hin|Hin]; [discriminate|]).
  by apply elem_of_nil in Hin.
Qed.

(** ** Invariants of the extraction loops *)

Section LoopInvariant.

Variable num_chunks : option Z.
Variable motif : Motif.t.
Variable label_conv : list Z.
Variable chunk_context : Z * Z.
Variable kmer_context_bases : Z * Z.
Variable focus_offset : option Z.
Variable fixed_seq_len_chunks : bool.
Variable base_pred : bool.
Variable full : bool.

Variable R : RemoraRead.t -> Prop.
Variable P : lc_state -> Prop.

Hypothesis P_step : forall read st m fl st',
  R read ->
  P st ->
  pos_step num_chunks label_conv chunk_context kmer_context_bases
    fixed_seq_len_chunks base_pred read st m = Ok (fl, st') ->
  P st'.

Hypothesis P_skip : forall st k,
  P st ->
  k = "[--focus-offset] past read seq"%string
  \/ k = "Focus position motif mismatch"%string ->
  P (st.1, incr st.2 k).

Lemma pos_loop_invariant read ms st st' :
  R read ->
  P st ->
  pos_loop num_chunks label_conv chunk_context kmer_context_bases
    fixed_seq_len_chunks base_pred read ms st = Ok st' ->
  P st'.
Proof.
  intros HR. revert st. induction ms as [|m ms IH]; simpl; intros st HP H.
  - by injection H as <-.
  - apply bind_Ok in H as ([fl st1] & Hs & H). simpl in H.
    apply P_step in Hs; [|done|done].
    destruct fl; [by eapply IH | by injection H as <-].
Qed.

Lemma read_step_invariant read st st' :
  R read ->
  P st ->
  read_step num_chunks motif label_conv chunk_context kmer_context_bases
    focus_offset fixed_seq_len_chunks base_pred full st read = Ok st' ->
  P st'.
Proof.
  unfold read_step. intros HR HP H. destruct full.
  - by eapply pos_loop_invariant.
  - destruct focus_offset as [fo|]; [|discriminate].
    destruct (_ >=? _); [injection H as <-; apply P_skip; auto|].
    destruct (negb _); [injection H as <-; apply P_skip; auto|].
    by eapply pos_loop_invariant.
Qed.

Lemma reads_loop_invariant reads st st' :
  Forall R reads ->
  P st ->
  reads_loop num_chunks motif label_conv chunk_context kmer_context_bases
    focus_offset fixed_seq_len_chunks base_pred full reads st = Ok st' ->
  P st'.
Proof.
  intros HR. revert st.
  induction HR as [|read reads Hread _ IH]; simpl; intros st HP H.
  - by injection H as <-.
  - apply bind_Ok in H as (st1 & Hs & H).
    eapply IH; [|done]. by eapply read_step_invariant.
Qed.

Lemma load_chunks_run_invariant reads st' :
  Forall R reads ->
  P ([], ∅) ->
  load_chunks_run num_chunks motif label_conv chunk_context kmer_context_bases
    focus_offset fixed_seq_len_chunks base_pred full reads = Ok st' ->
  P st'.
Proof.
  unfold load_chunks_run. intros HR HP H.
  eapply reads_loop_invariant; [exact HR | exact HP|].
  revert H. by destruct focus_offset, full.
Qed.

End LoopInvariant.

(** ** The fatal condition and the rejection histogram *)

Lemma getitem_np_escapes {A} (l : list A) i e :
  Py.getitem Py.np_index_error l i = Raise e -> escapes_try e.
Proof. intros H. apply getitem_Raise in H as ->. exact I. Qed.

Lemma pos_step_Raise num_chunks label_conv chunk_context kmer fixed base_pred
    read st m e :
  pos_step num_chunks label_conv chunk_context kmer fixed base_pred read st m
    = Raise e ->
  escapes_try e.
Proof.
  destruct st as [chunks hist]. unfold pos_step. intros H.
  apply bind_Raise in H as [H|(sfp & _ & H)].
  { unfold focus_sig_pos in H.
    apply bind_Raise in H as [H|(a & _ & H)]; [by eapply getitem_np_escapes|].
    apply bind_Raise in H as [H|(b & _ & H)]; [by eapply getitem_np_escapes|].
    discriminate. }
  apply bind_Raise in H as [H|(w & _ & H)].
  { unfold window in H. destruct fixed.
    - repeat (case_match; [discriminate|]).
      apply bind_Raise in H as [H|(a & _ & H)]; [by eapply getitem_np_escapes|].
      apply bind_Raise in H as [H|(b & _ & H)]; [by eapply getitem_np_escapes|].
      discriminate.
    - case_match; [discriminate|].
      apply bind_Raise in H as [H|(a & _ & H)]; [by eapply getitem_np_escapes|].
      repeat (case_match; [discriminate|]). discriminate. }
  destruct w as [reason|[[[ss se] sqs] sqe]]; [discriminate|].
  apply bind_Raise in H as [H|(lab & _ & H)].
  { unfold chunk_label in H. destruct (RemoraRead.int_seq read); [|discriminate].
    apply bind_Raise in H as [H|(a & _ & H)]; by eapply getitem_np_escapes. }
  destruct (try_chunk _ _ _ _ _ _ _ _ _ _); discriminate.
Qed.

Lemma load_chunks_run_Raise num_chunks motif label_conv chunk_context kmer
    focus_offset fixed base_pred full reads e :
  load_chunks_run num_chunks motif label_conv chunk_context kmer focus_offset
    fixed base_pred full reads = Raise e ->
  escapes_try e.
Proof.
  assert (Hpos : forall read ms st,
    pos_loop num_chunks label_conv chunk_context kmer fixed base_pred read ms st
      = Raise e -> escapes_try e).
  { intros read ms. induction ms as [|m ms IH]; simpl; intros st H;
      [discriminate|].
    apply bind_Raise in H as [H|([fl st1] & _ & H)];
      [by eapply pos_step_Raise|].
    simpl in H. destruct fl; [by eapply IH | discriminate]. }
  assert (Hreads : forall st,
    reads_loop num_chunks motif label_conv chunk_context kmer focus_offset
      fixed base_pred full reads st = Raise e -> escapes_try e).
  { induction reads as [|read reads IH]; simpl; intros st H; [discriminate|].
    apply bind_Raise in H as [H|(st1 & _ & H)]; [|by eapply IH].
    unfold read_step in H. destruct full; [by eapply Hpos|].
    destruct focus_offset as [fo|]; [|by injection H as <-].
    repeat (case_match; [discriminate|]). by eapply Hpos. }
  unfold load_chunks_run. intros H.
  destruct focus_offset, full; try (by eapply Hreads).
  by injection H as <-.
Qed.

Lemma success_count_invariant num_chunks motif label_conv chunk_context kmer
    focus_offset fixed base_pred full reads chunks hist :
  load_chunks_run num_chunks motif label_conv chunk_context kmer focus_offset
    fixed base_pred full reads = Ok (chunks, hist) ->
  count hist "success" = length chunks.
Proof.
  intros H.
  eapply (load_chunks_run_invariant _ _ _ _ _ _ _ _ _ (fun _ => True)
            (fun st => count st.2 "success" = length st.1)) in H; try done.
  - intros read [cs h] m fl [cs' h'] _ HP Hs. simpl in *. unfold pos_step in Hs.
    apply bind_Ok in Hs as (sfp & _ & Hs). apply bind_Ok in Hs as (w & Hw & Hs).
    destruct w as [reason|[[[ss se] sqs] sqe]].
    + injection Hs as _ <- <-. apply window_reason_named in Hw.
      rewrite count_incr_ne; [done|]. intros ->.
      unfold window_reasons in Hw.
      repeat (apply elem_of_cons in Hw as [Hw|Hw]; [discriminate|]).
      by apply elem_of_nil in Hw.
    + apply bind_Ok in Hs as (lab & _ & Hs).
      destruct (try_chunk _ _ _ _ _ _ _ _ _ _) as [c|e] eqn:Htry.
      * injection Hs as _ <- <-. rewrite count_incr_eq, length_app. simpl. lia.
      * injection Hs as _ <- <-. apply try_chunk_Raise, try_exn_key in Htry.
        rewrite count_incr_ne; [done|]. intros E. apply Htry. rewrite E. by left.
  - intros [cs h] k HP Hk. simpl in *.
    rewrite count_incr_ne; [done|]. by destruct Hk as [-> | ->].
  - apply Forall_forall. done.
Qed.

(** ** Shape of the encoding *)

Lemma slice_length {A} (l : list A) a b :
  0 <= a <= b -> b <= Z.of_nat (length l) ->
  length (Py.slice l a b) = Z.to_nat (b - a).
Proof.
  intros Hab Hb. unfold Py.slice, Py.slice_index.
  rewrite length_take, length_drop. repeat case_match; lia.
Qed.

Lemma slice_length_le {A} (l : list A) a b :
  (length (Py.slice l a b) <= length l)%nat.
Proof.
  unfold Py.slice. rewrite length_take, length_drop. lia.
Qed.


Lemma stack_axis1_Ok cols blk :
  stack_axis1 cols = Ok blk ->
  cols <> [] /\ length blk = 4%nat
  /\ Forall (fun row => length row = length cols) blk.
Proof.
  unfold stack_axis1. destruct cols as [|col cols]; [discriminate|].
  intros H.
  assert (blk = (fun ch => (fun c => nth ch c false) <$> (col :: cols))
                  <$> seq 0 ENCODING_LEN) as -> by congruence.
  split; [done|]. split; [reflexivity|].
  apply Forall_fmap, Forall_forall. intros ch _.
  apply (length_fmap _ (col :: cols)).
Qed.

Lemma length_join_replicate {A} (row : list A) (reps : list Z) :
  length row = length reps ->
  Forall (fun d => 0 <= d) reps ->
  Z.of_nat (length (mjoin (zip_with (fun x d => replicate (Z.to_nat d) x)
                             row reps)))
  = sumZ reps.
Proof.
  revert reps. induction row as [|x row IH]; intros [|d reps] Hlen Hpos;
    simpl in *; try done.
  apply Forall_cons in Hpos as [Hd Hpos].
  rewrite length_app, length_replicate, Nat2Z.inj_add, IH by (done || lia).
  lia.
Qed.

Lemma existsb_neg_false reps :
  existsb (fun d => d <? 0) reps = false -> Forall (fun d => 0 <= d) reps.
Proof.
  induction reps as [|d reps IH]; simpl; [constructor|].
  intros H. apply orb_false_iff in H as [Hd H].
  constructor; [lia | by apply IH].
Qed.

Lemma np_repeat_axis1_Ok e reps v :
  Forall (fun row => length row = length reps) e ->
  e <> [] ->
  np_repeat_axis1 e reps = Ok v ->
  Forall (fun d => 0 <= d) reps
  /\ length v = length e
  /\ Forall (fun row => Z.of_nat (length row) = sumZ reps) v.
Proof.
  intros Hrows Hne H.
  assert (shape1 e = length reps) as Hshape.
  { destruct e as [|r e]; [done|]. by apply Forall_cons in Hrows as [? _]. }
  assert (forall v',
    (if negb (length reps =? shape1 e)%nat then
       Raise (ValueError
                ("operands could not be broadcast" +:+ " together with shape ("
                 +:+ pretty (Z.of_nat (shape1 e)) +:+ ",) ("
                 +:+ pretty (Z.of_nat (length reps)) +:+ ",)"))
     else if existsb (fun d => d <? 0) reps then
       Raise (ValueError "repeats may not contain negative values.")
     else
       Ok ((fun row =>
              mjoin (zip_with (fun x d => replicate (Z.to_nat d) x) row reps))
             <$> e)) = Ok v' ->
    Forall (fun d => 0 <= d) reps
    /\ length v' = length e
    /\ Forall (fun row => Z.of_nat (length row) = sumZ reps) v') as Hgen.
  { intros v' H'. destruct (negb _); [discriminate|].
    destruct (existsb _ _) eqn:Hex; [discriminate|]. injection H' as <-.
    apply existsb_neg_false in Hex.
    split; [done|]. split; [apply length_fmap|].
    apply Forall_fmap. eapply Forall_impl; [exact Hrows|].
    intros row Hrow. simpl. by apply length_join_replicate. }
  unfold np_repeat_axis1 in H.
  destruct reps as [|d [|d' reps]]; [by apply Hgen | | by apply Hgen].
  destruct (d <? 0) eqn:Hd; [discriminate|]. injection H as <-.
  split; [apply Forall_singleton; lia|]. split; [apply length_fmap|].
  apply Forall_fmap. eapply Forall_impl; [exact Hrows|].
  intros [|x [|y row]] Hrow; simpl in *; try done.
  rewrite length_app, length_replicate. simpl. lia.
Qed.

Lemma enc_block_Ok c o blk :
  0 <= o < Z.of_nat (Chunk.kmer_len c) ->
  Chunk.enc_block c o = Ok blk ->
  length (Chunk.sequence c) <> O /\ length blk = 4%nat
  /\ Forall (fun row => length row = length (Chunk.sequence c)) blk.
Proof.
  intros Ho H. unfold Chunk.enc_block in H.
  apply bind_Ok in H as (cols & Hcols & H).
  apply mapM_Ok, Forall2_length in Hcols.
  rewrite slice_length in Hcols.
  - apply stack_axis1_Ok in H as (Hne & H4 & Hrows).
    assert (length cols = length (Chunk.sequence c)) as Hc by lia.
    rewrite Hc in Hrows. split; [|done].
    destruct cols; [done|]. simpl in Hc. lia.
  - lia.
  - unfold Chunk.seq_w_context, Chunk.kmer_len in *.
    rewrite !length_app. lia.
Qed.

Lemma enc_kmers_Ok c e :
  Chunk.enc_kmers c = Ok e ->
  length (Chunk.sequence c) <> O
  /\ length e = (4 * Chunk.kmer_len c)%nat
  /\ Forall (fun row => length row = length (Chunk.sequence c)) e.
Proof.
  unfold Chunk.enc_kmers. intros H.
  apply bind_Ok in H as (blocks & Hb & [= <-]).
  apply mapM_Ok in Hb.
  assert (Forall (fun blk =>
            length (Chunk.sequence c) <> O /\ length blk = 4%nat
            /\ Forall (fun row => length row = length (Chunk.sequence c)) blk)
            blocks) as Hall.
  { eapply Forall2_Forall_r; [exact Hb|].
    apply Forall_forall. intros o Ho blk Hblk.
    apply elem_of_seqZ in Ho. apply enc_block_Ok in Hblk; [done | lia]. }
  apply Forall2_length in Hb. rewrite length_seqZ in Hb.
  split; [|split].
  - destruct blocks as [|blk blocks].
    + simpl in Hb. unfold Chunk.kmer_len in Hb. lia.
    + by apply Forall_cons in Hall as [[? _] _].
  - rewrite length_join.
    rewrite (sum_list_fmap_same 4); [lia|].
    eapply Forall_impl; [exact Hall|]. by intros blk (_ & ? & _).
  - apply Forall_join. eapply Forall_impl; [exact Hall|].
    by intros blk (_ & _ & ?).
Qed.

(** ** The int32 map and its differences *)

Lemma wrap32_int32 z : int32 (Py.wrap32 z).
Proof.
  unfold int32, Py.wrap32.
  pose proof (Z.mod_pos_bound (z + 2 ^ 31) (2 ^ 32)). lia.
Qed.

Lemma wrap32_congr z : exists k, Py.wrap32 z = z + k * 2 ^ 32.
Proof.
  exists (- ((z + 2 ^ 31) `div` 2 ^ 32)). unfold Py.wrap32.
  pose proof (Z.div_mod (z + 2 ^ 31) (2 ^ 32)). lia.
Qed.

Lemma wrap32_id z : int32 z -> Py.wrap32 z = z.
Proof.
  unfold int32, Py.wrap32. intros H.
  rewrite Z.mod_small; lia.
Qed.

Lemma length_diff a : length (Py.diff a) = Nat.pred (length a).
Proof.
  induction a as [|x [|y a] IH]; simpl in *; [done | done | by rewrite IH].
Qed.

Lemma sum_diff_congr x a :
  exists k, sumZ (Py.diff (x :: a)) = default x (last a) - x + k * 2 ^ 32.
Proof.
  revert x. induction a as [|y a IH]; intros x.
  - exists 0. simpl. lia.
  - destruct (IH y) as [k Hk]. destruct (wrap32_congr (y - x)) as [k' Hk'].
    exists (k + k').
    assert (sumZ (Py.diff (x :: y :: a))
            = Py.wrap32 (y - x) + sumZ (Py.diff (y :: a))) as -> by done.
    rewrite Hk, Hk'.
    assert (default x (last (y :: a)) = default y (last a)) as ->.
    { destruct a as [|z a]; [done|]. change (last (y :: z :: a)) with (last (z :: a)).
      destruct (last (z :: a)) eqn:E; [done|].
      apply last_None in E. discriminate. }
    lia.
Qed.

(** When the differences are non-negative and add up to less than [2^31],
    an int32 map that starts at 0 ends at their sum. *)
Lemma last_of_diff_sum a n :
  Forall int32 a ->
  a !! O = Some 0 ->
  (2 <= length a)%nat ->
  sumZ (Py.diff a) = n ->
  0 <= n < 2 ^ 31 ->
  last a = Some n.
Proof.
  intros Hint H0 Hlen Hsum Hn.
  destruct a as [|x [|y a]]; simpl in Hlen; try lia.
  injection H0 as ->.
  destruct (sum_diff_congr 0 (y :: a)) as [k Hk].
  destruct (last (y :: a)) as [z|] eqn:E;
    [|apply last_None in E; discriminate].
  assert (int32 z) as Hz.
  { rewrite Forall_forall in Hint. apply Hint. right.
    rewrite last_lookup in E. by eapply list_elem_of_lookup_2. }
  rewrite Hsum in Hk. simpl default in Hk. unfold int32 in Hz.
  change (last (0 :: y :: a)) with (last (y :: a)). rewrite E. f_equal.
  change (2 ^ 32) with 4294967296 in *. change (2 ^ 31) with 2147483648 in *.
  lia.
Qed.

(** ** What an accepted chunk satisfies *)

Lemma encode_chunk_Ok c v :
  encode_chunk c = Ok v ->
  (length (Chunk.sequence c) + 1 = length (Chunk.seq_to_sig_map c))%nat ->
  length (Chunk.sequence c) <> O
  /\ length v = (4 * Chunk.kmer_len c)%nat
  /\ Forall (fun d => 0 <= d) (Py.diff (Chunk.seq_to_sig_map c))
  /\ Forall (fun row => Z.of_nat (length row)
                        = sumZ (Py.diff (Chunk.seq_to_sig_map c))) v.
Proof.
  unfold encode. intros H Hlen.
  apply bind_Ok in H as (e & He & H).
  apply enc_kmers_Ok in He as (Hn & H4 & Hrows).
  apply np_repeat_axis1_Ok in H as (Hpos & Hv & Hcols).
  - split; [done|]. split; [lia|]. done.
  - rewrite length_diff. eapply Forall_impl; [exact Hrows|].
    intros row Hrow. simpl in Hrow. lia.
  - intros ->. simpl in H4. unfold Chunk.kmer_len in H4. lia.
Qed.

Lemma setitem_Ok {A} (l : list A) i x l' :
  Py.setitem l i x = Ok l' ->
  exists k, Py.norm_index (length l) i = Some k /\ l' = <[k := x]> l.
Proof.
  unfold Py.setitem. destruct (Py.norm_index _ _) as [k|]; [|discriminate].
  intros [= <-]. eauto.
Qed.

Lemma extract_chunk_from_read_Ok read kc ss se lab sqs sqe sfp rid rsp c :
  Chunk.extract_chunk_from_read read kc ss se lab sqs sqe sfp rid rsp = Ok c ->
  Z.of_nat (length (Chunk.before_context_seq c)) = kc.1
  /\ Z.of_nat (length (Chunk.after_context_seq c)) = kc.2
  /\ Chunk._base_sig_lens c = None
  /\ Chunk._seq_nn_input c = None
  /\ Chunk.signal c = Py.slice (RemoraRead.sig read) ss se
  /\ Forall int32 (Chunk.seq_to_sig_map c)
  /\ ((2 <= length (Chunk.seq_to_sig_map c))%nat ->
      Chunk.seq_to_sig_map c !! O = Some 0).
Proof.
  unfold Chunk.extract_chunk_from_read.
  destruct (match sqs with Some _ => _ | None => _ end) as [s0 e0].
  intros H. apply bind_Ok in H as (m1 & Hm1 & H).
  apply bind_Ok in H as (m2 & Hm2 & H).
  destruct kc as [kb ka].
  destruct (_ || _) eqn:Hctx; [discriminate|]. injection H as <-. simpl.
  apply orb_false_iff in Hctx as [Hb Ha].
  split; [lia|]. split; [lia|]. do 3 (split; [done|]).
  split.
  - apply Forall_fmap, Forall_forall. intros x _. apply wrap32_int32.
  - rewrite !length_fmap. intros Hlen.
    apply setitem_Ok in Hm1 as (k1 & Hk1 & ->).
    apply setitem_Ok in Hm2 as (k2 & Hk2 & ->).
    rewrite !length_insert in *.
    unfold Py.norm_index in Hk1, Hk2.
    repeat case_match; simplify_eq; try lia.
    rewrite !list_lookup_fmap, list_lookup_insert_ne by lia.
    rewrite list_lookup_insert_eq by lia. simpl. by rewrite Z.sub_diag.
Qed.

Lemma mask_focus_base_Ok c c' :
  Chunk.mask_focus_base c = Ok c' ->
  Chunk.signal c' = Chunk.signal c
  /\ Chunk.seq_to_sig_map c' = Chunk.seq_to_sig_map c
  /\ Chunk.before_context_seq c' = Chunk.before_context_seq c
  /\ Chunk.after_context_seq c' = Chunk.after_context_seq c
  /\ Chunk._base_sig_lens c' = Chunk._base_sig_lens c
  /\ (Chunk._seq_nn_input c = None -> Chunk._seq_nn_input c' = None).
Proof.
  unfold Chunk.mask_focus_base. intros H.
  apply bind_Ok in H as (b & _ & H).
  destruct (Ascii.eqb b "N"); injection H as <-; by simpl.
Qed.

Lemma encode_chunk_same_data c c' :
  same_data c c' -> encode_chunk c' = encode_chunk c.
Proof.
  intros (_ & Hs & Hm & Hb & Ha & _).
  unfold encode_chunk, Chunk.enc_kmers, Chunk.enc_block, Chunk.kmer_len,
    Chunk.seq_w_context.
  by rewrite Hs, Hm, Hb, Ha.
Qed.

Lemma check_Ok c c' :
  Chunk.check c = Ok c' ->
  Chunk._base_sig_lens c = None ->
  Chunk._seq_nn_input c = None ->
  same_data c c'
  /\ (0 < length (Chunk.signal c))%nat
  /\ (length (Chunk.sequence c) + 1 = length (Chunk.seq_to_sig_map c))%nat
  /\ Chunk._base_sig_lens c' = Some (Py.diff (Chunk.seq_to_sig_map c))
  /\ exists v,
       Chunk._seq_nn_input c' = Some v
       /\ encode_chunk c = Ok v
       /\ shape1 v = length (Chunk.signal c).
Proof.
  unfold Chunk.check. intros H Hl Hv.
  destruct (_ <=? _)%nat eqn:Hsig; [discriminate|].
  apply bind_Ok in H as ([v c1] & Hnn & H). simpl in H.
  unfold Chunk.seq_nn_input in Hnn. rewrite Hv in Hnn.
  apply bind_Ok in Hnn as (e & He & Hnn).
  unfold Chunk.base_sig_lens in Hnn. rewrite Hl in Hnn.
  apply bind_Ok in Hnn as (v' & Hrep & [= -> <-]). simpl in H.
  destruct (negb (shape1 v =? _)%nat) eqn:Hshape; [discriminate|].
  destruct (negb (_ =? _)) eqn:Hmap; [discriminate|]. injection H as <-.
  simpl. split; [by repeat split|]. split; [lia|]. split; [lia|].
  split; [done|]. exists v. split; [done|]. split; [|lia].
  unfold encode_chunk. by rewrite He.
Qed.

Lemma try_chunk_Ok kc base_pred read ss se lab sqs sqe sfp m c :
  try_chunk kc base_pred read ss se lab sqs sqe sfp m = Ok c ->
  accepted kc c
  /\ (length (Chunk.signal c) <= length (RemoraRead.sig read))%nat.
Proof.
  unfold try_chunk. intros H.
  apply bind_Ok in H as (c0 & Hex & H). apply bind_Ok in H as (c1 & Hmask & H).
  apply extract_chunk_from_read_Ok in Hex
    as (Hb & Ha & Hl0 & Hv0 & Hsig & Hint & Hhd).
  assert (Chunk.signal c1 = Chunk.signal c0
          /\ Chunk.seq_to_sig_map c1 = Chunk.seq_to_sig_map c0
          /\ Chunk.before_context_seq c1 = Chunk.before_context_seq c0
          /\ Chunk.after_context_seq c1 = Chunk.after_context_seq c0
          /\ Chunk._base_sig_lens c1 = None
          /\ Chunk._seq_nn_input c1 = None)
    as (Es & Em & Eb & Ea & Hl1 & Hv1).
  { destruct base_pred.
    - apply mask_focus_base_Ok in Hmask as (? & ? & ? & ? & Hl & Hv).
      rewrite Hl. auto 10.
    - injection Hmask as <-. auto 10. }
  apply check_Ok in H as (Hsame & Hpos & Hlen & Hlens & v & Hc & Henc & Hshape);
    [|done|done].
  pose proof Hsame as (Fs & Fq & Fm & Fb & Fa & _).
  pose proof (encode_chunk_Ok _ _ Henc Hlen) as (Hn & H4 & Hdiff & Hrows).
  assert (sumZ (Py.diff (Chunk.seq_to_sig_map c1))
          = Z.of_nat (length (Chunk.signal c1))) as Hsum.
  { destruct v as [|row v]; [simpl in H4; unfold Chunk.kmer_len in H4; lia|].
    apply Forall_cons in Hrows as [Hrow _]. simpl in Hshape. lia. }
  split.
  - unfold accepted. rewrite Fs, Fq, Fm, Fb, Fa, Eb, Ea.
    split; [done|]. split; [done|]. split; [lia|].
    split; [rewrite Em; apply Hhd; rewrite <- Em; lia|].
    split; [done|]. split; [by rewrite Em|]. split; [done|]. split; [done|].
    split.
    + exists v. split; [done|].
      split; [by rewrite (encode_chunk_same_data c1 c)|].
      split; [unfold Chunk.kmer_len in *; by rewrite Fb, Fa|].
      rewrite Fs. eapply Forall_impl; [exact Hrows|]. intros row Hrow.
      simpl in Hrow. lia.
    + split.
      * intros l Hl. rewrite Hlens in Hl. injection Hl as <-. by rewrite Fm.
      * intros v' Hv'. rewrite Hc in Hv'. injection Hv' as <-.
        by rewrite (encode_chunk_same_data c1 c).
  - rewrite Fs, Es, Hsig. apply slice_length_le.
Qed.

Lemma accepted_valid kc c :
  accepted kc c ->
  Z.of_nat (length (Chunk.signal c)) < 2 ^ 31 ->
  chunk_valid kc.1 kc.2 c.
Proof.
  intros (Hb & Ha & Hlen & Hhd & Hpos & Hint & Hdiff & Hsum & _) Hbound.
  unfold chunk_valid. do 2 (split; [done|]). split; [|by split].
  destruct (decide (2 <= length (Chunk.seq_to_sig_map c))%nat) as [H2|H2].
  - eapply last_of_diff_sum; eauto. lia.
  - destruct (Chunk.seq_to_sig_map c) as [|x [|y a]]; simpl in *; lia.
Qed.

Lemma load_chunks_run_Forall (R : RemoraRead.t -> Prop) (Q : Chunk.t -> Prop)
    num_chunks motif label_conv chunk_context kc focus_offset fixed base_pred
    full reads chunks hist :
  (forall read c,
     R read -> accepted kc c ->
     (length (Chunk.signal c) <= length (RemoraRead.sig read))%nat -> Q c) ->
  Forall R reads ->
  load_chunks_run num_chunks motif label_conv chunk_context kc focus_offset
    fixed base_pred full reads = Ok (chunks, hist) ->
  Forall Q chunks.
Proof.
  intros HQ HR H.
  eapply (load_chunks_run_invariant _ _ _ _ _ _ _ _ _ R
            (fun st => Forall Q st.1)) in H; try done.
  - intros read [cs h] m fl [cs' h'] Hread HP Hs. simpl in *.
    unfold pos_step in Hs.
    apply bind_Ok in Hs as (sfp & _ & Hs). apply bind_Ok in Hs as (w & _ & Hs).
    destruct w as [reason|[[[ss se] sqs] sqe]]; [by injection Hs as _ <- _|].
    apply bind_Ok in Hs as (lab & _ & Hs).
    destruct (try_chunk _ _ _ _ _ _ _ _ _ _) as [c|e] eqn:Htry;
      [|by injection Hs as _ <- _].
    injection Hs as _ <- _. apply Forall_app. split; [done|].
    apply Forall_singleton. apply try_chunk_Ok in Htry as [Hacc Hle]. eauto.
Qed.

Lemma load_chunks_Ok_run reads num_chunks motif label_conv chunk_context kc
    focus_offset fixed base_pred full chunks :
  load_chunks reads num_chunks motif label_conv chunk_context kc focus_offset
    fixed base_pred full = Ok chunks ->
  exists hist,
    load_chunks_run num_chunks motif label_conv chunk_context kc focus_offset
      fixed base_pred full reads = Ok (chunks, hist).
Proof.
  unfold load_chunks. intros H. apply bind_Ok in H as ([cs h] & Hrun & H).
  simpl in H. destruct (_ =? _)%nat; [discriminate|]. injection H as <-. eauto.
Qed.

(** ** The chunk-validity invariant *)

(** C3: every chunk returned by [load_chunks] satisfies the chunk-validity
    invariant: [len(sequence) == len(seq_to_sig_map) - 1],
    [seq_to_sig_map[0] == 0], [seq_to_sig_map[-1] == len(signal)] and the
    two context strings have exactly the configured lengths; a candidate
    violating a conjunct is therefore not among the returned chunks.  The
    reads have fewer than [2^31] samples, the range in which the int32 map
    of a chunk holds signal indices. *)
Theorem load_chunks_chunks_valid reads num_chunks motif label_conv
    chunk_context kmer_context_bases focus_offset fixed base_pred full chunks :
  Forall (fun r => Z.of_nat (length (RemoraRead.sig r)) < 2 ^ 31) reads ->
  load_chunks reads num_chunks motif label_conv chunk_context
    kmer_context_bases focus_offset fixed base_pred full = Ok chunks ->
  Forall (chunk_valid kmer_context_bases.1 kmer_context_bases.2) chunks.
Proof.
  intros Hreads H. apply load_chunks_Ok_run in H as [hist H].
  eapply load_chunks_run_Forall; [|exact Hreads|exact H].
  intros read c Hread Hacc Hle. simpl in Hread.
  apply accepted_valid; [done | lia].
Qed.

(** C3 at the example read. *)
Lemma load_chunks_chunks_valid_witness :
  exists chunks,
    load_chunks [example_read] None motif_CG [] (5, 5) (1, 1) None
      false false true = Ok chunks
    /\ Forall (chunk_valid 1 1) chunks.
Proof.
  eexists. split; [vm_compute; reflexivity|].
  apply (load_chunks_chunks_valid [example_read] None motif_CG [] (5, 5)
           (1, 1) None false false true).
  - repeat constructor.
  - vm_compute. reflexivity.
Defined.

(** ** Building a dataset from accepted chunks *)

Lemma np_stack_Ok {A S} `{EqDecision S} (shape : A -> S) (arrays : list A) s :
  arrays <> [] ->
  Forall (fun a => shape a = s) arrays ->
  np_stack shape arrays = Ok arrays.
Proof.
  intros Hne Hall. unfold np_stack. destruct arrays as [|a rest]; [done|].
  apply Forall_cons in Hall as [Ha Hrest].
  assert (forallb (fun b => bool_decide (shape b = shape a)) rest = true) as ->;
    [|done].
  apply forallb_forall. intros b Hb. apply bool_decide_eq_true.
  rewrite Forall_forall in Hrest. rewrite Ha. apply Hrest.
  by apply list_elem_of_In.
Qed.

Lemma seq_nn_inputs_cached chunks :
  Forall encoded chunks ->
  exists vs,
    seq_nn_inputs chunks = Ok vs
    /\ Forall2 (fun c v => Chunk._seq_nn_input c = Some v
                           /\ tensor_shape v
                              = ((4 * Chunk.kmer_len c)%nat,
                                 length (Chunk.signal c))) chunks vs.
Proof.
  induction 1 as [|c chunks (v & Hc & _ & H4 & Hrows) _ (vs & Hvs & IH)].
  - exists []. split; [done | constructor].
  - exists (v :: vs). split.
    + assert (Chunk.seq_nn_input c = Ok (v, c)) as Hnn
        by (unfold Chunk.seq_nn_input; by rewrite Hc).
      unfold seq_nn_inputs in *. simpl. rewrite Hnn. simpl. by rewrite Hvs.
    + constructor; [|done]. split; [done|]. unfold tensor_shape. f_equal; [done|].
      destruct v as [|row v]; [simpl in H4; unfold Chunk.kmer_len in H4; lia|].
      by apply Forall_cons in Hrows as [? _].
Qed.

Lemma init_accepted kc chunks batch_size shuffle drop_last rrd n :
  Forall (accepted kc) chunks ->
  chunks <> [] ->
  batch_size <> 0 ->
  Forall (fun c => length (Chunk.signal c) = n) chunks ->
  exists ds,
    RemoraDataset.init chunks batch_size shuffle drop_last rrd = Ok ds
    /\ RemoraDataset.batch_size ds = batch_size
    /\ RemoraDataset.shuffle ds = shuffle
    /\ RemoraDataset.drop_last ds = drop_last
    /\ RemoraDataset.return_read_data ds = rrd
    /\ RemoraDataset.dataset_len ds = length chunks
    /\ RemoraDataset.sig_tensor ds = Chunk.signal <$> chunks
    /\ Forall2 (fun c v => Chunk._seq_nn_input c = Some v) chunks
         (RemoraDataset.seq_tensor ds)
    /\ RemoraDataset.labels ds = Chunk.label <$> chunks
    /\ RemoraDataset.read_data ds
       = (if rrd
          then Some ((fun c => (Chunk.read_id c, Chunk.read_seq_pos c)) <$> chunks)
          else None).
Proof.
  intros Hacc Hne Hbs Hlen.
  destruct (seq_nn_inputs_cached chunks) as (vs & Hvs & Hshape).
  { eapply Forall_impl; [exact Hacc|]. by intros c (_ & _ & _ & _ & _ & _ & _ & _ & ? & _). }
  unfold RemoraDataset.init.
  destruct (batch_size =? 0) eqn:E; [lia|].
  rewrite (np_stack_Ok _ _ n).
  - simpl. rewrite Hvs. simpl.
    destruct chunks as [|c0 chunks]; [done|].
    rewrite (np_stack_Ok _ _ ((4 * Chunk.kmer_len c0)%nat, n)).
    + simpl. eexists. split; [reflexivity|]. simpl.
      repeat (split; [done|]). split; [|done].
      eapply Forall2_impl; [exact Hshape|]. by intros c v [? _].
    + apply Forall2_length in Hshape. destruct vs; [done|done].
    + apply (Forall2_Forall_r _ _ _ _ Hshape).
      rewrite Forall_forall in Hacc, Hlen. apply Forall_forall.
      intros c Hc v [_ ->]. f_equal; [|by apply Hlen].
      destruct (Hacc c Hc) as (Hb & Ha & _).
      destruct (Hacc c0 (list_elem_of_here _ _)) as (Hb0 & Ha0 & _).
      unfold Chunk.kmer_len. lia.
  - destruct chunks; [done | by simpl].
  - by apply Forall_fmap.
Qed.

Lemma load_chunks_accepted reads num_chunks motif label_conv chunk_context kc
    focus_offset fixed base_pred full chunks :
  load_chunks reads num_chunks motif label_conv chunk_context kc focus_offset
    fixed base_pred full = Ok chunks ->
  Forall (accepted kc) chunks /\ chunks <> [].
Proof.
  intros H. split.
  - apply load_chunks_Ok_run in H as [hist H].
    eapply (load_chunks_run_Forall (fun _ => True)); [|by apply Forall_forall|exact H].
    auto.
  - unfold load_chunks in H. apply bind_Ok in H as ([cs h] & _ & H). simpl in H.
    destruct cs; [discriminate|]. by injection H as <-.
Qed.

(** ** No validation split *)

(** [val_prop <= 0.0] excludes [val_prop > 0]. *)
Lemma float_le_zero_not_gt x :
  PyFloat.le x PyFloat.zero = true -> PyFloat.gt x PyFloat.zero = false.
Proof. by destruct x as [s|[]| |[] m e]. Qed.

(** C10: with [val_prop <= 0.0], a non-zero batch size and extracted chunks
    of one signal length (what stacking them into a tensor needs),
    [load_datasets] returns [None] for the validation dataset and for the
    train-as-validation dataset, and a training dataset with shuffling and
    drop-last disabled whose buffers hold every extracted chunk, in
    extraction order. *)
Theorem load_datasets_no_validation reads chunk_context batch_size num_chunks
    fixed focus_offset full label_conv motif base_pred val_prop
    kmer_context_bases return_read_data shuf_idx chunks n :
  PyFloat.le val_prop PyFloat.zero = true ->
  load_chunks reads num_chunks motif label_conv chunk_context
    kmer_context_bases focus_offset fixed base_pred full = Ok chunks ->
  batch_size <> 0 ->
  Forall (fun c => length (Chunk.signal c) = n) chunks ->
  exists dl_trn,
    load_datasets reads chunk_context batch_size num_chunks fixed focus_offset
      full label_conv motif base_pred val_prop kmer_context_bases
      return_read_data shuf_idx
    = Ok (dl_trn, None, None, chunks)
    /\ RemoraDataset.shuffle dl_trn = false
    /\ RemoraDataset.drop_last dl_trn = false
    /\ RemoraDataset.dataset_len dl_trn = length chunks
    /\ RemoraDataset.sig_tensor dl_trn = Chunk.signal <$> chunks
    /\ Forall2 (fun c v => Chunk._seq_nn_input c = Some v) chunks
         (RemoraDataset.seq_tensor dl_trn)
    /\ RemoraDataset.labels dl_trn = Chunk.label <$> chunks
    /\ RemoraDataset.read_data dl_trn
       = (if return_read_data
          then Some ((fun c => (Chunk.read_id c, Chunk.read_seq_pos c))
                       <$> chunks)
          else None).
Proof.
  intros Hval Hchunks Hbs Hlen.
  pose proof (load_chunks_accepted _ _ _ _ _ _ _ _ _ _ _ Hchunks) as [Hacc Hne].
  destruct (init_accepted kmer_context_bases chunks batch_size false false
              return_read_data n Hacc Hne Hbs Hlen)
    as (ds & Hds & _ & Hsh & Hdl & _ & Hn & Hsig & Hseq & Hlab & Hrd).
  exists ds. unfold load_datasets. rewrite Hchunks. simpl.
  rewrite Hval, (float_le_zero_not_gt _ Hval). simpl. rewrite Hds. simpl.
  auto 10.
Qed.

(** C10 at the example read, with [val_prop = 0.0]. *)
Lemma load_datasets_no_validation_witness :
  exists dl_trn,
    load_datasets [example_read] (5, 5) DEFAULT_BATCH_SIZE None false None true [] motif_CG
      false PyFloat.zero (1, 1) true []
    = Ok (dl_trn, None, None,
          match load_chunks [example_read] None motif_CG [] (5, 5) (1, 1) None
                  false false true with
          | Ok chunks => chunks
          | Raise _ => []
          end)
    /\ RemoraDataset.shuffle dl_trn = false
    /\ RemoraDataset.drop_last dl_trn = false
    /\ RemoraDataset.dataset_len dl_trn = 2%nat.
Proof.
  destruct (load_datasets_no_validation [example_read] (5, 5) DEFAULT_BATCH_SIZE None false
              None true [] motif_CG false PyFloat.zero (1, 1) true []
              (match load_chunks [example_read] None motif_CG [] (5, 5) (1, 1)
                       None false false true with
               | Ok chunks => chunks
               | Raise _ => []
               end) 10%nat)
    as (dl & H & Hs & Hd & Hn & _).
  - reflexivity.
  - vm_compute. reflexivity.
  - discriminate.
  - vm_compute. repeat constructor.
  - exists dl. repeat split; done.
Defined.

(** ** The encoder on well-formed chunks *)

Lemma BASE_ENCODINGS_total b : is_base b -> BASE_ENCODINGS b = Ok (base_bits b).
Proof.
  unfold base_bits. by intros [-> | [-> | [-> | [-> | ->]]]].
Qed.

Lemma mapM_BASE_ENCODINGS s :
  Forall is_base s -> mapM BASE_ENCODINGS s = Ok (base_bits <$> s).
Proof.
  intros H. apply mapM_Ok_intro. induction H; constructor; [|done].
  by apply BASE_ENCODINGS_total.
Qed.

Lemma Forall_slice {A} (P : A -> Prop) (l : list A) a b :
  Forall P l -> Forall P (Py.slice l a b).
Proof. intros H. unfold Py.slice. by apply Forall_take, Forall_drop. Qed.

Lemma length_window_at c o :
  0 <= o < Z.of_nat (Chunk.kmer_len c) ->
  length (window_at c o) = length (Chunk.sequence c).
Proof.
  intros Ho. unfold window_at. rewrite slice_length; [lia | lia |].
  unfold Chunk.seq_w_context, Chunk.kmer_len in *. rewrite !length_app. lia.
Qed.

Lemma enc_block_total c o :
  Forall is_base (Chunk.seq_w_context c) ->
  length (Chunk.sequence c) <> O ->
  0 <= o < Z.of_nat (Chunk.kmer_len c) ->
  Chunk.enc_block c o = Ok (block_of (window_at c o)).
Proof.
  intros Hbase Hn Ho. unfold Chunk.enc_block. fold (window_at c o).
  rewrite mapM_BASE_ENCODINGS by (by apply Forall_slice). simpl.
  pose proof (length_window_at c o Ho) as Hlen.
  destruct (window_at c o) as [|b s] eqn:E; [simpl in Hlen; lia|].
  unfold stack_axis1, block_of. rewrite fmap_cons. f_equal.
  apply list_fmap_ext. intros _ ch _. rewrite !fmap_cons. f_equal.
  by rewrite <- list_fmap_compose.
Qed.

Lemma enc_kmers_total_eq c :
  Forall is_base (Chunk.seq_w_context c) ->
  length (Chunk.sequence c) <> O ->
  Chunk.enc_kmers c = Ok (enc_kmers_total c).
Proof.
  intros Hbase Hn. unfold Chunk.enc_kmers, enc_kmers_total.
  rewrite (mapM_Ok_intro _ _
             ((fun o => block_of (window_at c o))
                <$> seqZ 0 (Z.of_nat (Chunk.kmer_len c)))); [done|].
  apply Forall2_fmap_r, Forall_Forall2_diag, Forall_forall.
  intros o Ho. apply elem_of_seqZ in Ho. apply enc_block_total; [done|done|lia].
Qed.

Lemma np_repeat_axis1_total e reps :
  Forall (fun row => length row = length reps) e ->
  e <> [] ->
  Forall (fun d => 0 <= d) reps ->
  np_repeat_axis1 e reps = Ok (expand reps <$> e).
Proof.
  intros Hrows Hne Hpos. unfold np_repeat_axis1.
  assert (shape1 e = length reps) as Hshape.
  { destruct e as [|r e]; [done|]. by apply Forall_cons in Hrows as [? _]. }
  assert (existsb (fun d => d <? 0) reps = false) as Hex.
  { clear Hrows Hshape. induction Hpos as [|d reps Hd _ IH]; simpl; [done|].
    rewrite IH. lia. }
  destruct reps as [|d [|d' reps]].
  - rewrite Hshape. by simpl.
  - rewrite Forall_singleton in Hpos. destruct (d <? 0) eqn:Hd; [exfalso; lia|].
    f_equal. apply Forall_fmap_ext. eapply Forall_impl; [exact Hrows|].
    by intros [|x [|y row]] Hrow.
  - rewrite Hshape, Nat.eqb_refl. simpl negb. cbv iota. by rewrite Hex.
Qed.

Lemma non_decreasing_bounds x a L :
  non_decreasing (x :: a) ->
  last (x :: a) = Some L ->
  Forall (fun y => x <= y <= L) (x :: a).
Proof.
  revert x. induction a as [|y a IH]; intros x Hmono Hlast.
  - injection Hlast as <-. apply Forall_singleton. lia.
  - destruct Hmono as [Hxy Hmono].
    change (last (x :: y :: a)) with (last (y :: a)) in Hlast.
    specialize (IH y Hmono Hlast).
    pose proof IH as Hy. apply Forall_cons in Hy as [Hy _].
    constructor; [lia|].
    eapply Forall_impl; [exact IH|]. simpl. lia.
Qed.

Lemma diff_non_negative a :
  non_decreasing a ->
  Forall (fun x => 0 <= x < 2 ^ 31) a ->
  Forall (fun d => 0 <= d) (Py.diff a).
Proof.
  induction a as [|x [|y a] IH]; intros Hmono Hb; [constructor | constructor |].
  destruct Hmono as [Hxy Hmono].
  pose proof Hb as Hb'. apply Forall_cons in Hb' as [Hx Hb'].
  pose proof Hb' as Hb2. apply Forall_cons in Hb2 as [Hy _].
  change (Py.diff (x :: y :: a)) with (Py.wrap32 (y - x) :: Py.diff (y :: a)).
  constructor; [|by apply IH].
  rewrite wrap32_id; [lia|]. unfold int32. lia.
Qed.

(** The differences up to base [k] add up to the map entry of [k]. *)
Lemma sum_take_diff a k x :
  non_decreasing a ->
  Forall (fun x => 0 <= x < 2 ^ 31) a ->
  a !! k = Some x ->
  sumZ (take k (Py.diff a)) = x - default 0 (head a).
Proof.
  revert k. induction a as [|y [|z a] IH]; intros k Hmono Hb Hk.
  - done.
  - destruct k; [|done]. injection Hk as <-. simpl. lia.
  - destruct k as [|k]; [injection Hk as <-; simpl; lia|].
    destruct Hmono as [Hyz Hmono].
    pose proof Hb as Hb'. apply Forall_cons in Hb' as [Hy Hb'].
    pose proof Hb' as Hb2. apply Forall_cons in Hb2 as [Hz _].
    change (Py.diff (y :: z :: a)) with (Py.wrap32 (z - y) :: Py.diff (z :: a)).
    simpl in Hk. specialize (IH k Hmono Hb' Hk).
    rewrite firstn_cons.
    assert (forall d l, sumZ (d :: l) = d + sumZ l) as -> by done.
    rewrite IH, wrap32_id; [simpl; lia|]. unfold int32. lia.
Qed.

Lemma take_diff_all a : take (Nat.pred (length a)) (Py.diff a) = Py.diff a.
Proof. apply take_ge. by rewrite length_diff. Qed.

(** What the data model and the validity invariant give about the map. *)
Lemma wf_valid_map kb ka c :
  chunk_wf c -> chunk_valid kb ka c ->
  (length (Chunk.sequence c) + 1 = length (Chunk.seq_to_sig_map c))%nat
  /\ length (Chunk.sequence c) <> O
  /\ Forall (fun x => 0 <= x < 2 ^ 31) (Chunk.seq_to_sig_map c)
  /\ Forall (fun d => 0 <= d) (Py.diff (Chunk.seq_to_sig_map c))
  /\ sumZ (Py.diff (Chunk.seq_to_sig_map c))
     = Z.of_nat (length (Chunk.signal c)).
Proof.
  intros (Hbase & Hmono & Hpos & Hbound & Hcache) (Hlen & Hhd & Hlast & _).
  destruct (Chunk.seq_to_sig_map c) as [|x a] eqn:E; [done|].
  injection Hhd as ->.
  pose proof (non_decreasing_bounds _ _ _ Hmono Hlast) as Hb.
  assert (Forall (fun x => 0 <= x < 2 ^ 31) (0 :: a)) as Hb'.
  { eapply Forall_impl; [exact Hb|]. simpl. lia. }
  split; [simpl in *; lia|].
  split.
  { destruct a as [|y a]; [|simpl in *; lia].
    injection Hlast as Hl. lia. }
  split; [done|]. split; [by apply diff_non_negative|].
  rewrite <- take_diff_all.
  rewrite (sum_take_diff _ _ (Z.of_nat (length (Chunk.signal c)))); try done.
  - simpl. lia.
  - by rewrite <- last_lookup.
Qed.

Lemma encode_chunk_total kb ka c :
  chunk_wf c -> chunk_valid kb ka c ->
  encode_chunk c = Ok (encode_total c).
Proof.
  intros Hwf Hvalid.
  pose proof (wf_valid_map _ _ _ Hwf Hvalid) as (Hlen & Hn & _ & Hdiff & _).
  destruct Hwf as (Hbase & _).
  unfold encode_chunk, encode_total.
  pose proof (enc_kmers_total_eq c Hbase Hn) as He. rewrite He. simpl.
  apply enc_kmers_Ok in He as (_ & H4 & Hrows).
  apply np_repeat_axis1_total; [|intros E; rewrite E in H4|done].
  - rewrite length_diff. eapply Forall_impl; [exact Hrows|]. simpl. lia.
  - simpl in H4. unfold Chunk.kmer_len in H4. lia.
Qed.

Lemma seq_nn_input_coherent c v :
  cache_coherent c ->
  encode_chunk c = Ok v ->
  exists c',
    Chunk.seq_nn_input c = Ok (v, c')
    /\ same_data c c'
    /\ Chunk._seq_nn_input c' = Some v.
Proof.
  intros [Hl Hv] Henc. unfold Chunk.seq_nn_input.
  destruct (Chunk._seq_nn_input c) as [v'|] eqn:Ev.
  - specialize (Hv v' eq_refl). rewrite Henc in Hv. injection Hv as <-.
    exists c. split; [done|]. split; [by repeat split | done].
  - unfold encode_chunk in Henc. apply bind_Ok in Henc as (e & He & Hrep).
    rewrite He. simpl. unfold Chunk.base_sig_lens.
    destruct (Chunk._base_sig_lens c) as [l|] eqn:El.
    + rewrite (Hl l eq_refl), Hrep. simpl. eexists. split; [done|].
      split; [by repeat split | done].
    + rewrite Hrep. simpl. eexists. split; [done|].
      split; [by repeat split | done].
Qed.

(** ** Shape of the feature tensor *)

(** C4: for every chunk of the data model (bases over A, C, G, T, N, a
    non-decreasing map, a non-empty signal of fewer than [2^31] samples,
    coherent caches) that satisfies the chunk-validity invariant,
    [seq_nn_input] returns a tensor with exactly
    [4 * (len(before_context_seq) + len(after_context_seq) + 1)] rows and
    exactly [len(signal)] columns. *)
Theorem seq_nn_input_shape kb ka c :
  chunk_wf c ->
  chunk_valid kb ka c ->
  exists v c',
    Chunk.seq_nn_input c = Ok (v, c')
    /\ same_data c c'
    /\ length v
       = (4 * (length (Chunk.before_context_seq c)
               + length (Chunk.after_context_seq c) + 1))%nat
    /\ Forall (fun row => length row = length (Chunk.signal c)) v.
Proof.
  intros Hwf Hvalid.
  pose proof (encode_chunk_total _ _ _ Hwf Hvalid) as Henc.
  pose proof (wf_valid_map _ _ _ Hwf Hvalid) as (Hlen & _ & _ & _ & Hsum).
  destruct Hwf as (_ & _ & _ & _ & Hcache).
  destruct (seq_nn_input_coherent _ _ Hcache Henc) as (c' & Hnn & Hsame & _).
  exists (encode_total c), c'. split; [done|]. split; [done|].
  apply encode_chunk_Ok in Henc as (_ & H4 & _ & Hrows); [|done].
  split; [done|]. eapply Forall_impl; [exact Hrows|]. simpl. lia.
Qed.

(** The example chunk belongs to the data model and is valid. *)
Lemma example_chunk_wf : chunk_wf example_chunk.
Proof.
  unfold chunk_wf. split; [|split; [|split; [|split]]].
  - unfold Chunk.seq_w_context. simpl.
    repeat (apply Forall_cons; split; [unfold is_base; auto 10|]).
    constructor.
  - simpl. lia.
  - simpl. lia.
  - reflexivity.
  - split; intros x H; discriminate.
Defined.

Lemma example_chunk_valid : chunk_valid 1 0 example_chunk.
Proof. by repeat split. Defined.

(** C4 at the example chunk: eight rows, two columns. *)
Lemma seq_nn_input_shape_witness :
  exists v c',
    Chunk.seq_nn_input example_chunk = Ok (v, c')
    /\ same_data example_chunk c'
    /\ length v = 8%nat
    /\ Forall (fun row => length row = 2%nat) v.
Proof.
  exact (seq_nn_input_shape 1 0 example_chunk example_chunk_wf
           example_chunk_valid).
Defined.

(** ** Masking the focus base *)

(** C7 (as stated, refuted): on the chunk with bases AC, one sample per
    base, context G before and focus on base 0, the focus base spans signal
    column 0 only, yet masking it and encoding again changes the entry in
    row 0 of column 1: the block of offset 0 shows, for base 1, the base one
    position before it, which is the focus base. *)
Lemma mask_focus_base_changes_neighbour_column :
  exists c1 v c2 v' c3,
    Chunk.mask_focus_base example_chunk = Ok c1
    /\ Chunk.seq_nn_input example_chunk = Ok (v, c2)
    /\ Chunk.seq_nn_input c1 = Ok (v', c3)
    /\ Chunk.seq_to_sig_map example_chunk !! O = Some 0
    /\ Chunk.seq_to_sig_map example_chunk !! 1%nat = Some 1
    /\ v !! O ≫= (.!! 1%nat) = Some true
    /\ v' !! O ≫= (.!! 1%nat) = Some false.
Proof.
  eexists _, _, _, _, _.
  split; [vm_compute; reflexivity|].
  split; [vm_compute; reflexivity|].
  split; [vm_compute; reflexivity|].
  repeat split.
Qed.

Lemma slice_nonneg {A} (l : list A) (a n : nat) :
  Py.slice l (Z.of_nat a) (Z.of_nat a + Z.of_nat n) = take n (drop a l).
Proof.
  unfold Py.slice, Py.slice_index.
  destruct (Z.of_nat a <? 0) eqn:E1; [lia|].
  destruct (Z.of_nat a + Z.of_nat n <? 0) eqn:E2; [lia|].
  destruct (decide (a <= length l)%nat) as [Ha|Ha].
  - replace (Z.to_nat (Z.of_nat a `min` Z.of_nat (length l))) with a by lia.
    destruct (decide (a + n <= length l)%nat) as [Hn|Hn].
    + f_equal. lia.
    + rewrite !take_ge; [done | rewrite length_drop; lia | rewrite length_drop; lia].
  - rewrite !drop_ge by lia. by rewrite !take_nil.
Qed.

Lemma mask_focus_base_at c f b :
  Chunk.seq_focus_pos c = Z.of_nat f ->
  Chunk.sequence c !! f = Some b ->
  Chunk.mask_focus_base c
  = Ok (if Ascii.eqb b "N" then c else masked c f).
Proof.
  intros Hf Hb. unfold Chunk.mask_focus_base. rewrite Hf.
  rewrite (getitem_nonneg _ _ _ b) by (lia || by rewrite Nat2Z.id).
  simpl. destruct (Ascii.eqb b "N"); [done|].
  unfold masked. do 3 f_equal.
  pose proof (lookup_lt_Some _ _ _ Hb) as Hlt.
  rewrite insert_take_drop by done.
  unfold Py.slice_to, Py.slice_from, Py.slice_index.
  destruct (Z.of_nat f <? 0) eqn:E1; [lia|].
  destruct (Z.of_nat f + 1 <? 0) eqn:E2; [lia|].
  do 2 f_equal; [f_equal; lia|]. f_equal. lia.
Qed.

Lemma masked_wf c f : chunk_wf c -> chunk_wf (masked c f).
Proof.
  intros (Hbase & Hmono & Hpos & Hbound & Hl & Hv).
  unfold chunk_wf, masked, Chunk.seq_w_context in *. simpl.
  split; [|split; [done|split; [done|split; [done|]]]].
  - apply Forall_app in Hbase as [Hb Hbase].
    apply Forall_app in Hbase as [Hs Ha].
    apply Forall_app. split; [done|]. apply Forall_app. split; [|done].
    apply Forall_insert; [done|]. unfold is_base. auto 10.
  - split; simpl; [done | discriminate].
Qed.

Lemma masked_valid kb ka c f : chunk_valid kb ka c -> chunk_valid kb ka (masked c f).
Proof.
  unfold chunk_valid, masked. simpl. by rewrite length_insert.
Qed.

Lemma masked_seq_w_context c f :
  (f < length (Chunk.sequence c))%nat ->
  Chunk.seq_w_context (masked c f)
  = <[(length (Chunk.before_context_seq c) + f)%nat := "N"%char]>
      (Chunk.seq_w_context c).
Proof.
  intros Hf. unfold Chunk.seq_w_context, masked. simpl.
  rewrite insert_app_r_alt by lia. rewrite insert_app_l by lia.
  do 3 f_equal. lia.
Qed.

(** The substring seen at offset [o] changes, if at all, at one index
    between the affected bases. *)
Lemma window_at_masked c f (o : nat) :
  (f < length (Chunk.sequence c))%nat ->
  (o < Chunk.kmer_len c)%nat ->
  agree_outside (affected_bases c f).1 (affected_bases c f).2
    (window_at c (Z.of_nat o)) (window_at (masked c f) (Z.of_nat o)).
Proof.
  intros Hf Ho. unfold agree_outside, affected_bases, window_at. simpl.
  rewrite masked_seq_w_context by done.
  rewrite length_insert, !slice_nonneg.
  set (n := length (Chunk.sequence c)). set (sw := Chunk.seq_w_context c).
  set (g := (length (Chunk.before_context_seq c) + f)%nat).
  unfold Chunk.kmer_len in Ho.
  rewrite drop_insert. destruct (decide (o <= g)%nat) as [Hog|Hog]; [|done].
  rewrite take_insert. destruct (decide (g - o < n)%nat) as [Hin|Hin]; [|done].
  split.
  - rewrite take_insert_ge; [done | lia].
  - rewrite drop_insert_lt; [done | lia].
Qed.

Lemma block_of_agree a b w w' :
  agree_outside a b w w' ->
  Forall2 (agree_outside a b) (block_of w) (block_of w').
Proof.
  intros [Ht Hd]. unfold block_of. apply Forall2_fmap, Forall_Forall2_diag.
  apply Forall_forall. intros ch _. unfold agree_outside.
  by rewrite <- !fmap_take, <- !fmap_drop, Ht, Hd.
Qed.

Lemma join_blocks_agree {A B} (R : A -> A -> Prop) (F F' : B -> list A) os :
  (forall o, o ∈ os -> Forall2 R (F o) (F' o)) ->
  Forall2 R (mjoin (F <$> os)) (mjoin (F' <$> os)).
Proof.
  induction os as [|o os IH]; intros H; simpl; [constructor|].
  apply Forall2_app; [apply H; by left|]. apply IH. intros o' Ho'.
  apply H. by right.
Qed.

Lemma enc_kmers_total_masked c f :
  (f < length (Chunk.sequence c))%nat ->
  Forall2 (agree_outside (affected_bases c f).1 (affected_bases c f).2)
    (enc_kmers_total c) (enc_kmers_total (masked c f)).
Proof.
  intros Hf. unfold enc_kmers_total.
  assert (Chunk.kmer_len (masked c f) = Chunk.kmer_len c) as -> by done.
  apply (join_blocks_agree _ (fun o => block_of (window_at c o))
           (fun o => block_of (window_at (masked c f) o))).
  intros o Ho. apply elem_of_seqZ in Ho. apply block_of_agree.
  replace o with (Z.of_nat (Z.to_nat o)) by lia.
  apply window_at_masked; [done | lia].
Qed.

Lemma expand_nil_l row : expand [] row = [].
Proof. by destruct row. Qed.

Lemma expand_nil_r d : expand d [] = [].
Proof. done. Qed.

Lemma expand_take d row a :
  take (sum_list (Z.to_nat <$> take a d)) (expand d row)
  = expand (take a d) (take a row).
Proof.
  revert d row. induction a as [|a IH]; intros d row.
  - by rewrite !take_0.
  - destruct d as [|y d]; [by rewrite take_nil, !expand_nil_l, take_nil|].
    destruct row as [|x row]; [by rewrite take_nil, !expand_nil_r, take_nil|].
    change (expand (y :: d) (x :: row))
      with (replicate (Z.to_nat y) x ++ expand d row).
    rewrite !firstn_cons, fmap_cons.
    change (expand (y :: take a d) (x :: take a row))
      with (replicate (Z.to_nat y) x ++ expand (take a d) (take a row)).
    rewrite <- IH. simpl sum_list_with.
    rewrite <- (length_replicate (Z.to_nat y) x) at 1.
    apply take_app_add.
Qed.

Lemma expand_drop d row b :
  drop (sum_list (Z.to_nat <$> take b d)) (expand d row)
  = expand (drop b d) (drop b row).
Proof.
  revert d row. induction b as [|b IH]; intros d row.
  - by rewrite take_0, !drop_0.
  - destruct d as [|y d]; [by rewrite drop_nil, !expand_nil_l, drop_nil|].
    destruct row as [|x row]; [by rewrite drop_nil, !expand_nil_r, drop_nil|].
    change (expand (y :: d) (x :: row))
      with (replicate (Z.to_nat y) x ++ expand d row).
    rewrite firstn_cons, fmap_cons, !skipn_cons. rewrite <- IH.
    simpl sum_list_with.
    rewrite <- (length_replicate (Z.to_nat y) x) at 1.
    apply drop_app_add.
Qed.

Lemma expand_agree d a b (row row' : list bool) :
  agree_outside a b row row' ->
  agree_outside (sum_list (Z.to_nat <$> take a d))
    (sum_list (Z.to_nat <$> take b d)) (expand d row) (expand d row').
Proof.
  intros [Ht Hd]. unfold agree_outside.
  by rewrite !expand_take, !expand_drop, Ht, Hd.
Qed.

Lemma sum_list_to_nat l :
  Forall (fun d => 0 <= d) l ->
  Z.of_nat (sum_list (Z.to_nat <$> l)) = sumZ l.
Proof.
  induction 1 as [|d l Hd _ IH]; [done|].
  rewrite fmap_cons. simpl sum_list_with.
  assert (sumZ (d :: l) = d + sumZ l) as -> by done. lia.
Qed.

(** The samples before base [k] are as many as the map entry of [k]. *)
Lemma samples_before kb ka c k x :
  chunk_wf c -> chunk_valid kb ka c ->
  Chunk.seq_to_sig_map c !! k = Some x ->
  0 <= x
  /\ sum_list (Z.to_nat <$> take k (Py.diff (Chunk.seq_to_sig_map c)))
     = Z.to_nat x.
Proof.
  intros Hwf Hvalid Hk.
  pose proof (wf_valid_map _ _ _ Hwf Hvalid) as (_ & _ & Hb & Hdiff & _).
  destruct Hwf as (_ & Hmono & _). destruct Hvalid as (_ & Hhd & _).
  pose proof (sum_take_diff _ _ _ Hmono Hb Hk) as Hsum.
  rewrite head_lookup, Hhd in Hsum. simpl in Hsum.
  rewrite <- sum_list_to_nat in Hsum by (by apply Forall_take).
  split; [|lia].
  rewrite Forall_forall in Hb. apply (Hb x). by eapply list_elem_of_lookup_2.
Qed.

(** C7 (amended): for a chunk of the data model that satisfies the
    validity invariant and whose focus index [f] is inside the sequence:
    if the focus base is already N, [mask_focus_base] returns the chunk
    unchanged, cache included; otherwise it replaces the base, clears the
    cached encoding, and the encoding computed afterwards agrees with the
    one before in every row outside the signal span of the bases within
    k-mer distance of the focus base, that is before column
    [seq_to_sig_map[max(0, f - len(after_context_seq))]] and from column
    [seq_to_sig_map[min(len(sequence), f + len(before_context_seq) + 1)]]
    on. *)
Theorem mask_focus_base_frame kb ka c f :
  chunk_wf c ->
  chunk_valid kb ka c ->
  Chunk.seq_focus_pos c = Z.of_nat f ->
  (f < length (Chunk.sequence c))%nat ->
  (Chunk.sequence c !! f = Some "N"%char -> Chunk.mask_focus_base c = Ok c)
  /\ (Chunk.sequence c !! f <> Some "N"%char ->
      exists v c2 v' c3 lo hi,
        Chunk.mask_focus_base c = Ok (masked c f)
        /\ Chunk.seq_nn_input c = Ok (v, c2)
        /\ Chunk.seq_nn_input (masked c f) = Ok (v', c3)
        /\ Chunk.seq_to_sig_map c !! (affected_bases c f).1 = Some (Z.of_nat lo)
        /\ Chunk.seq_to_sig_map c !! (affected_bases c f).2 = Some (Z.of_nat hi)
        /\ Forall2 (agree_outside lo hi) v v').
Proof.
  intros Hwf Hvalid Hf Hlt.
  destruct (Chunk.sequence c !! f) as [b|] eqn:Hb;
    [|apply lookup_ge_None in Hb; lia].
  pose proof (mask_focus_base_at c f b Hf Hb) as Hmask.
  split.
  - intros [= ->]. by rewrite Hmask.
  - intros Hne.
    assert (Ascii.eqb b "N" = false) as Hbn.
    { apply Ascii.eqb_neq. congruence. }
    rewrite Hbn in Hmask.
    pose proof (masked_wf c f Hwf) as Hwf'.
    pose proof (masked_valid kb ka c f Hvalid) as Hvalid'.
    pose proof (encode_chunk_total _ _ _ Hwf Hvalid) as Henc.
    pose proof (encode_chunk_total _ _ _ Hwf' Hvalid') as Henc'.
    destruct (seq_nn_input_coherent c _ (proj2 (proj2 (proj2 (proj2 Hwf)))) Henc)
      as (c2 & Hnn & _).
    destruct (seq_nn_input_coherent (masked c f) _
                (proj2 (proj2 (proj2 (proj2 Hwf')))) Henc')
      as (c3 & Hnn' & _).
    pose proof (wf_valid_map _ _ _ Hwf Hvalid) as (Hlen & _).
    destruct (lookup_lt_is_Some_2 (Chunk.seq_to_sig_map c) (affected_bases c f).1)
      as [x Hx]; [unfold affected_bases; simpl; lia|].
    destruct (lookup_lt_is_Some_2 (Chunk.seq_to_sig_map c) (affected_bases c f).2)
      as [y Hy]; [unfold affected_bases; simpl; lia|].
    pose proof (samples_before _ _ _ _ _ Hwf Hvalid Hx) as [Hx0 Hsx].
    pose proof (samples_before _ _ _ _ _ Hwf Hvalid Hy) as [Hy0 Hsy].
    exists (encode_total c), c2, (encode_total (masked c f)), c3,
      (Z.to_nat x), (Z.to_nat y).
    split; [done|]. split; [done|]. split; [done|].
    split; [rewrite Hx; f_equal; lia|]. split; [rewrite Hy; f_equal; lia|].
    unfold encode_total.
    assert (Chunk.seq_to_sig_map (masked c f) = Chunk.seq_to_sig_map c) as -> by done.
    apply Forall2_fmap.
    eapply Forall2_impl; [apply (enc_kmers_total_masked c f Hlt)|].
    intros row row' Hrows. rewrite <- Hsx, <- Hsy. by apply expand_agree.
Qed.

(** C7 (amended) at the example chunk: with focus on base 0 and one base
    of context before, the affected bases are 0 and 1. *)
Lemma mask_focus_base_frame_witness :
  (Chunk.sequence example_chunk !! O = Some "N"%char ->
   Chunk.mask_focus_base example_chunk = Ok example_chunk)
  /\ (Chunk.sequence example_chunk !! O <> Some "N"%char ->
      exists v c2 v' c3 lo hi,
        Chunk.mask_focus_base example_chunk = Ok (masked example_chunk O)
        /\ Chunk.seq_nn_input example_chunk = Ok (v, c2)
        /\ Chunk.seq_nn_input (masked example_chunk O) = Ok (v', c3)
        /\ Chunk.seq_to_sig_map example_chunk !! O = Some (Z.of_nat lo)
        /\ Chunk.seq_to_sig_map example_chunk !! 2%nat = Some (Z.of_nat hi)
        /\ Forall2 (agree_outside lo hi) v v').
Proof.
  apply (mask_focus_base_frame 1 0 example_chunk O example_chunk_wf
           example_chunk_valid).
  - reflexivity.
  - simpl. lia.
Defined.

(** ** Shuffling and batch iteration *)

Lemma np_stack_Ok_inv {A S} `{EqDecision S} (shape : A -> S) arrays arrays' :
  np_stack shape arrays = Ok arrays' -> arrays' = arrays.
Proof.
  unfold np_stack. destruct arrays; [discriminate|].
  destruct (forallb _ _); [by intros [= <-] | discriminate].
Qed.

Lemma init_wf chunks batch_size shuffle drop_last rrd ds :
  RemoraDataset.init chunks batch_size shuffle drop_last rrd = Ok ds ->
  dataset_wf ds
  /\ RemoraDataset.batch_size ds = batch_size
  /\ RemoraDataset.shuffle ds = shuffle
  /\ RemoraDataset.drop_last ds = drop_last
  /\ RemoraDataset.dataset_len ds = length chunks.
Proof.
  unfold RemoraDataset.init. destruct (batch_size =? 0) eqn:Hbs; [discriminate|].
  intros H. apply bind_Ok in H as (sigs & Hsig & H).
  apply bind_Ok in H as (inputs & Hin & H).
  apply bind_Ok in H as (seqs & Hseq & H). injection H as <-.
  apply np_stack_Ok_inv in Hsig as ->. apply np_stack_Ok_inv in Hseq as ->.
  apply mapM_Ok, Forall2_length in Hin.
  unfold dataset_wf. simpl. rewrite !length_fmap.
  split; [|done]. split; [done|]. split; [done|]. split; [done|].
  split; [destruct rrd; simpl; by rewrite ?length_fmap|].
  split; [lia|]. destruct (negb drop_last && _); lia.
Qed.

Lemma index_rows_Ok {A} (l : list A) idx l' :
  RemoraDataset.index_rows l idx = Ok l' ->
  Forall2 (fun i x => l !! i = Some x) idx l'.
Proof.
  intros H. apply mapM_Ok in H. eapply Forall2_impl; [exact H|].
  intros i x Hi. simpl in Hi. by destruct (l !! i); simplify_eq.
Qed.

Lemma index_rows_total {A} (l : list A) idx :
  Forall (fun i => (i < length l)%nat) idx ->
  exists l', RemoraDataset.index_rows l idx = Ok l'.
Proof.
  induction 1 as [|i idx Hi _ [l' IH]].
  - by exists [].
  - destruct (lookup_lt_is_Some_2 l i Hi) as [x Hx].
    exists (x :: l'). unfold RemoraDataset.index_rows in *. simpl.
    rewrite Hx. simpl. by rewrite IH.
Qed.

Lemma zip_rows_lookup sigs seqs labs rd i a b c :
  sigs !! i = Some a -> seqs !! i = Some b -> labs !! i = Some c ->
  RemoraDataset.zip_rows sigs seqs labs rd !! i
  = match rd with
    | Some rd => (fun d => (a, b, c, Some d)) <$> rd !! i
    | None => Some (a, b, c, None)
    end.
Proof.
  intros Ha Hb Hc. unfold RemoraDataset.zip_rows.
  assert (zip (zip sigs seqs) labs !! i = Some (a, b, c)) as Hz.
  { by apply lookup_zip_Some; split; [apply lookup_zip_Some|]. }
  destruct rd as [rd|].
  - rewrite lookup_zip_with, Hz. simpl. by destruct (rd !! i).
  - by rewrite list_lookup_fmap, Hz.
Qed.

Lemma zip_rows_index sigs seqs labs rd idx sigs' seqs' labs' rd' :
  Forall2 (fun i x => sigs !! i = Some x) idx sigs' ->
  Forall2 (fun i x => seqs !! i = Some x) idx seqs' ->
  Forall2 (fun i x => labs !! i = Some x) idx labs' ->
  match rd, rd' with
  | Some rd, Some rd' => Forall2 (fun i x => rd !! i = Some x) idx rd'
  | None, None => True
  | _, _ => False
  end ->
  Forall2 (fun i r => RemoraDataset.zip_rows sigs seqs labs rd !! i = Some r)
    idx (RemoraDataset.zip_rows sigs' seqs' labs' rd').
Proof.
  intros Hs. revert seqs' labs' rd'.
  induction Hs as [|i a idx sigs' Ha _ IH]; intros seqs' labs' rd' Hq Hl Hd.
  - inversion Hq; subst. inversion Hl; subst.
    destruct rd as [rd|], rd' as [rd'|]; try done; constructor.
  - inversion Hq as [|? b ? seqs2 Hb Hq']; subst.
    inversion Hl as [|? c ? labs2 Hc Hl']; subst.
    destruct rd as [rd|], rd' as [rd'|]; try done.
    + inversion Hd as [|? d ? rd2 Hdi Hd']; subst.
      change (RemoraDataset.zip_rows (a :: sigs') (b :: seqs2) (c :: labs2)
                (Some (d :: rd2)))
        with ((a, b, c, Some d)
                :: RemoraDataset.zip_rows sigs' seqs2 labs2 (Some rd2)).
      constructor.
      * rewrite (zip_rows_lookup _ _ _ _ _ a b c) by done. by rewrite Hdi.
      * apply (IH seqs2 labs2 (Some rd2)); done.
    + change (RemoraDataset.zip_rows (a :: sigs') (b :: seqs2) (c :: labs2) None)
        with ((a, b, c, None) :: RemoraDataset.zip_rows sigs' seqs2 labs2 None).
      constructor.
      * by rewrite (zip_rows_lookup _ _ _ _ _ a b c).
      * apply (IH seqs2 labs2 None); done.
Qed.

Lemma indexed_identity {A} (L : list A) :
  Forall2 (fun i r => L !! i = Some r) (seq 0 (length L)) L.
Proof.
  apply Forall2_same_length_lookup_2; [by rewrite length_seq|].
  intros i x y Hx Hy. apply lookup_seq in Hx as [-> _]. done.
Qed.

Lemma indexed_functional {A} (L : list A) idx L1 L2 :
  Forall2 (fun i r => L !! i = Some r) idx L1 ->
  Forall2 (fun i r => L !! i = Some r) idx L2 ->
  L1 = L2.
Proof.
  intros H1. revert L2. induction H1 as [|i x idx L1 Hx _ IH]; intros L2 H2.
  - by inversion H2.
  - inversion H2 as [|? y ? L2' Hy H2']; subst. f_equal; [congruence|].
    by apply IH.
Qed.

Lemma indexed_permutation {A} (L : list A) idx L' :
  idx ≡ₚ seq 0 (length L) ->
  Forall2 (fun i r => L !! i = Some r) idx L' ->
  L' ≡ₚ L.
Proof.
  intros Hperm H.
  destruct (Permutation_Forall2 Hperm H) as (L2 & HL2 & H2).
  by rewrite (indexed_functional L _ L2 L H2 (indexed_identity L)) in HL2.
Qed.

Lemma length_rows ds :
  dataset_wf ds -> length (RemoraDataset.rows ds) = RemoraDataset.dataset_len ds.
Proof.
  intros (Hs & Hq & Hl & Hrd & _). unfold RemoraDataset.rows, RemoraDataset.zip_rows.
  destruct (RemoraDataset.read_data ds) as [rd|].
  - destruct Hrd as [_ Hrd]. rewrite length_zip_with, !length_zip. lia.
  - rewrite length_fmap, !length_zip. lia.
Qed.

Lemma iter_rows ds shuf_idx :
  dataset_wf ds ->
  shuf_idx ≡ₚ seq 0 (RemoraDataset.dataset_len ds) ->
  exists ds',
    RemoraDataset.iter ds shuf_idx = Ok ds'
    /\ ds' = at_batch ds' 0
    /\ RemoraDataset.batch_size ds' = RemoraDataset.batch_size ds
    /\ RemoraDataset.n_batches ds' = RemoraDataset.n_batches ds
    /\ dataset_wf ds'
    /\ (RemoraDataset.shuffle ds = true ->
        Forall2 (fun i r => RemoraDataset.rows ds !! i = Some r) shuf_idx
          (RemoraDataset.rows ds'))
    /\ (RemoraDataset.shuffle ds = false ->
        RemoraDataset.rows ds' = RemoraDataset.rows ds)
    /\ RemoraDataset.rows ds' ≡ₚ RemoraDataset.rows ds.
Proof.
  intros Hwf Hperm. pose proof Hwf as (Hs & Hq & Hl & Hrd & Hbs & Hnb).
  unfold RemoraDataset.iter. destruct (RemoraDataset.shuffle ds) eqn:Hsh.
  - assert (Forall (fun i => (i < RemoraDataset.dataset_len ds)%nat) shuf_idx)
      as Hlt.
    { apply Forall_forall. intros i Hi. rewrite Hperm in Hi.
      apply elem_of_seq in Hi. lia. }
    destruct (index_rows_total (RemoraDataset.sig_tensor ds) shuf_idx)
      as [sigs' Hsigs]; [by rewrite Hs|].
    destruct (index_rows_total (RemoraDataset.seq_tensor ds) shuf_idx)
      as [seqs' Hseqs]; [by rewrite Hq|].
    destruct (index_rows_total (RemoraDataset.labels ds) shuf_idx)
      as [labs' Hlabs]; [by rewrite Hl|].
    rewrite Hsigs, Hseqs, Hlabs. simpl.
    pose proof (index_rows_Ok _ _ _ Hsigs) as Fs.
    pose proof (index_rows_Ok _ _ _ Hseqs) as Fq.
    pose proof (index_rows_Ok _ _ _ Hlabs) as Fl.
    pose proof (Forall2_length _ _ _ Fs) as Ls.
    pose proof (Forall2_length _ _ _ Fq) as Lq.
    pose proof (Forall2_length _ _ _ Fl) as Ll.
    pose proof (Permutation_length Hperm) as Lp. rewrite length_seq in Lp.
    assert (exists rd',
      (if RemoraDataset.return_read_data ds then
         match RemoraDataset.read_data ds with
         | Some rd => RemoraDataset.index_rows rd shuf_idx ≫= λ rd', Ok (Some rd')
         | None => Raise (TypeError "'NoneType' object is not subscriptable")
         end
       else Ok (RemoraDataset.read_data ds)) = Ok rd'
      /\ match RemoraDataset.read_data ds, rd' with
         | Some rd, Some rd' =>
             Forall2 (fun i x => rd !! i = Some x) shuf_idx rd'
         | None, None => True
         | _, _ => False
         end) as (rd' & -> & Frd).
    { destruct (RemoraDataset.read_data ds) as [rd|].
      - destruct Hrd as [-> Hrd].
        destruct (index_rows_total rd shuf_idx) as [rd' Hrd'];
          [by rewrite Hrd|].
        exists (Some rd'). rewrite Hrd'. split; [done|].
        by apply index_rows_Ok.
      - rewrite Hrd. by exists None. }
    simpl. eexists. split; [done|]. split; [done|]. split; [done|].
    split; [done|].
    assert (Forall2 (fun i r => RemoraDataset.rows ds !! i = Some r) shuf_idx
              (RemoraDataset.zip_rows sigs' seqs' labs' rd')) as Hrows.
    { unfold RemoraDataset.rows.
      clear Hrd. destruct (RemoraDataset.read_data ds) as [rd|], rd' as [rd'|];
        try done; by apply zip_rows_index. }
    split; [|split; [done|split; [done|]]].
    + unfold dataset_wf. simpl. rewrite <- Ls, <- Lq, <- Ll, Lp.
      do 3 (split; [done|]). split; [|done].
      destruct (RemoraDataset.read_data ds) as [rd|], rd' as [rd'|]; try done.
      destruct Hrd as [-> _]. split; [done|].
      apply Forall2_length in Frd. lia.
    + eapply indexed_permutation; [|exact Hrows].
      by rewrite length_rows.
  - eexists. split; [done|]. split; [done|]. split; [done|]. split; [done|].
    split; [done|]. split; [done|]. done.
Qed.

Lemma slice_Z {A} (l : list A) a n :
  0 <= a -> 0 <= n ->
  Py.slice l a (a + n) = take (Z.to_nat n) (drop (Z.to_nat a) l).
Proof.
  intros Ha Hn. rewrite <- (slice_nonneg l (Z.to_nat a) (Z.to_nat n)).
  f_equal; lia.
Qed.

Lemma zip_rows_slice sigs seqs labs rd a n :
  RemoraDataset.zip_rows (take n (drop a sigs)) (take n (drop a seqs))
    (take n (drop a labs)) ((fun d => take n (drop a d)) <$> rd)
  = take n (drop a (RemoraDataset.zip_rows sigs seqs labs rd)).
Proof.
  unfold RemoraDataset.zip_rows. destruct rd as [rd|]; simpl.
  - by rewrite zip_with_drop, zip_with_take, !zip_with_drop, !zip_with_take.
  - by rewrite <- fmap_drop, <- fmap_take, !zip_with_drop, !zip_with_take.
Qed.

Lemma rows_at_batch ds i : RemoraDataset.rows (at_batch ds i) = RemoraDataset.rows ds.
Proof. done. Qed.

(** One call of [__next__] before the end: the batch holds the next
    [batch_size] rows. *)
Lemma next_at_batch ds i :
  dataset_wf ds ->
  0 < RemoraDataset.batch_size ds ->
  0 <= i < RemoraDataset.n_batches ds ->
  exists b,
    RemoraDataset.next (at_batch ds i) = Ok (b, at_batch ds (i + 1))
    /\ RemoraDataset.batch_rows b
       = take (Z.to_nat (RemoraDataset.batch_size ds))
           (drop (Z.to_nat (i * RemoraDataset.batch_size ds))
              (RemoraDataset.rows ds)).
Proof.
  intros (Hs & Hq & Hl & Hrd & _) Hbs Hi.
  unfold RemoraDataset.next. simpl.
  destruct (i >=? RemoraDataset.n_batches ds) eqn:E; [lia|].
  set (bs := RemoraDataset.batch_size ds) in *.
  rewrite !slice_Z by lia.
  assert ((if RemoraDataset.return_read_data ds then
             match RemoraDataset.read_data ds with
             | Some rd => Ok (Some (Py.slice rd (i * bs) (i * bs + bs)))
             | None => Raise (TypeError "'NoneType' object is not subscriptable")
             end
           else Ok None)
          = Ok ((fun d => take (Z.to_nat bs) (drop (Z.to_nat (i * bs)) d))
                  <$> RemoraDataset.read_data ds)) as ->.
  { destruct (RemoraDataset.read_data ds) as [rd|].
    - destruct Hrd as [-> _]. simpl. by rewrite slice_Z by lia.
    - by rewrite Hrd. }
  simpl. eexists. split; [reflexivity|].
  unfold RemoraDataset.batch_rows, RemoraDataset.rows. apply zip_rows_slice.
Qed.

Lemma next_at_end ds i :
  RemoraDataset.n_batches ds <= i ->
  RemoraDataset.next (at_batch ds i) = Raise StopIteration.
Proof.
  intros Hi. unfold RemoraDataset.next. simpl.
  destruct (i >=? RemoraDataset.n_batches ds) eqn:E; [done | lia].
Qed.

(** The calls of [__next__] from batch [i] on reach [StopIteration] after
    the [k] remaining batches, which hold the next [k * batch_size] rows. *)
Lemma drain_at_batch ds (k : nat) i fuel :
  dataset_wf ds ->
  0 < RemoraDataset.batch_size ds ->
  0 <= i ->
  i + Z.of_nat k = RemoraDataset.n_batches ds ->
  (k < fuel)%nat ->
  exists batches,
    RemoraDataset.drain fuel (at_batch ds i) = Some (Ok batches)
    /\ mjoin (RemoraDataset.batch_rows <$> batches)
       = take (Z.to_nat (Z.of_nat k * RemoraDataset.batch_size ds))
           (drop (Z.to_nat (i * RemoraDataset.batch_size ds))
              (RemoraDataset.rows ds)).
Proof.
  intros Hwf Hbs. revert i fuel.
  induction k as [|k IH]; intros i fuel Hi Hnb Hfuel;
    (destruct fuel as [|fuel]; [lia|]); simpl.
  - rewrite next_at_end by lia. exists []. split; [done|].
    by rewrite take_0.
  - destruct (next_at_batch ds i Hwf Hbs) as (b & Hnext & Hb); [lia|].
    rewrite Hnext.
    destruct (IH (i + 1) fuel) as (batches & Hdrain & Hrows); [lia|lia|lia|].
    rewrite Hdrain. exists (b :: batches). split; [done|].
    rewrite fmap_cons. simpl. rewrite Hb, Hrows.
    set (bs := RemoraDataset.batch_size ds) in *.
    set (R := RemoraDataset.rows ds).
    replace (Z.to_nat ((i + 1) * bs))
      with (Z.to_nat (i * bs) + Z.to_nat bs)%nat by lia.
    rewrite <- drop_drop, take_take_drop. f_equal. lia.
Qed.

Lemma n_batches_covers ds :
  dataset_wf ds ->
  0 < RemoraDataset.batch_size ds ->
  0 <= RemoraDataset.n_batches ds
  /\ (RemoraDataset.drop_last ds = false ->
      Z.of_nat (RemoraDataset.dataset_len ds)
      <= RemoraDataset.n_batches ds * RemoraDataset.batch_size ds).
Proof.
  intros (_ & _ & _ & _ & _ & Hnb) Hbs. rewrite Hnb.
  set (N := Z.of_nat (RemoraDataset.dataset_len ds)).
  set (bs := RemoraDataset.batch_size ds) in *.
  pose proof (Z.div_mod N bs ltac:(lia)) as Hdm.
  pose proof (Z.mod_pos_bound N bs Hbs) as Hmod.
  assert (0 <= N `div` bs) as Hdiv by (apply Z.div_pos; lia).
  split.
  - destruct (_ && _); lia.
  - intros ->. simpl. destruct (N `mod` bs >? 0) eqn:E; nia.
Qed.

(** C8 (amended): for every dataset built by [__init__] with a positive
    batch size, starting an iteration pass with the permutation [shuf_idx]
    of the row indices yields buffers whose rows are, when shuffling is
    on, the rows of the old buffers at the indices [shuf_idx] (signal,
    feature, label and metadata moved together) and are unchanged
    otherwise: the multiset of rows is the same.  The pass then reaches
    [StopIteration], and its batches concatenate to the first
    [n_batches * batch_size] rows of the buffers; when drop-last is
    disabled these are all rows, so the batches reconstruct the multiset
    of rows the dataset had before the pass. *)
Theorem shuffle_and_full_pass chunks batch_size shuffle drop_last
    return_read_data ds shuf_idx fuel :
  RemoraDataset.init chunks batch_size shuffle drop_last return_read_data
    = Ok ds ->
  0 < batch_size ->
  shuf_idx ≡ₚ seq 0 (RemoraDataset.dataset_len ds) ->
  (Z.to_nat (RemoraDataset.n_batches ds) < fuel)%nat ->
  exists ds' batches,
    RemoraDataset.iter ds shuf_idx = Ok ds'
    /\ (shuffle = true ->
        Forall2 (fun i r => RemoraDataset.rows ds !! i = Some r) shuf_idx
          (RemoraDataset.rows ds'))
    /\ (shuffle = false -> RemoraDataset.rows ds' = RemoraDataset.rows ds)
    /\ RemoraDataset.rows ds' ≡ₚ RemoraDataset.rows ds
    /\ RemoraDataset.full_pass fuel ds shuf_idx = Some (Ok batches)
    /\ mjoin (RemoraDataset.batch_rows <$> batches)
       = take (Z.to_nat (RemoraDataset.n_batches ds * batch_size))
           (RemoraDataset.rows ds')
    /\ (drop_last = false ->
        mjoin (RemoraDataset.batch_rows <$> batches) ≡ₚ RemoraDataset.rows ds).
Proof.
  intros Hinit Hbs Hperm Hfuel.
  apply init_wf in Hinit as (Hwf & Ebs & Esh & Edl & _).
  destruct (iter_rows ds shuf_idx Hwf Hperm)
    as (ds' & Hiter & Hds' & Ebs' & Enb' & Hwf' & Hsh1 & Hsh0 & Hp).
  rewrite <- Ebs in Hbs.
  pose proof (n_batches_covers ds Hwf Hbs) as [Hnb0 Hcover].
  destruct (drain_at_batch ds' (Z.to_nat (RemoraDataset.n_batches ds)) 0 fuel)
    as (batches & Hdrain & Hrows); try done; try lia.
  rewrite <- Hds' in Hdrain. rewrite drop_0, Ebs' in Hrows.
  exists ds', batches. rewrite <- Esh, <- Edl, <- Ebs.
  split; [done|]. split; [done|]. split; [done|]. split; [done|].
  split; [unfold RemoraDataset.full_pass; by rewrite Hiter|].
  split; [rewrite Hrows; f_equal; lia|].
  intros Hdl. rewrite Hrows, take_ge; [done|].
  rewrite (length_rows ds' Hwf').
  assert (RemoraDataset.dataset_len ds' = RemoraDataset.dataset_len ds) as ->.
  { apply Permutation_length in Hp.
    by rewrite (length_rows ds' Hwf'), (length_rows ds Hwf) in Hp. }
  specialize (Hcover Hdl). lia.
Qed.

(** C8 (amended) at a dataset of two chunks, batch size 1, shuffled with
    the permutation [1; 0]. *)
Lemma shuffle_and_full_pass_witness :
  exists ds,
    RemoraDataset.init [example_chunk; example_chunk] 1 true false true = Ok ds
    /\ exists ds' batches,
         RemoraDataset.iter ds [1%nat; O] = Ok ds'
         /\ (true = true ->
             Forall2 (fun i r => RemoraDataset.rows ds !! i = Some r)
               [1%nat; O] (RemoraDataset.rows ds'))
         /\ (true = false -> RemoraDataset.rows ds' = RemoraDataset.rows ds)
         /\ RemoraDataset.rows ds' ≡ₚ RemoraDataset.rows ds
         /\ RemoraDataset.full_pass 3 ds [1%nat; O] = Some (Ok batches)
         /\ mjoin (RemoraDataset.batch_rows <$> batches)
            = take (Z.to_nat (RemoraDataset.n_batches ds * 1))
                (RemoraDataset.rows ds')
         /\ (false = false ->
             mjoin (RemoraDataset.batch_rows <$> batches)
               ≡ₚ RemoraDataset.rows ds).
Proof.
  eexists. split; [vm_compute; reflexivity|].
  apply (shuffle_and_full_pass [example_chunk; example_chunk] 1 true false true).
  - vm_compute. reflexivity.
  - lia.
  - simpl. apply perm_swap.
  - simpl. lia.
Defined.

(** C8 (as stated, refuted): a dataset of three chunks with batch size 2,
    shuffling and drop-last enabled has a single batch; a full pass
    returns two rows, not the three rows of the dataset. *)
Lemma full_pass_drop_last_loses_rows :
  exists ds batches,
    RemoraDataset.init [example_chunk; example_chunk; example_chunk] 2
      true true false = Ok ds
    /\ RemoraDataset.full_pass 3 ds [2%nat; O; 1%nat] = Some (Ok batches)
    /\ length (RemoraDataset.rows ds) = 3%nat
    /\ length (mjoin (RemoraDataset.batch_rows <$> batches)) = 2%nat
    /\ ~ (mjoin (RemoraDataset.batch_rows <$> batches) ≡ₚ RemoraDataset.rows ds).
Proof.
  eexists _, _.
  split; [vm_compute; reflexivity|]. split; [vm_compute; reflexivity|].
  split; [reflexivity|]. split; [reflexivity|].
  intros H. apply Permutation_length in H. vm_compute in H. discriminate.
Qed.

(** ** The binary search has enough fuel *)

(** With at least [hi - lo] steps the loop of [binsearch] ends because
    [min_idx >= max_idx], never because the fuel ran out: more fuel gives
    the same index.  [searchsorted] starts it with [hi - lo = len(a)]. *)
Lemma binsearch_S fuel s a key lo hi :
  Py.binsearch (S fuel) s a key lo hi
  = if (lo <? hi)%nat then
      match a !! (lo + (hi - lo) / 2)%nat with
      | Some v =>
          if Py.side_cmp s v key
          then Py.binsearch fuel s a key (S (lo + (hi - lo) / 2)) hi
          else Py.binsearch fuel s a key lo (lo + (hi - lo) / 2)
      | None => lo
      end
    else lo.
Proof. done. Qed.

Lemma binsearch_enough_fuel fuel fuel' s a key lo hi :
  (hi - lo <= fuel)%nat -> (hi - lo <= fuel')%nat -> (hi <= length a)%nat ->
  Py.binsearch fuel s a key lo hi = Py.binsearch fuel' s a key lo hi.
Proof.
  revert fuel' lo hi. induction fuel as [|fuel IH]; intros fuel' lo hi H1 H2 Ha.
  - destruct fuel' as [|fuel']; [done|]. rewrite binsearch_S.
    destruct (lo <? hi)%nat eqn:E; [lia | done].
  - destruct fuel' as [|fuel']; rewrite ?binsearch_S.
    + simpl. destruct (lo <? hi)%nat eqn:E; [lia | done].
    + destruct (lo <? hi)%nat eqn:E; [|done].
      pose proof (Nat.div_mod_eq (hi - lo) 2) as Hdm.
      pose proof (Nat.mod_upper_bound (hi - lo) 2 ltac:(lia)) as Hm.
      destruct (a !! (lo + (hi - lo) / 2)%nat) as [v|] eqn:Ev; [|done].
      destruct (Py.side_cmp s v key); apply IH; lia.
Qed.

(** ** On reads of the data model nothing escapes the [try] block *)

Lemma match_prefix_length p s :
  Motif.match_prefix p s = true -> (length p <= length s)%nat.
Proof.
  revert s. induction p as [|cls p IH]; intros s H; simpl in *; [lia|].
  destruct s as [|c s]; [discriminate|].
  apply andb_true_iff in H as [_ H]. apply IH in H. simpl. lia.
Qed.

Lemma scan_bounds p s i skip start :
  start ∈ Motif.scan p s i skip ->
  (i <= start /\ start + length p <= i + length s)%nat.
Proof.
  revert i skip. induction s as [|c s IH]; intros i skip; simpl.
  - destruct skip; [|by intros ?%elem_of_nil].
    destruct (Motif.match_prefix p []) eqn:E; [|by intros ?%elem_of_nil].
    intros ->%list_elem_of_singleton. apply match_prefix_length in E.
    simpl in E. lia.
  - destruct skip as [|k].
    + destruct (Motif.match_prefix p (c :: s)) eqn:E.
      * intros [->|H]%elem_of_cons.
        -- apply match_prefix_length in E. simpl in E. lia.
        -- apply IH in H. lia.
      * intros H. apply IH in H. lia.
    + intros H. apply IH in H. lia.
Qed.

Lemma getitem_in_range {A} err (l : list A) i :
  0 <= i < Z.of_nat (length l) -> exists x, Py.getitem err l i = Ok x.
Proof.
  intros Hi. destruct (lookup_lt_is_Some_2 l (Z.to_nat i)) as [x Hx]; [lia|].
  exists x. apply getitem_nonneg; [lia | done].
Qed.

Lemma pos_step_total num_chunks label_conv chunk_context kmer fixed base_pred
    read st m :
  read_wf label_conv read ->
  0 <= chunk_context.1 -> 0 <= chunk_context.2 ->
  0 <= m < Z.of_nat (length (RemoraRead.seq read)) ->
  exists fl st',
    pos_step num_chunks label_conv chunk_context kmer fixed base_pred read st m
    = Ok (fl, st').
Proof.
  intros [Hmap Hint] Hc1 Hc2 Hm. destruct st as [chunks hist].
  unfold pos_step, focus_sig_pos.
  destruct (getitem_in_range Py.np_index_error (RemoraRead.seq_to_sig_map read) m)
    as [a ->]; [lia|].
  destruct (getitem_in_range Py.np_index_error (RemoraRead.seq_to_sig_map read)
              (m + 1)) as [b ->]; [lia|].
  simpl.
  assert (exists w, window chunk_context fixed read m ((a + b) `div` 2) = Ok w)
    as [w ->].
  { unfold window. destruct fixed.
    - destruct (_ <=? 0) eqn:E1; [eauto|].
      destruct (_ >=? _) eqn:E2; [eauto|].
      destruct (getitem_in_range Py.np_index_error
                  (RemoraRead.seq_to_sig_map read) (m - chunk_context.1))
        as [x ->]; [lia|].
      destruct (getitem_in_range Py.np_index_error
                  (RemoraRead.seq_to_sig_map read) (m + chunk_context.2 + 1))
        as [y ->]; [lia|].
      simpl. eauto.
    - destruct (_ <? 0) eqn:E1; [eauto|].
      destruct (last (RemoraRead.seq_to_sig_map read)) as [t|] eqn:El.
      + apply (getitem_last Py.np_index_error) in El. rewrite El. simpl.
        repeat case_match; eauto.
      + apply last_None in El. rewrite El in Hmap. discriminate. }
  simpl. destruct w as [reason|[[[ss se] sqs] sqe]]; [eauto|].
  assert (exists lab, chunk_label label_conv read m = Ok lab) as [lab ->].
  { unfold chunk_label. destruct (RemoraRead.int_seq read) as [codes|]; [|eauto].
    destruct Hint as [Hlen Hcodes].
    destruct (lookup_lt_is_Some_2 codes (Z.to_nat m)) as [code Hcode]; [lia|].
    rewrite (getitem_nonneg _ _ _ code) by (lia || done). simpl.
    rewrite Forall_forall in Hcodes.
    apply getitem_in_range, Hcodes. by eapply list_elem_of_lookup_2. }
  simpl. destruct (try_chunk _ _ _ _ _ _ _ _ _ _); eauto.
Qed.

Lemma pos_loop_total num_chunks label_conv chunk_context kmer fixed base_pred
    read ms st :
  read_wf label_conv read ->
  0 <= chunk_context.1 -> 0 <= chunk_context.2 ->
  Forall (fun m => 0 <= m < Z.of_nat (length (RemoraRead.seq read))) ms ->
  exists st',
    pos_loop num_chunks label_conv chunk_context kmer fixed base_pred read ms st
    = Ok st'.
Proof.
  intros Hwf Hc1 Hc2 Hms. revert st.
  induction Hms as [|m ms Hm _ IH]; intros st; simpl; [eauto|].
  destruct (pos_step_total num_chunks label_conv chunk_context kmer fixed
              base_pred read st m Hwf Hc1 Hc2 Hm) as (fl & st' & ->).
  simpl. destruct fl; [apply IH | eauto].
Qed.

(** On reads of the data model, with a non-negative chunk context and
    either motif search or a non-negative focus offset, the loops of
    [load_chunks] finish: no exception escapes them. *)
Lemma load_chunks_run_total num_chunks motif label_conv chunk_context kmer
    focus_offset fixed base_pred full reads :
  motif_wf motif ->
  0 <= chunk_context.1 -> 0 <= chunk_context.2 ->
  full = true \/ (exists fo, focus_offset = Some fo /\ 0 <= fo) ->
  Forall (read_wf label_conv) reads ->
  exists st,
    load_chunks_run num_chunks motif label_conv chunk_context kmer focus_offset
      fixed base_pred full reads = Ok st.
Proof.
  intros Hmotif Hc1 Hc2 Hmode Hreads.
  assert (forall st, exists st',
    reads_loop num_chunks motif label_conv chunk_context kmer focus_offset
      fixed base_pred full reads st = Ok st') as Hloop.
  { induction Hreads as [|read reads Hread _ IH]; intros st; simpl; [eauto|].
    assert (exists st1,
      read_step num_chunks motif label_conv chunk_context kmer focus_offset
        fixed base_pred full st read = Ok st1) as [st1 ->]; [|apply IH].
    unfold read_step. destruct full.
    - apply pos_loop_total; try done.
      apply Forall_fmap, Forall_forall. intros start Hstart. simpl.
      apply scan_bounds in Hstart. unfold motif_wf in Hmotif. lia.
    - destruct Hmode as [|(fo & -> & Hfo)]; [discriminate|].
      destruct (fo >=? _) eqn:E1; [eauto|].
      destruct (negb _); [eauto|].
      apply pos_loop_total; try done. apply Forall_singleton. lia. }
  unfold load_chunks_run.
  destruct focus_offset, full; try apply Hloop.
  by destruct Hmode as [|(fo & ? & _)].
Qed.

(** ** Binary search on a sorted map *)

Lemma non_decreasing_tail x a : non_decreasing (x :: a) -> non_decreasing a.
Proof. destruct a; simpl; tauto. Qed.

Lemma non_decreasing_lookup a i j x y :
  non_decreasing a -> (i <= j)%nat ->
  a !! i = Some x -> a !! j = Some y -> x <= y.
Proof.
  revert i j. induction a as [|x0 a IH]; intros i j Hnd Hij Hi Hj; [done|].
  destruct i as [|i].
  - simpl in Hi. simplify_eq.
    destruct (last (x :: a)) as [L|] eqn:HL.
    + pose proof (non_decreasing_bounds _ _ _ Hnd HL) as Hb.
      rewrite Forall_lookup in Hb. specialize (Hb _ _ Hj). simpl in Hb. lia.
    + by rewrite last_cons in HL; destruct (last a).
  - destruct j as [|j]; [lia|]. simpl in Hi, Hj.
    eapply (IH i j); eauto using non_decreasing_tail. lia.
Qed.

Lemma side_cmp_mono s x y key :
  x <= y -> Py.side_cmp s y key = true -> Py.side_cmp s x key = true.
Proof. destruct s; simpl; lia. Qed.

Lemma binsearch_spec fuel s a key lo hi :
  non_decreasing a ->
  (lo <= hi <= length a)%nat ->
  (hi - lo <= fuel)%nat ->
  (forall i x, (i < lo)%nat -> a !! i = Some x -> Py.side_cmp s x key = true) ->
  (forall i x, (hi <= i)%nat -> a !! i = Some x -> Py.side_cmp s x key = false) ->
  (lo <= Py.binsearch fuel s a key lo hi <= hi)%nat
  /\ (forall i x, (i < Py.binsearch fuel s a key lo hi)%nat ->
        a !! i = Some x -> Py.side_cmp s x key = true)
  /\ (forall i x, (Py.binsearch fuel s a key lo hi <= i)%nat ->
        a !! i = Some x -> Py.side_cmp s x key = false).
Proof.
  intros Hnd. revert lo hi.
  induction fuel as [|fuel IH]; intros lo hi Hb Hf Hlo Hhi.
  - simpl. assert (lo = hi) as -> by lia. split; [lia|]. split; eauto.
  - rewrite binsearch_S. destruct (lo <? hi)%nat eqn:Hlt.
    + set (mid := (lo + (hi - lo) / 2)%nat).
      assert (lo <= mid < hi)%nat as Hmid.
      { subst mid. assert ((hi - lo) / 2 < hi - lo)%nat by (apply Nat.div_lt; lia).
        lia. }
      destruct (lookup_lt_is_Some_2 a mid) as [v Hv]; [lia|].
      rewrite Hv. destruct (Py.side_cmp s v key) eqn:Hc.
      * destruct (IH (S mid) hi) as (H1 & H2 & H3); try lia; auto.
        { intros i x Hi Hx. eapply side_cmp_mono; [|exact Hc].
          eapply (non_decreasing_lookup a i mid); eauto. lia. }
        split; [lia|]. split; auto.
      * destruct (IH lo mid) as (H1 & H2 & H3); try lia; auto.
        { intros i x Hi Hx. destruct (Py.side_cmp s x key) eqn:Hcx; [|done].
          rewrite <- Hc. symmetry. eapply side_cmp_mono; [|exact Hcx].
          eapply (non_decreasing_lookup a mid i); eauto. }
        split; [lia|]. split; auto.
    + assert (lo = hi) as -> by lia. split; [lia|]. split; eauto.
Qed.

Lemma searchsorted_spec a v s :
  non_decreasing a ->
  0 <= Py.searchsorted a v s <= Z.of_nat (length a)
  /\ forall i x, a !! i = Some x ->
       (Py.side_cmp s x v = true <-> Z.of_nat i < Py.searchsorted a v s).
Proof.
  intros Hnd. unfold Py.searchsorted.
  destruct (binsearch_spec (length a) s a v 0 (length a)) as (H1 & H2 & H3);
    auto; try lia.
  { intros i x Hi Hx. apply lookup_lt_Some in Hx. lia. }
  split; [lia|]. intros i x Hx. split.
  - intros Hc.
    destruct (decide (i < Py.binsearch (length a) s a v 0 (length a))%nat);
      [lia|].
    rewrite (H3 i x) in Hc; [done|lia|done].
  - intros Hi. eapply H2; [|done]. lia.
Qed.

(** ** Where the chunks of [load_chunks] come from *)

Section ChunkOrigin.

Variable num_chunks : option Z.
Variable motif : Motif.t.
Variable label_conv : list Z.
Variable chunk_context : Z * Z.
Variable kmer_context_bases : Z * Z.
Variable focus_offset : option Z.
Variable fixed_seq_len_chunks : bool.
Variable base_pred : bool.
Variable full : bool.

Lemma pos_step_origin read st m fl st' :
  pos_step num_chunks label_conv chunk_context kmer_context_bases
    fixed_seq_len_chunks base_pred read st m = Ok (fl, st') ->
  (fl = Continue /\ st'.1 = st.1)
  \/ exists c,
       st'.1 = st.1 ++ [c]
       /\ fl = (if cap_reached num_chunks (st.1 ++ [c]) then Break else Continue)
       /\ extracted_at label_conv chunk_context kmer_context_bases
            fixed_seq_len_chunks base_pred read m c.
Proof.
  destruct st as [chunks hist]. unfold pos_step. intros H.
  apply bind_Ok in H as (sfp & Hsfp & H).
  apply bind_Ok in H as (w & Hw & H).
  destruct w as [reason|[[[ss se] sqs] sqe]].
  - left. by simplify_eq.
  - apply bind_Ok in H as (lab & Hlab & H).
    destruct (try_chunk _ _ _ _ _ _ _ _ _ _) as [c|e] eqn:Htry.
    + right. exists c. simplify_eq. simpl. split; [done|]. split; [done|].
      by exists sfp, ss, se, sqs, sqe, lab.
    + left. by simplify_eq.
Qed.

Lemma pos_loop_origin read ms st st' :
  pos_loop num_chunks label_conv chunk_context kmer_context_bases
    fixed_seq_len_chunks base_pred read ms st = Ok st' ->
  exists new,
    st'.1 = st.1 ++ new
    /\ Forall (fun c => exists m, m ∈ ms
                 /\ extracted_at label_conv chunk_context kmer_context_bases
                      fixed_seq_len_chunks base_pred read m c) new.
Proof.
  revert st. induction ms as [|m ms IH]; intros st H; simpl in H.
  - simplify_eq. exists []. by rewrite app_nil_r.
  - apply bind_Ok in H as ([fl st1] & Hstep & H).
    apply pos_step_origin in Hstep as [[-> Hst]|(c & Hst & _ & Hc)].
    + apply IH in H as (new & Hnew & Hall). exists new. rewrite Hnew, Hst.
      split; [done|]. eapply Forall_impl; [exact Hall|].
      intros c' (m' & Hm' & Hx). exists m'. split; [by right|done].
    + assert (exists new, st'.1 = st1.1 ++ new
                /\ Forall (fun c => exists m0, m0 ∈ ms
                     /\ extracted_at label_conv chunk_context kmer_context_bases
                          fixed_seq_len_chunks base_pred read m0 c) new)
        as (new & Hnew & Hall).
      { destruct fl; [by apply IH|]. simplify_eq. exists [].
        by rewrite app_nil_r. }
      exists (c :: new). rewrite Hnew, Hst, <- app_assoc. split; [done|].
      constructor.
      * exists m. split; [by left|done].
      * eapply Forall_impl; [exact Hall|].
        intros c' (m' & Hm' & Hx). exists m'. split; [by right|done].
Qed.

Lemma read_step_origin st read st' :
  read_step num_chunks motif label_conv chunk_context kmer_context_bases
    focus_offset fixed_seq_len_chunks base_pred full st read = Ok st' ->
  exists new,
    st'.1 = st.1 ++ new
    /\ Forall (fun c => exists m, m ∈ motif_pos motif focus_offset full read
                 /\ extracted_at label_conv chunk_context kmer_context_bases
                      fixed_seq_len_chunks base_pred read m c) new.
Proof.
  unfold read_step, motif_pos. destruct full.
  - apply pos_loop_origin.
  - destruct focus_offset as [fo|]; [|done].
    destruct (fo >=? _).
    { intros. simplify_eq. exists []. by rewrite app_nil_r. }
    destruct (negb _).
    { intros. simplify_eq. exists []. by rewrite app_nil_r. }
    apply pos_loop_origin.
Qed.

Lemma reads_loop_origin reads st st' :
  reads_loop num_chunks motif label_conv chunk_context kmer_context_bases
    focus_offset fixed_seq_len_chunks base_pred full reads st = Ok st' ->
  exists new,
    st'.1 = st.1 ++ new
    /\ Forall (fun c => exists read m,
                 read ∈ reads
                 /\ m ∈ motif_pos motif focus_offset full read
                 /\ extracted_at label_conv chunk_context kmer_context_bases
                      fixed_seq_len_chunks base_pred read m c) new.
Proof.
  revert st. induction reads as [|read reads IH]; intros st H; simpl in H.
  - simplify_eq. exists []. by rewrite app_nil_r.
  - apply bind_Ok in H as (st1 & Hstep & H).
    apply read_step_origin in Hstep as (new1 & Hnew1 & Hall1).
    apply IH in H as (new & Hnew & Hall).
    exists (new1 ++ new). rewrite Hnew, Hnew1, <- app_assoc. split; [done|].
    apply Forall_app. split.
    + eapply Forall_impl; [exact Hall1|].
      intros c (m & Hm & Hx). exists read, m. split; [by left|done].
    + eapply Forall_impl; [exact Hall|].
      intros c (r & m & Hr & Hm & Hx). exists r, m. split; [by right|done].
Qed.

Lemma load_chunks_origin reads chunks :
  load_chunks reads num_chunks motif label_conv chunk_context
    kmer_context_bases focus_offset fixed_seq_len_chunks base_pred full
  = Ok chunks ->
  Forall (fun c => exists read m,
            read ∈ reads
            /\ m ∈ motif_pos motif focus_offset full read
            /\ extracted_at label_conv chunk_context kmer_context_bases
                 fixed_seq_len_chunks base_pred read m c) chunks.
Proof.
  intros H. apply load_chunks_Ok_run in H as (hist & H).
  unfold load_chunks_run in H.
  assert (reads_loop num_chunks motif label_conv chunk_context
            kmer_context_bases focus_offset fixed_seq_len_chunks base_pred
            full reads ([], ∅) = Ok (chunks, hist)) as Hrun.
  { revert H. by destruct focus_offset, full. }
  apply reads_loop_origin in Hrun as (new & Hnew & Hall).
  simpl in Hnew. by subst.
Qed.

End ChunkOrigin.

(** ** The fields of an extracted chunk *)

Lemma norm_index_Some_iff n i k :
  Py.norm_index n i = Some k
  <-> (0 <= i < Z.of_nat n /\ k = Z.to_nat i)
      \/ (- Z.of_nat n <= i < 0 /\ k = Z.to_nat (i + Z.of_nat n)).
Proof.
  unfold Py.norm_index.
  destruct ((0 <=? i) && (i <? Z.of_nat n)) eqn:E1;
    [|destruct ((i <? 0) && (- Z.of_nat n <=? i)) eqn:E2].
  - split.
    + intros [= <-]. left. split; [lia|done].
    + intros [[_ ->]|[? _]]; [done|lia].
  - split.
    + intros [= <-]. right. split; [lia|done].
    + intros [[? _]|[_ ->]]; [lia|done].
  - split; [done|]. intros [[? _]|[? _]]; lia.
Qed.

Lemma getitem_Ok {A} err (l : list A) i x :
  Py.getitem err l i = Ok x
  <-> exists k, Py.norm_index (length l) i = Some k /\ l !! k = Some x.
Proof.
  unfold Py.getitem. split.
  - destruct (Py.norm_index _ _) as [k|]; [|done].
    destruct (l !! k) eqn:E; [|done]. intros [= ->]. eauto.
  - intros (k & -> & ->). done.
Qed.

Lemma mask_focus_base_norm c k b :
  Py.norm_index (length (Chunk.sequence c)) (Chunk.seq_focus_pos c) = Some k ->
  Chunk.seq_focus_pos c <> -1 ->
  Chunk.sequence c !! k = Some b ->
  Chunk.mask_focus_base c = Ok (if Ascii.eqb b "N" then c else masked c k).
Proof.
  intros Hk Hf Hb. unfold Chunk.mask_focus_base.
  assert (Py.getitem (fun _ _ => Py.str_index_error) (Chunk.sequence c)
            (Chunk.seq_focus_pos c) = Ok b) as ->.
  { apply getitem_Ok. eauto. }
  simpl. destruct (Ascii.eqb b "N"); [done|].
  unfold masked. do 3 f_equal.
  pose proof (lookup_lt_Some _ _ _ Hb) as Hlt.
  rewrite insert_take_drop by done.
  apply norm_index_Some_iff in Hk.
  unfold Py.slice_to, Py.slice_from, Py.slice_index.
  destruct Hk as [[Hr ->]|[Hr ->]].
  - destruct (Chunk.seq_focus_pos c <? 0) eqn:E1; [lia|].
    destruct (Chunk.seq_focus_pos c + 1 <? 0) eqn:E2; [lia|].
    do 2 f_equal; [f_equal; lia|]. f_equal. lia.
  - destruct (Chunk.seq_focus_pos c <? 0) eqn:E1; [|lia].
    destruct (Chunk.seq_focus_pos c + 1 <? 0) eqn:E2; [|lia].
    do 2 f_equal; [f_equal; lia|]. f_equal. lia.
Qed.

Lemma mask_focus_base_length c c' :
  Chunk.mask_focus_base c = Ok c' ->
  Chunk.seq_focus_pos c <> -1 ->
  length (Chunk.sequence c') = length (Chunk.sequence c)
  /\ Chunk.sig_focus_pos c' = Chunk.sig_focus_pos c
  /\ Chunk.seq_focus_pos c' = Chunk.seq_focus_pos c
  /\ Chunk.label c' = Chunk.label c
  /\ Chunk.read_id c' = Chunk.read_id c
  /\ Chunk.read_seq_pos c' = Chunk.read_seq_pos c.
Proof.
  intros H Hf.
  assert (exists k b,
            Py.norm_index (length (Chunk.sequence c)) (Chunk.seq_focus_pos c)
            = Some k /\ Chunk.sequence c !! k = Some b) as (k & b & Hk & Hb).
  { unfold Chunk.mask_focus_base in H. apply bind_Ok in H as (b & Hb & _).
    apply getitem_Ok in Hb as (k & ? & ?). eauto. }
  rewrite (mask_focus_base_norm c k b) in H by done.
  destruct (Ascii.eqb b "N"); injection H as <-; [done|].
  unfold masked. simpl. by rewrite length_insert.
Qed.

Lemma extract_chunk_from_read_fields read kc ss se lab sqs sqe sfp rid rsp c :
  Chunk.extract_chunk_from_read read kc ss se lab sqs sqe sfp rid rsp = Ok c ->
  Chunk.signal c = Py.slice (RemoraRead.sig read) ss se
  /\ Chunk.sequence c
     = Py.slice (RemoraRead.seq read) (seq_bounds read ss se sqs sqe).1
         (seq_bounds read ss se sqs sqe).2
  /\ Chunk.before_context_seq c
     = Py.slice (RemoraRead.seq read)
         (Z.max 0 ((seq_bounds read ss se sqs sqe).1 - kc.1))
         (seq_bounds read ss se sqs sqe).1
  /\ Chunk.after_context_seq c
     = Py.slice (RemoraRead.seq read) (seq_bounds read ss se sqs sqe).2
         ((seq_bounds read ss se sqs sqe).2 + kc.2)
  /\ Chunk.sig_focus_pos c = sfp - ss
  /\ Chunk.seq_focus_pos c = rsp - (seq_bounds read ss se sqs sqe).1
  /\ Chunk.label c = lab
  /\ Chunk.read_id c = rid
  /\ Chunk.read_seq_pos c = rsp
  /\ length (Chunk.seq_to_sig_map c)
     = length (Py.slice (RemoraRead.seq_to_sig_map read)
                 (seq_bounds read ss se sqs sqe).1
                 ((seq_bounds read ss se sqs sqe).2 + 1))
  /\ last (Chunk.seq_to_sig_map c) = Some (Py.wrap32 (se - ss)).
Proof.
  unfold Chunk.extract_chunk_from_read.
  change (match sqs with Some _ => _ | None => _ end)
    with (seq_bounds read ss se sqs sqe).
  destruct (seq_bounds read ss se sqs sqe) as [s0 e0]. simpl.
  intros H. apply bind_Ok in H as (m1 & Hm1 & H).
  apply bind_Ok in H as (m2 & Hm2 & H).
  destruct kc as [kb ka].
  destruct (_ || _) eqn:Hctx; [discriminate|]. injection H as <-. simpl.
  do 9 (split; [done|]).
  apply setitem_Ok in Hm1 as (k1 & Hk1 & ->).
  apply setitem_Ok in Hm2 as (k2 & Hk2 & ->).
  rewrite !length_fmap, !length_insert. split; [done|].
  rewrite !fmap_last.
  rewrite length_insert in Hk2.
  apply norm_index_Some_iff in Hk2 as [[? _]|[Hr ->]]; [lia|].
  rewrite last_lookup, length_insert.
  replace (Nat.pred (length (<[k1:=ss]> _)))
    with (Z.to_nat (-1 + Z.of_nat (length (Py.slice (RemoraRead.seq_to_sig_map read) s0 (e0 + 1)))))
    by (rewrite length_insert; lia).
  rewrite list_lookup_insert_eq by (rewrite length_insert; lia). done.
Qed.

Lemma try_chunk_fields kc base_pred read ss se lab sqs sqe sfp m c :
  try_chunk kc base_pred read ss se lab sqs sqe sfp m = Ok c ->
  Chunk.signal c = Py.slice (RemoraRead.sig read) ss se
  /\ Chunk.before_context_seq c
     = Py.slice (RemoraRead.seq read)
         (Z.max 0 ((seq_bounds read ss se sqs sqe).1 - kc.1))
         (seq_bounds read ss se sqs sqe).1
  /\ Chunk.after_context_seq c
     = Py.slice (RemoraRead.seq read) (seq_bounds read ss se sqs sqe).2
         ((seq_bounds read ss se sqs sqe).2 + kc.2)
  /\ Chunk.sig_focus_pos c = sfp - ss
  /\ Chunk.seq_focus_pos c = m - (seq_bounds read ss se sqs sqe).1
  /\ Chunk.label c = lab
  /\ Chunk.read_id c = RemoraRead.read_id read
  /\ Chunk.read_seq_pos c = m
  /\ length (Chunk.seq_to_sig_map c)
     = length (Py.slice (RemoraRead.seq_to_sig_map read)
                 (seq_bounds read ss se sqs sqe).1
                 ((seq_bounds read ss se sqs sqe).2 + 1))
  /\ last (Chunk.seq_to_sig_map c) = Some (Py.wrap32 (se - ss))
  /\ (base_pred = false ->
      Chunk.sequence c
      = Py.slice (RemoraRead.seq read) (seq_bounds read ss se sqs sqe).1
          (seq_bounds read ss se sqs sqe).2)
  /\ (Chunk.seq_focus_pos c <> -1 ->
      length (Chunk.sequence c)
      = length (Py.slice (RemoraRead.seq read) (seq_bounds read ss se sqs sqe).1
                  (seq_bounds read ss se sqs sqe).2)).
Proof.
  unfold try_chunk. intros H.
  apply bind_Ok in H as (c0 & Hex & H). apply bind_Ok in H as (c1 & Hmask & H).
  pose proof (extract_chunk_from_read_Ok _ _ _ _ _ _ _ _ _ _ _ Hex)
    as (_ & _ & Hl0 & Hv0 & _).
  apply extract_chunk_from_read_fields in Hex
    as (Gs & Gq & Gb & Ga & Gsf & Gqf & Glab & Grid & Grsp & Glen & Glast).
  assert (Chunk._base_sig_lens c1 = None /\ Chunk._seq_nn_input c1 = None)
    as [Hl1 Hv1].
  { destruct base_pred.
    - apply mask_focus_base_Ok in Hmask as (? & ? & ? & ? & Hl & Hv).
      rewrite Hl. auto.
    - by injection Hmask as <-. }
  apply check_Ok in H as (Hsame & _); [|done|done].
  destruct Hsame as (Fs & Fq & Fm & Fb & Fa & Fsf & Fqf & Flab & Frid & Frsp).
  rewrite Fs, Fq, Fm, Fb, Fa, Fsf, Fqf, Flab, Frid, Frsp. clear dependent c.
  destruct base_pred.
  - pose proof (mask_focus_base_Ok _ _ Hmask) as (Es & Em & Eb & Ea & _).
    rewrite Es, Em, Eb, Ea.
    assert (Chunk.sig_focus_pos c1 = Chunk.sig_focus_pos c0
            /\ Chunk.seq_focus_pos c1 = Chunk.seq_focus_pos c0
            /\ Chunk.label c1 = Chunk.label c0
            /\ Chunk.read_id c1 = Chunk.read_id c0
            /\ Chunk.read_seq_pos c1 = Chunk.read_seq_pos c0)
      as (E1 & E2 & E3 & E4 & E5).
    { unfold Chunk.mask_focus_base in Hmask.
      apply bind_Ok in Hmask as (b & _ & Hmask).
      destruct (Ascii.eqb b "N"); by injection Hmask as <-. }
    rewrite E1, E2, E3, E4, E5.
    do 10 (split; [done|]). split; [done|]. intros Hne.
    rewrite <- Gq. by apply (mask_focus_base_length _ _ Hmask).
  - injection Hmask as <-. do 10 (split; [done|]). split; [done|].
    by rewrite Gq.
Qed.

Lemma window_inr chunk_context fixed read m sfp ss se sqs sqe :
  window chunk_context fixed read m sfp = Ok (inr (ss, se, sqs, sqe)) ->
  if fixed then
    sqs = Some (m - chunk_context.1) /\ sqe = Some (m + chunk_context.2 + 1)
    /\ 0 < m - chunk_context.1
    /\ m + chunk_context.2 + 1 < Z.of_nat (length (RemoraRead.seq_to_sig_map read))
    /\ Py.getitem Py.np_index_error (RemoraRead.seq_to_sig_map read)
         (m - chunk_context.1) = Ok ss
    /\ Py.getitem Py.np_index_error (RemoraRead.seq_to_sig_map read)
         (m + chunk_context.2 + 1) = Ok se
  else
    sqs = None /\ sqe = None
    /\ ss = sfp - chunk_context.1 /\ se = sfp + chunk_context.2
    /\ 0 <= ss /\ ss < se
    /\ exists total,
         last (RemoraRead.seq_to_sig_map read) = Some total /\ se <= total.
Proof.
  unfold window. destruct fixed.
  - destruct (_ <=? 0) eqn:E1; [done|].
    destruct (_ >=? _) eqn:E2; [done|]. intros H.
    apply bind_Ok in H as (a & Ha & H). apply bind_Ok in H as (b & Hb & H).
    simplify_eq. repeat split; try done; lia.
  - destruct (_ <? 0) eqn:E1; [done|]. intros H.
    apply bind_Ok in H as (total & Ht & H).
    destruct (_ >? total) eqn:E2; [done|].
    destruct (_ >=? _) eqn:E3; [done|]. simplify_eq.
    repeat split; try done; try lia.
    exists total. split; [by apply getitem_last in Ht|lia].
Qed.

(** ** Chunk geometry *)

Lemma slice_length_bound {A} (l : list A) a b :
  0 <= a -> 0 <= b -> Z.of_nat (length (Py.slice l a b)) <= Z.max 0 (b - a).
Proof.
  intros Ha Hb. unfold Py.slice, Py.slice_index.
  rewrite length_take, length_drop.
  destruct (a <? 0) eqn:E1; [lia|]. destruct (b <? 0) eqn:E2; lia.
Qed.

Lemma slice_length_inside {A} (l : list A) a b :
  0 <= a -> 0 <= b <= Z.of_nat (length l) ->
  Z.of_nat (length (Py.slice l a b)) = Z.max 0 (b - a).
Proof.
  intros Ha Hb. unfold Py.slice, Py.slice_index.
  rewrite length_take, length_drop.
  destruct (a <? 0) eqn:E1; [lia|]. destruct (b <? 0) eqn:E2; lia.
Qed.

Lemma accepted_map_length kc c :
  accepted kc c ->
  (2 <= length (Chunk.seq_to_sig_map c))%nat
  /\ length (Chunk.sequence c) <> O.
Proof.
  intros (_ & _ & Hlen & _ & _ & _ & _ & _ & (v & _ & Henc & _) & _).
  apply encode_chunk_Ok in Henc as (Hn & _); lia.
Qed.

(** X2: in fixed-signal-length mode every chunk that [load_chunks] returns
    holds exactly [chunk_context[0] + chunk_context[1]] samples, and its
    signal focus position is [chunk_context[0]]: the window is centred on
    the focus position as requested, never clipped by the end of the read's
    signal.  The context width has to fit the int32 map. *)
Theorem load_chunks_signal_mode_width reads num_chunks motif label_conv
    chunk_context kmer_context_bases focus_offset base_pred full chunks :
  chunk_context.1 + chunk_context.2 < 2 ^ 31 ->
  load_chunks reads num_chunks motif label_conv chunk_context
    kmer_context_bases focus_offset false base_pred full = Ok chunks ->
  Forall (fun c =>
            Z.of_nat (length (Chunk.signal c))
            = chunk_context.1 + chunk_context.2
            /\ Chunk.sig_focus_pos c = chunk_context.1) chunks.
Proof.
  intros Hcc H. apply load_chunks_origin in H.
  eapply Forall_impl; [exact H|]. clear H. simpl.
  intros c (read & m & _ & _ & sfp & ss & se & sqs & sqe & lab
            & _ & Hw & _ & Htry).
  apply window_inr in Hw as (-> & -> & -> & -> & Hss & Hlt & _).
  pose proof (try_chunk_Ok _ _ _ _ _ _ _ _ _ _ _ Htry) as [Hacc _].
  pose proof (accepted_map_length _ _ Hacc) as [Hlen _].
  apply try_chunk_fields in Htry
    as (Gs & _ & _ & Gsf & _ & _ & _ & _ & _ & Glast & _).
  destruct Hacc as (_ & _ & _ & Hhd & Hpos & Hint & _ & Hsum & _).
  split; [|lia].
  assert (Z.of_nat (length (Chunk.signal c))
          <= chunk_context.1 + chunk_context.2) as Hle.
  { rewrite Gs.
    etrans; [apply slice_length_bound; lia|]. lia. }
  pose proof (last_of_diff_sum _ _ Hint Hhd Hlen Hsum) as Hl.
  rewrite Hl in Glast by lia. injection Glast as ->.
  rewrite wrap32_id; [lia|]. unfold int32. lia.
Qed.

Lemma load_chunks_signal_mode_width_witness :
  exists chunks,
    load_chunks [example_read] None motif_CG [] (5, 5) (1, 1) None
      false false true = Ok chunks
    /\ Forall (fun c =>
                 Z.of_nat (length (Chunk.signal c)) = 5 + 5
                 /\ Chunk.sig_focus_pos c = 5) chunks.
Proof.
  eexists. split; [vm_compute; reflexivity|].
  apply (load_chunks_signal_mode_width [example_read] None motif_CG []
           (5, 5) (1, 1) None false true); [simpl; lia|].
  vm_compute. reflexivity.
Defined.

(** X3: in fixed-sequence-length mode every chunk that [load_chunks]
    returns holds exactly [chunk_context[0] + chunk_context[1] + 1] bases
    with the focus base at index [chunk_context[0]], and its map has one
    entry more than it has bases.  The requested number of bases must not
    be negative: a negative end index would be read from the end of the
    read. *)
Theorem load_chunks_seq_mode_width reads num_chunks motif label_conv
    chunk_context kmer_context_bases focus_offset base_pred full chunks :
  0 <= chunk_context.1 + chunk_context.2 + 1 ->
  load_chunks reads num_chunks motif label_conv chunk_context
    kmer_context_bases focus_offset true base_pred full = Ok chunks ->
  Forall (fun c =>
            Z.of_nat (length (Chunk.sequence c))
            = chunk_context.1 + chunk_context.2 + 1
            /\ Chunk.seq_focus_pos c = chunk_context.1
            /\ Z.of_nat (length (Chunk.seq_to_sig_map c))
               = chunk_context.1 + chunk_context.2 + 2) chunks.
Proof.
  intros Hcc H. apply load_chunks_origin in H.
  eapply Forall_impl; [exact H|]. clear H. simpl.
  intros c (read & m & _ & _ & sfp & ss & se & sqs & sqe & lab
            & _ & Hw & _ & Htry).
  apply window_inr in Hw as (-> & -> & Hs & He & _).
  pose proof (try_chunk_Ok _ _ _ _ _ _ _ _ _ _ _ Htry) as [Hacc _].
  pose proof (accepted_map_length _ _ Hacc) as [Hlen _].
  apply try_chunk_fields in Htry
    as (_ & _ & _ & _ & Gqf & _ & _ & _ & Gmap & _).
  simpl in Gqf, Gmap.
  destruct Hacc as (_ & _ & Hseq & _).
  assert (Z.of_nat (length (Chunk.seq_to_sig_map c))
          = Z.max 0 (m + chunk_context.2 + 1 + 1 - (m - chunk_context.1)))
    as Hm.
  { rewrite Gmap. apply slice_length_inside; lia. }
  lia.
Qed.

Lemma load_chunks_seq_mode_width_witness :
  exists chunks,
    load_chunks [example_read] None motif_CG [] (1, 2) (1, 1) None
      true true true = Ok chunks
    /\ Forall (fun c =>
                 Z.of_nat (length (Chunk.sequence c)) = 1 + 2 + 1
                 /\ Chunk.seq_focus_pos c = 1
                 /\ Z.of_nat (length (Chunk.seq_to_sig_map c)) = 1 + 2 + 2)
         chunks.
Proof.
  eexists. split; [vm_compute; reflexivity|].
  apply (load_chunks_seq_mode_width [example_read] None motif_CG []
           (1, 2) (1, 1) None true true); [simpl; lia|].
  vm_compute. reflexivity.
Defined.

(** ** Provenance of the chunks *)

Lemma scan_sound p s i skip start :
  start ∈ Motif.scan p s i skip ->
  Motif.match_prefix p (drop (start - i) s) = true.
Proof.
  revert i skip. induction s as [|c s IH]; intros i skip Hin; simpl in Hin.
  - destruct skip; [|by apply elem_of_nil in Hin].
    destruct (Motif.match_prefix p []) eqn:E; [|by apply elem_of_nil in Hin].
    by rewrite drop_nil.
  - destruct skip as [|k].
    + destruct (Motif.match_prefix p (c :: s)) eqn:E.
      * apply elem_of_cons in Hin as [->|Hin].
        { by rewrite Nat.sub_diag. }
        pose proof (scan_bounds _ _ _ _ _ Hin) as [Hle _].
        apply IH in Hin.
        by replace (start - i)%nat with (S (start - S i)) by lia.
      * pose proof (scan_bounds _ _ _ _ _ Hin) as [Hle _].
        apply IH in Hin.
        by replace (start - i)%nat with (S (start - S i)) by lia.
    + pose proof (scan_bounds _ _ _ _ _ Hin) as [Hle _].
      apply IH in Hin.
      by replace (start - i)%nat with (S (start - S i)) by lia.
Qed.

Lemma match_prefix_take p l :
  Motif.match_prefix p (take (length p) l) = Motif.match_prefix p l.
Proof.
  revert l. induction p as [|cls p IH]; intros [|c l]; simpl; try done.
  by rewrite IH.
Qed.

Lemma motif_pos_match motif focus_offset full read m :
  m ∈ motif_pos motif focus_offset full read ->
  Motif.match_prefix (Motif.pattern motif)
    (Py.slice (RemoraRead.seq read) (m - Motif.focus_pos motif)
       (m + Motif.num_bases_after_focus motif + 1)) = true
  /\ (full = false -> focus_offset = Some m).
Proof.
  unfold motif_pos. destruct full.
  - intros Hin. apply list_elem_of_fmap in Hin as (start & -> & Hin).
    split; [|done]. unfold Motif.finditer in Hin. apply scan_sound in Hin.
    unfold Motif.num_bases_after_focus.
    replace (Z.of_nat start + Motif.focus_pos motif - Motif.focus_pos motif)
      with (Z.of_nat start) by lia.
    replace (Z.of_nat start + Motif.focus_pos motif
             + (Z.of_nat (length (Motif.pattern motif))
                - Motif.focus_pos motif - 1) + 1)
      with (Z.of_nat start + Z.of_nat (length (Motif.pattern motif))) by lia.
    rewrite slice_nonneg, match_prefix_take.
    by rewrite Nat.sub_0_r in Hin.
  - destruct focus_offset as [fo|]; [|by intros ?%elem_of_nil].
    destruct (fo >=? _); [by intros ?%elem_of_nil|].
    destruct (Motif.match_prefix _ _) eqn:E; simpl;
      [|by intros ?%elem_of_nil].
    intros Hin. apply list_elem_of_singleton in Hin as ->. done.
Qed.

(** X4: every chunk that [load_chunks] returns comes from one of the input
    reads: it carries that read's [read_id], its [read_seq_pos] is one of
    the focus positions visited in that read, the motif matches the read
    around that position, and its label is [label_conv[int_seq[pos]]], or
    [-1] for a read without [int_seq].  Outside full mode the position is
    the given focus offset. *)
Theorem load_chunks_chunk_origin reads num_chunks motif label_conv
    chunk_context kmer_context_bases focus_offset fixed base_pred full chunks :
  load_chunks reads num_chunks motif label_conv chunk_context
    kmer_context_bases focus_offset fixed base_pred full = Ok chunks ->
  Forall (fun c =>
            exists read,
              read ∈ reads
              /\ Chunk.read_id c = RemoraRead.read_id read
              /\ Chunk.read_seq_pos c ∈ motif_pos motif focus_offset full read
              /\ Motif.match_prefix (Motif.pattern motif)
                   (Py.slice (RemoraRead.seq read)
                      (Chunk.read_seq_pos c - Motif.focus_pos motif)
                      (Chunk.read_seq_pos c
                       + Motif.num_bases_after_focus motif + 1)) = true
              /\ chunk_label label_conv read (Chunk.read_seq_pos c)
                 = Ok (Chunk.label c)
              /\ (full = false -> focus_offset = Some (Chunk.read_seq_pos c)))
    chunks.
Proof.
  intros H. apply load_chunks_origin in H.
  eapply Forall_impl; [exact H|]. clear H. simpl.
  intros c (read & m & Hread & Hm & sfp & ss & se & sqs & sqe & lab
            & _ & _ & Hlab & Htry).
  apply try_chunk_fields in Htry
    as (_ & _ & _ & _ & _ & -> & Hid & -> & _).
  exists read. pose proof (motif_pos_match _ _ _ _ _ Hm) as [Hmatch Hfo].
  auto 10.
Qed.

Lemma load_chunks_chunk_origin_witness :
  exists chunks,
    load_chunks [example_read] None motif_CG [] (5, 5) (1, 1) None
      false false true = Ok chunks
    /\ Forall (fun c =>
                 exists read,
                   read ∈ [example_read]
                   /\ Chunk.read_id c = RemoraRead.read_id read
                   /\ Chunk.read_seq_pos c ∈ motif_pos motif_CG None true read
                   /\ Motif.match_prefix (Motif.pattern motif_CG)
                        (Py.slice (RemoraRead.seq read)
                           (Chunk.read_seq_pos c - Motif.focus_pos motif_CG)
                           (Chunk.read_seq_pos c
                            + Motif.num_bases_after_focus motif_CG + 1)) = true
                   /\ chunk_label [] read (Chunk.read_seq_pos c)
                      = Ok (Chunk.label c)
                   /\ (true = false -> None = Some (Chunk.read_seq_pos c)))
         chunks.
Proof.
  eexists. split; [vm_compute; reflexivity|].
  apply (load_chunks_chunk_origin [example_read] None motif_CG []
           (5, 5) (1, 1) None false false true).
  vm_compute. reflexivity.
Defined.

(** ** How far the cap can be exceeded *)

Section CapBound.

Variable n : Z.
Variable motif : Motif.t.
Variable label_conv : list Z.
Variable chunk_context : Z * Z.
Variable kmer_context_bases : Z * Z.
Variable focus_offset : option Z.
Variable fixed_seq_len_chunks : bool.
Variable base_pred : bool.
Variable full : bool.

Lemma pos_loop_cap read ms st st' :
  pos_loop (Some n) label_conv chunk_context kmer_context_bases
    fixed_seq_len_chunks base_pred read ms st = Ok st' ->
  Z.of_nat (length st'.1) <= Z.max (n - 1) (Z.of_nat (length st.1)) + 1.
Proof.
  revert st. induction ms as [|m ms IH]; intros st H; simpl in H.
  - simplify_eq. lia.
  - apply bind_Ok in H as ([fl st1] & Hstep & H).
    apply pos_step_origin in Hstep as [[-> Hst]|(c & Hst & -> & _)].
    + apply IH in H. rewrite Hst in H. done.
    + unfold cap_reached in H. rewrite <- Hst in H.
      destruct (Z.of_nat (length st1.1) >=? n) eqn:E.
      * simplify_eq. rewrite Hst, length_app. simpl. lia.
      * apply IH in H. rewrite Hst, length_app in *. simpl in *. lia.
Qed.

Lemma read_step_cap st read st' :
  read_step (Some n) motif label_conv chunk_context kmer_context_bases
    focus_offset fixed_seq_len_chunks base_pred full st read = Ok st' ->
  Z.of_nat (length st'.1) <= Z.max (n - 1) (Z.of_nat (length st.1)) + 1.
Proof.
  unfold read_step. destruct full.
  - apply pos_loop_cap.
  - destruct focus_offset as [fo|]; [|done].
    destruct (fo >=? _); [intros; simplify_eq; simpl; lia|].
    destruct (negb _); [intros; simplify_eq; simpl; lia|].
    apply pos_loop_cap.
Qed.

Lemma reads_loop_cap reads st st' :
  reads_loop (Some n) motif label_conv chunk_context kmer_context_bases
    focus_offset fixed_seq_len_chunks base_pred full reads st = Ok st' ->
  Z.of_nat (length st'.1)
  <= Z.max (n - 1) (Z.of_nat (length st.1)) + Z.of_nat (length reads).
Proof.
  revert st. induction reads as [|read reads IH]; intros st H; simpl in H.
  - simplify_eq. simpl. lia.
  - apply bind_Ok in H as (st1 & Hstep & H).
    apply read_step_cap in Hstep. apply IH in H. simpl length. lia.
Qed.

End CapBound.

(** X5: with [num_chunks = n], [load_chunks] returns at most
    [max(n, 1) + len(reads) - 1] chunks: the [break] ends the position loop
    of one read only, so that every further read can add one chunk beyond
    the cap, and no more than one. *)
Theorem load_chunks_cap_bound reads n motif label_conv chunk_context
    kmer_context_bases focus_offset fixed base_pred full chunks :
  load_chunks reads (Some n) motif label_conv chunk_context
    kmer_context_bases focus_offset fixed base_pred full = Ok chunks ->
  Z.of_nat (length chunks) <= Z.max n 1 + Z.of_nat (length reads) - 1.
Proof.
  intros H. apply load_chunks_Ok_run in H as (hist & H).
  unfold load_chunks_run in H.
  assert (reads_loop (Some n) motif label_conv chunk_context
            kmer_context_bases focus_offset fixed base_pred
            full reads ([], ∅) = Ok (chunks, hist)) as Hrun.
  { revert H. by destruct focus_offset, full. }
  apply reads_loop_cap in Hrun. simpl in Hrun. lia.
Qed.

Lemma load_chunks_cap_bound_witness :
  exists chunks,
    load_chunks [example_read; example_read] (Some 1) motif_CG [] (5, 5)
      (1, 1) None false false true = Ok chunks
    /\ Z.of_nat (length chunks) <= Z.max 1 1 + Z.of_nat 2 - 1.
Proof.
  eexists. split; [vm_compute; reflexivity|].
  apply (load_chunks_cap_bound [example_read; example_read] 1 motif_CG []
           (5, 5) (1, 1) None false false true).
  vm_compute. reflexivity.
Defined.

(** ** The sequence window of a signal window *)

(** X1: on a read whose map is non-decreasing, the binary searches of
    [extract_chunk_from_read] pick the sequence window that brackets the
    signal window: [seq_start] is the last base whose map entry is at most
    [sig_start] and [seq_end] the number of bases whose map entry lies
    before [sig_end].  Extraction by signal coordinates is extraction by
    these sequence coordinates, also when only one of the two bounds is
    missing. *)
Theorem extract_chunk_from_read_signal_window read kc ss se lab sfp rid rsp :
  non_decreasing (RemoraRead.seq_to_sig_map read) ->
  exists s e,
    seq_bounds read ss se None None = (s, e)
    /\ -1 <= s < Z.of_nat (length (RemoraRead.seq_to_sig_map read))
    /\ 0 <= e <= Z.of_nat (length (RemoraRead.seq_to_sig_map read))
    /\ (forall i x, RemoraRead.seq_to_sig_map read !! i = Some x ->
          (x <= ss <-> Z.of_nat i <= s))
    /\ (forall i x, RemoraRead.seq_to_sig_map read !! i = Some x ->
          (x < se <-> Z.of_nat i < e))
    /\ forall sqs sqe,
         sqs = None \/ sqe = None ->
         Chunk.extract_chunk_from_read read kc ss se lab sqs sqe sfp rid rsp
         = Chunk.extract_chunk_from_read read kc ss se lab (Some s) (Some e)
             sfp rid rsp.
Proof.
  intros Hnd.
  destruct (searchsorted_spec _ ss Py.Right Hnd) as [Hr1 Hr2].
  destruct (searchsorted_spec _ se Py.Left Hnd) as [Hl1 Hl2].
  eexists _, _. split; [reflexivity|].
  split; [lia|]. split; [lia|]. split; [|split].
  - intros i x Hx. specialize (Hr2 i x Hx). simpl in Hr2. lia.
  - intros i x Hx. specialize (Hl2 i x Hx). simpl in Hl2. lia.
  - intros sqs sqe [-> | ->]; [done|]. by destruct sqs.
Qed.

Lemma extract_chunk_from_read_signal_window_witness :
  exists s e,
    seq_bounds example_read 15 35 None None = (s, e)
    /\ -1 <= s < Z.of_nat (length (RemoraRead.seq_to_sig_map example_read))
    /\ 0 <= e <= Z.of_nat (length (RemoraRead.seq_to_sig_map example_read))
    /\ (forall i x, RemoraRead.seq_to_sig_map example_read !! i = Some x ->
          (x <= 15 <-> Z.of_nat i <= s))
    /\ (forall i x, RemoraRead.seq_to_sig_map example_read !! i = Some x ->
          (x < 35 <-> Z.of_nat i < e))
    /\ forall sqs sqe,
         sqs = None \/ sqe = None ->
         Chunk.extract_chunk_from_read example_read (1, 1) 15 35 (-1) sqs sqe
           25 None 2
         = Chunk.extract_chunk_from_read example_read (1, 1) 15 35 (-1)
             (Some s) (Some e) 25 None 2.
Proof.
  apply (extract_chunk_from_read_signal_window example_read (1, 1) 15 35 (-1)
           25 None 2).
  simpl. lia.
Defined.

(** ** Masking the focus base *)

Lemma masked_focus c k :
  (k < length (Chunk.sequence c))%nat ->
  Chunk.sequence (masked c k) !! k = Some "N"%char
  /\ length (Chunk.sequence (masked c k)) = length (Chunk.sequence c)
  /\ Chunk.seq_focus_pos (masked c k) = Chunk.seq_focus_pos c.
Proof.
  intros Hk. unfold masked. simpl.
  by rewrite list_lookup_insert_eq, length_insert.
Qed.

(** X6: for a focus index inside the sequence other than [-1],
    [mask_focus_base] replaces exactly the base at that index (a negative
    index counting from the end, as Python does) by [N] and drops the
    cached encoding, or leaves the chunk as it is when that base is [N]
    already.  The length of the sequence is kept, and the operation is
    idempotent: a second call changes nothing. *)
Theorem mask_focus_base_idempotent c k b :
  Py.norm_index (length (Chunk.sequence c)) (Chunk.seq_focus_pos c) = Some k ->
  Chunk.seq_focus_pos c <> -1 ->
  Chunk.sequence c !! k = Some b ->
  exists c',
    Chunk.mask_focus_base c = Ok c'
    /\ c' = (if Ascii.eqb b "N" then c else masked c k)
    /\ Chunk.sequence c' = <[k := "N"%char]> (Chunk.sequence c)
    /\ Chunk.mask_focus_base c' = Ok c'.
Proof.
  intros Hk Hf Hb. eexists. split; [by apply mask_focus_base_norm|].
  split; [done|].
  pose proof (lookup_lt_Some _ _ _ Hb) as Hlt.
  destruct (Ascii.eqb b "N") eqn:E.
  - apply Ascii.eqb_eq in E as ->. split.
    + by rewrite list_insert_id.
    + by rewrite (mask_focus_base_norm c k "N").
  - split; [done|].
    destruct (masked_focus c k Hlt) as (HN & Hlen & Hfoc).
    rewrite (mask_focus_base_norm (masked c k) k "N"); try done.
    all: by rewrite ?Hlen, ?Hfoc.
Qed.

Lemma mask_focus_base_idempotent_witness :
  exists c',
    Chunk.mask_focus_base example_chunk = Ok c'
    /\ c' = (if Ascii.eqb "A" "N" then example_chunk else masked example_chunk 0)
    /\ Chunk.sequence c' = <[O := "N"%char]> (Chunk.sequence example_chunk)
    /\ Chunk.mask_focus_base c' = Ok c'.
Proof.
  apply (mask_focus_base_idempotent example_chunk O "A"%char);
    [reflexivity | simpl; lia | reflexivity].
Defined.

(** X7: the edge cases of [mask_focus_base].  A focus index outside
    [-len, len) raises [IndexError].  With focus index [-1] and a last base
    other than [N], the slice [sequence[seq_focus_pos + 1:]] is the whole
    sequence, so that the result is [sequence[:-1] + "N" + sequence]: twice
    as long as before. *)
Theorem mask_focus_base_edge c :
  (~ (- Z.of_nat (length (Chunk.sequence c)) <= Chunk.seq_focus_pos c
      < Z.of_nat (length (Chunk.sequence c))) ->
   Chunk.mask_focus_base c = Raise (IndexError "string index out of range"))
  /\ (forall b,
        Chunk.seq_focus_pos c = -1 ->
        last (Chunk.sequence c) = Some b ->
        b <> "N"%char ->
        exists c',
          Chunk.mask_focus_base c = Ok c'
          /\ Chunk.sequence c'
             = removelast (Chunk.sequence c) ++ "N"%char :: Chunk.sequence c
          /\ length (Chunk.sequence c')
             = (2 * length (Chunk.sequence c))%nat).
Proof.
  split.
  - intros Hout. unfold Chunk.mask_focus_base, Py.getitem.
    destruct (Py.norm_index _ _) as [k|] eqn:Hk; [|done].
    apply norm_index_Some_iff in Hk. lia.
  - intros b Hf Hlast Hb. unfold Chunk.mask_focus_base. rewrite Hf.
    apply (getitem_last (fun _ _ => Py.str_index_error)) in Hlast as Hget.
    rewrite Hget. simpl.
    destruct (Ascii.eqb b "N") eqn:E; [by apply Ascii.eqb_eq in E|].
    eexists. split; [reflexivity|]. simpl.
    assert (0 < length (Chunk.sequence c))%nat as Hpos.
    { destruct (Chunk.sequence c); [done|simpl; lia]. }
    assert (Py.slice_to (Chunk.sequence c) (-1)
            = removelast (Chunk.sequence c)) as ->.
    { unfold Py.slice_to, Py.slice_index. simpl.
      rewrite removelast_firstn_len. f_equal. lia. }
    assert (Py.slice_from (Chunk.sequence c) (-1 + 1) = Chunk.sequence c)
      as ->.
    { unfold Py.slice_from, Py.slice_index. simpl.
      replace (Z.to_nat (0 `min` _)) with O by lia. done. }
    split; [done|].
    rewrite length_app, removelast_firstn_len, length_take. simpl. lia.
Qed.

Lemma mask_focus_base_edge_witness :
  exists c',
    Chunk.mask_focus_base
      (Chunk.mk [(0 # 1)%Q; (0 # 1)%Q] (list_ascii_of_string "AC") [0; 1; 2]
         [] [] 0 (-1) (-1) None 1 None None) = Ok c'
    /\ Chunk.sequence c' = list_ascii_of_string "ANAC"
    /\ length (Chunk.sequence c') = 4%nat.
Proof.
  apply (proj2 (mask_focus_base_edge
                  (Chunk.mk [(0 # 1)%Q; (0 # 1)%Q] (list_ascii_of_string "AC")
                     [0; 1; 2] [] [] 0 (-1) (-1) None 1 None None))
           "C"%char); [reflexivity | reflexivity | discriminate].
Defined.

(** ** The context bases of a chunk *)

Lemma slice_app {A} (l : list A) a b c :
  0 <= a <= b -> b <= c ->
  Py.slice l a b ++ Py.slice l b c = Py.slice l a c.
Proof.
  intros Hab Hbc.
  replace b with (a + (b - a)) at 1 by lia.
  replace c with (b + (c - b)) at 1 by lia.
  replace c with (a + (c - a)) at 2 by lia.
  rewrite !slice_Z by lia.
  replace (Z.to_nat b) with (Z.to_nat a + Z.to_nat (b - a))%nat by lia.
  rewrite <- drop_drop, take_take_drop. f_equal. lia.
Qed.

(** X8: for a sequence window [seq_start <= seq_end] inside the read,
    [extract_chunk_from_read] succeeds exactly when the read has
    [kmer_context_bases[0]] bases before the window and
    [kmer_context_bases[1]] bases after it, and fails with "Invalid context
    seq extracted" otherwise (context is never padded).  On success the
    context and the sequence of the chunk form one contiguous stretch of
    the read: [seq_w_context] is
    [read.seq[seq_start - before : seq_end + after]]. *)
Theorem extract_chunk_from_read_context read kb ka ss se lab s e sfp rid rsp :
  0 <= s <= e ->
  e <= Z.of_nat (length (RemoraRead.seq read)) ->
  s < Z.of_nat (length (RemoraRead.seq_to_sig_map read)) ->
  (0 <= kb <= s /\ 0 <= ka /\ e + ka <= Z.of_nat (length (RemoraRead.seq read)) ->
   exists c,
     Chunk.extract_chunk_from_read read (kb, ka) ss se lab (Some s) (Some e)
       sfp rid rsp = Ok c
     /\ Chunk.seq_w_context c = Py.slice (RemoraRead.seq read) (s - kb) (e + ka)
     /\ Z.of_nat (Chunk.kmer_len c) = kb + ka + 1)
  /\ (~ (0 <= kb <= s /\ 0 <= ka
         /\ e + ka <= Z.of_nat (length (RemoraRead.seq read))) ->
      Chunk.extract_chunk_from_read read (kb, ka) ss se lab (Some s) (Some e)
        sfp rid rsp
      = Raise (RemoraError "Invalid context seq extracted")).
Proof.
  intros Hse He Hs. unfold Chunk.extract_chunk_from_read.
  set (m0 := Py.slice (RemoraRead.seq_to_sig_map read) s (e + 1)).
  assert (0 < length m0)%nat as Hm0.
  { subst m0. unfold Py.slice, Py.slice_index.
    rewrite length_take, length_drop.
    destruct (s <? 0) eqn:E1; [lia|]. destruct (e + 1 <? 0) eqn:E2; lia. }
  assert (exists m1, Py.setitem m0 0 ss = Ok m1 /\ length m1 = length m0)
    as (m1 & -> & Hm1).
  { unfold Py.setitem. rewrite norm_index_nonneg by lia.
    eexists. split; [done|]. by rewrite length_insert. }
  assert (exists m2, Py.setitem m1 (-1) se = Ok m2) as (m2 & Hm2).
  { unfold Py.setitem.
    destruct (Py.norm_index (length m1) (-1)) as [k|] eqn:Hk; [eauto|].
    unfold Py.norm_index in Hk. repeat case_match; simplify_eq; lia. }
  simpl. rewrite Hm2. simpl.
  set (before := Py.slice (RemoraRead.seq read) (0 `max` (s - kb)) s).
  set (after := Py.slice (RemoraRead.seq read) e (e + ka)).
  assert (Z.of_nat (length before) = Z.max 0 (s - Z.max 0 (s - kb))) as Hb.
  { apply slice_length_inside; lia. }
  assert (0 <= e + ka ->
          Z.of_nat (length after)
          = Z.max 0 (Z.min (e + ka) (Z.of_nat (length (RemoraRead.seq read))) - e))
    as Ha.
  { intros Hnn. subst after. unfold Py.slice, Py.slice_index.
    rewrite length_take, length_drop.
    destruct (e <? 0) eqn:E1; [lia|]. destruct (e + ka <? 0) eqn:E2; lia. }
  split.
  - intros (Hkb & Hka & Hend).
    destruct (negb (Z.of_nat (length before) =? kb)
              || negb (Z.of_nat (length after) =? ka)) eqn:Hctx.
    { specialize (Ha ltac:(lia)). lia. }
    eexists. split; [reflexivity|]. unfold Chunk.seq_w_context, Chunk.kmer_len.
    simpl. fold before after. split.
    + subst before after. replace (0 `max` (s - kb)) with (s - kb) by lia.
      rewrite slice_app by lia. rewrite slice_app by lia. done.
    + specialize (Ha ltac:(lia)). lia.
  - intros Hno.
    destruct (negb (Z.of_nat (length before) =? kb)
              || negb (Z.of_nat (length after) =? ka)) eqn:Hctx; [done|].
    exfalso. apply Hno.
    destruct (decide (0 <= e + ka)) as [Hnn|Hnn].
    + specialize (Ha Hnn). lia.
    + lia.
Qed.

Lemma extract_chunk_from_read_context_witness :
  exists c,
    Chunk.extract_chunk_from_read example_read (1, 2) 10 30 (-1)
      (Some 1) (Some 3) 15 None 1 = Ok c
    /\ Chunk.seq_w_context c = Py.slice (RemoraRead.seq example_read) (1 - 1) (3 + 2)
    /\ Z.of_nat (Chunk.kmer_len c) = 1 + 2 + 1.
Proof.
  apply (proj1 (extract_chunk_from_read_context example_read 1 2 10 30 (-1)
                  1 3 15 None 1 ltac:(lia) ltac:(simpl; lia)
                  ltac:(simpl; lia)));
    simpl; lia.
Defined.

(** ** The entries of the encoding *)

Lemma sum_list_append l k : sum_list (l ++ k) = (sum_list l + sum_list k)%nat.
Proof. induction l as [|x l IH]; simpl; [done|]. rewrite IH. lia. Qed.

Lemma expand_lookup d (row : list bool) i di b (j : nat) :
  d !! i = Some di ->
  row !! i = Some b ->
  (sum_list (Z.to_nat <$> take i d) <= j
   < sum_list (Z.to_nat <$> take i d) + Z.to_nat di)%nat ->
  expand d row !! j = Some b.
Proof.
  intros Hd Hr Hj.
  replace j with (sum_list (Z.to_nat <$> take i d)
                  + (j - sum_list (Z.to_nat <$> take i d)))%nat by lia.
  rewrite <- lookup_drop, expand_drop.
  rewrite (drop_S _ _ _ Hd), (drop_S _ _ _ Hr).
  unfold expand. simpl.
  rewrite lookup_app_l by (rewrite length_replicate; lia).
  apply lookup_replicate_2. lia.
Qed.

Lemma window_at_lookup c (o i : nat) :
  (i < length (Chunk.sequence c))%nat ->
  window_at c (Z.of_nat o) !! i = Chunk.seq_w_context c !! (o + i)%nat.
Proof.
  intros Hi. unfold window_at. rewrite slice_nonneg.
  by rewrite lookup_take_lt, lookup_drop.
Qed.

Lemma enc_kmers_total_lookup c (o ch : nat) :
  (o < Chunk.kmer_len c)%nat -> (ch < 4)%nat ->
  enc_kmers_total c !! (4 * o + ch)%nat
  = Some ((fun b => nth ch (base_bits b) false) <$> window_at c (Z.of_nat o)).
Proof.
  intros Ho Hch. unfold enc_kmers_total.
  replace (4 * o + ch)%nat with (o * 4 + ch)%nat by lia.
  apply (join_lookup_Some_same_length' 4); [|done|].
  - apply Forall_fmap, Forall_forall. by intros x _.
  - eexists. split.
    + rewrite list_lookup_fmap, lookup_seqZ_lt by lia. simpl.
      by rewrite Z.add_0_l.
    + unfold block_of. rewrite list_lookup_fmap.
      by rewrite lookup_seq_lt by (unfold ENCODING_LEN; lia).
Qed.

(** X9: the content of the encoding of a well-formed chunk.  The entry at
    feature row [4 * o + ch] and signal column [j] is bit [ch] of
    [BASE_ENCODINGS[b]], where [b] is the base at index [o + i] of
    [seq_w_context] and [i] is the base whose signal span
    [seq_to_sig_map[i] <= j < seq_to_sig_map[i + 1]] holds the sample: every
    sample column carries the one-hot codes of the [kmer_len] bases around
    its own base. *)
Theorem seq_nn_input_entries kb ka c :
  chunk_wf c ->
  chunk_valid kb ka c ->
  exists v c',
    Chunk.seq_nn_input c = Ok (v, c')
    /\ forall (o ch i j : nat) x y b,
         (o < Chunk.kmer_len c)%nat ->
         (ch < 4)%nat ->
         Chunk.seq_to_sig_map c !! i = Some x ->
         Chunk.seq_to_sig_map c !! S i = Some y ->
         x <= Z.of_nat j < y ->
         Chunk.seq_w_context c !! (o + i)%nat = Some b ->
         exists bits,
           BASE_ENCODINGS b = Ok bits
           /\ v !! (4 * o + ch)%nat ≫= (.!! j) = bits !! ch.
Proof.
  intros Hwf Hval.
  pose proof (encode_chunk_total _ _ _ Hwf Hval) as Henc.
  pose proof Hwf as (Hbase & _ & _ & _ & Hcoh).
  destruct (seq_nn_input_coherent _ _ Hcoh Henc) as (c' & Hnn & _).
  exists (encode_total c), c'. split; [done|].
  intros o ch i j x y b Ho Hch Hx Hy Hj Hb.
  assert (is_base b) as Hib.
  { rewrite Forall_lookup in Hbase. eauto. }
  exists (base_bits b). split; [by apply BASE_ENCODINGS_total|].
  destruct (wf_valid_map _ _ _ Hwf Hval) as (Hlen & Hn & _).
  assert (i < length (Chunk.sequence c))%nat as Hi.
  { apply lookup_lt_Some in Hy. lia. }
  unfold encode_total, tensor. rewrite list_lookup_fmap.
  rewrite enc_kmers_total_lookup by done. simpl.
  destruct (lookup_lt_is_Some_2 (Py.diff (Chunk.seq_to_sig_map c)) i)
    as [di Hdi].
  { rewrite length_diff. lia. }
  destruct (samples_before _ _ _ _ _ Hwf Hval Hx) as [Hx0 Hsx].
  destruct (samples_before _ _ _ _ _ Hwf Hval Hy) as [Hy0 Hsy].
  rewrite (take_S_r _ _ _ Hdi), fmap_app, sum_list_append in Hsy. simpl in Hsy.
  rewrite (expand_lookup _ _ i di (nth ch (base_bits b) false)).
  - simpl. symmetry.
    destruct Hib as [->|[->|[->|[->| ->]]]];
      do 4 (destruct ch as [|ch]; [reflexivity|]); lia.
  - done.
  - by rewrite list_lookup_fmap, window_at_lookup, Hb.
  - lia.
Qed.

Lemma seq_nn_input_entries_witness :
  exists v c',
    Chunk.seq_nn_input example_chunk = Ok (v, c')
    /\ forall (o ch i j : nat) x y b,
         (o < Chunk.kmer_len example_chunk)%nat ->
         (ch < 4)%nat ->
         Chunk.seq_to_sig_map example_chunk !! i = Some x ->
         Chunk.seq_to_sig_map example_chunk !! S i = Some y ->
         x <= Z.of_nat j < y ->
         Chunk.seq_w_context example_chunk !! (o + i)%nat = Some b ->
         exists bits,
           BASE_ENCODINGS b = Ok bits
           /\ v !! (4 * o + ch)%nat ≫= (.!! j) = bits !! ch.
Proof.
  exact (seq_nn_input_entries 1 0 example_chunk example_chunk_wf
           example_chunk_valid).
Defined.

(** ** The batches of one pass *)

Lemma drain_batches ds (k : nat) i fuel :
  dataset_wf ds ->
  0 < RemoraDataset.batch_size ds ->
  0 <= i ->
  i + Z.of_nat k = RemoraDataset.n_batches ds ->
  (k < fuel)%nat ->
  exists batches,
    RemoraDataset.drain fuel (at_batch ds i) = Some (Ok batches)
    /\ RemoraDataset.batch_rows <$> batches
       = (fun j => take (Z.to_nat (RemoraDataset.batch_size ds))
                     (drop (Z.to_nat (j * RemoraDataset.batch_size ds))
                        (RemoraDataset.rows ds)))
           <$> seqZ i (Z.of_nat k).
Proof.
  intros Hwf Hbs. revert i fuel.
  induction k as [|k IH]; intros i fuel Hi Hnb Hfuel;
    (destruct fuel as [|fuel]; [lia|]); simpl.
  - rewrite next_at_end by lia. by exists [].
  - destruct (next_at_batch ds i Hwf Hbs) as (b & Hnext & Hb); [lia|].
    rewrite Hnext.
    destruct (IH (i + 1) fuel) as (batches & Hdrain & Hrows); [lia|lia|lia|].
    rewrite Hdrain. exists (b :: batches). split; [done|].
    rewrite fmap_cons, Hb, Hrows.
    replace (Z.of_nat (S k)) with (Z.succ (Z.of_nat k)) by lia.
    rewrite (seqZ_cons i) by lia. rewrite fmap_cons.
    replace (Z.succ i) with (i + 1) by lia.
    replace (Z.pred (Z.succ (Z.of_nat k))) with (Z.of_nat k) by lia.
    done.
Qed.

Lemma n_batches_inside ds i :
  dataset_wf ds ->
  0 < RemoraDataset.batch_size ds ->
  0 <= i < RemoraDataset.n_batches ds ->
  i * RemoraDataset.batch_size ds < Z.of_nat (RemoraDataset.dataset_len ds)
  /\ (RemoraDataset.drop_last ds = true ->
      (i + 1) * RemoraDataset.batch_size ds
      <= Z.of_nat (RemoraDataset.dataset_len ds)).
Proof.
  intros (_ & _ & _ & _ & _ & Hnb) Hbs. rewrite Hnb.
  set (N := Z.of_nat (RemoraDataset.dataset_len ds)).
  set (bs := RemoraDataset.batch_size ds) in *.
  pose proof (Z.div_mod N bs ltac:(lia)) as Hdm.
  pose proof (Z.mod_pos_bound N bs Hbs) as Hmod.
  intros Hi. split.
  - destruct (RemoraDataset.drop_last ds), (N `mod` bs >? 0) eqn:E;
      simpl in Hi; nia.
  - intros Hdl. rewrite Hdl in Hi. simpl in Hi. nia.
Qed.

(** X10: one pass over a dataset with a positive batch size yields exactly
    [len(ds)] batches.  Batch [i] holds [min(batch_size, dataset_len - i *
    batch_size)] rows: every batch is full except, without [drop_last], a
    last one that holds the remainder; with [drop_last] every batch holds
    exactly [batch_size] rows. *)
Theorem full_pass_batch_sizes chunks batch_size shuffle drop_last
    return_read_data ds shuf_idx fuel :
  RemoraDataset.init chunks batch_size shuffle drop_last return_read_data
    = Ok ds ->
  0 < batch_size ->
  shuf_idx ≡ₚ seq 0 (RemoraDataset.dataset_len ds) ->
  (Z.to_nat (RemoraDataset.n_batches ds) < fuel)%nat ->
  exists batches,
    RemoraDataset.full_pass fuel ds shuf_idx = Some (Ok batches)
    /\ Z.of_nat (length batches) = RemoraDataset.len ds
    /\ (forall (i : nat) b,
          batches !! i = Some b ->
          Z.of_nat (length (RemoraDataset.batch_rows b))
          = Z.min batch_size
              (Z.of_nat (length chunks) - Z.of_nat i * batch_size))
    /\ (drop_last = true ->
        Forall (fun b => Z.of_nat (length (RemoraDataset.batch_rows b))
                         = batch_size) batches).
Proof.
  intros Hinit Hbs Hperm Hfuel.
  apply init_wf in Hinit as (Hwf & Ebs & Esh & Edl & Elen).
  destruct (iter_rows ds shuf_idx Hwf Hperm)
    as (ds' & Hiter & Hds' & Ebs' & Enb' & Hwf' & _ & _ & Hp).
  rewrite <- Ebs in Hbs.
  pose proof (n_batches_covers ds Hwf Hbs) as [Hnb0 _].
  destruct (drain_batches ds' (Z.to_nat (RemoraDataset.n_batches ds)) 0 fuel)
    as (batches & Hdrain & Hrows); try done; try lia.
  rewrite <- Hds' in Hdrain. rewrite Ebs' in Hrows.
  assert (length (RemoraDataset.rows ds') = length chunks) as Hlen'.
  { apply Permutation_length in Hp. rewrite Hp, (length_rows ds Hwf). done. }
  assert (forall (i : nat) b,
            batches !! i = Some b ->
            0 <= Z.of_nat i < RemoraDataset.n_batches ds
            /\ Z.of_nat (length (RemoraDataset.batch_rows b))
               = Z.min (RemoraDataset.batch_size ds)
                   (Z.of_nat (length chunks)
                    - Z.of_nat i * RemoraDataset.batch_size ds)) as Hsize.
  { intros i b Hb.
    assert ((RemoraDataset.batch_rows <$> batches) !! i
            = Some (RemoraDataset.batch_rows b)) as Hbi
      by (by rewrite list_lookup_fmap, Hb).
    rewrite Hrows, list_lookup_fmap in Hbi.
    destruct (seqZ 0 _ !! i) as [j|] eqn:Hj; [|done].
    apply lookup_seqZ in Hj as [-> Hj]. simpl in Hbi. injection Hbi as <-.
    split; [lia|].
    destruct (n_batches_inside ds (Z.of_nat i) Hwf Hbs) as [Hin _]; [lia|].
    rewrite Elen in Hin.
    rewrite length_take, length_drop, Hlen'. lia. }
  exists batches. split; [unfold RemoraDataset.full_pass; by rewrite Hiter|].
  split.
  { apply (f_equal length) in Hrows.
    rewrite !length_fmap, length_seqZ in Hrows.
    unfold RemoraDataset.len. lia. }
  rewrite <- Ebs. split.
  - intros i b Hb. by apply Hsize.
  - intros Hdl. apply Forall_lookup. intros i b Hb.
    destruct (Hsize i b Hb) as [Hi Hsz].
    destruct (n_batches_inside ds (Z.of_nat i) Hwf Hbs Hi) as [_ Hfull].
    rewrite Edl, Elen in Hfull. specialize (Hfull Hdl). lia.
Qed.

Lemma full_pass_batch_sizes_witness :
  exists ds,
    RemoraDataset.init [example_chunk; example_chunk; example_chunk] 2
      true false true = Ok ds
    /\ exists batches,
         RemoraDataset.full_pass 3 ds [2%nat; O; 1%nat] = Some (Ok batches)
         /\ Z.of_nat (length batches) = RemoraDataset.len ds
         /\ (forall (i : nat) b,
               batches !! i = Some b ->
               Z.of_nat (length (RemoraDataset.batch_rows b))
               = Z.min 2 (Z.of_nat 3 - Z.of_nat i * 2))
         /\ (false = true ->
             Forall (fun b => Z.of_nat (length (RemoraDataset.batch_rows b))
                              = 2) batches).
Proof.
  eexists. split; [vm_compute; reflexivity|].
  eapply (full_pass_batch_sizes [example_chunk; example_chunk; example_chunk]
            2 true false true).
  - vm_compute. reflexivity.
  - lia.
  - simpl. eapply perm_trans; [apply perm_swap|]. apply perm_skip, perm_swap.
  - simpl. lia.
Defined.

(** ** The validation split *)

Lemma omap_lookup_seq {A} (l : list A) a n :
  (a + n <= length l)%nat ->
  omap (fun i => l !! i) (seq a n) = take n (drop a l).
Proof.
  revert a. induction n as [|n IH]; intros a Hle; simpl; [done|].
  destruct (lookup_lt_is_Some_2 l a) as [x Hx]; [lia|].
  rewrite Hx, IH by lia. rewrite (drop_S _ _ _ Hx). done.
Qed.

Lemma np_random_shuffle_perm {A} (l : list A) idx :
  idx ≡ₚ seq 0 (length l) -> np_random_shuffle l idx ≡ₚ l.
Proof.
  intros Hp. unfold np_random_shuffle. rewrite Hp.
  rewrite omap_lookup_seq by lia. by rewrite drop_0, firstn_all.
Qed.

Lemma slice_to_take {A} (l : list A) k :
  0 <= k -> Py.slice_to l k = take (Z.to_nat k) l.
Proof.
  intros Hk. unfold Py.slice_to, Py.slice_index.
  destruct (k <? 0) eqn:E; [lia|].
  destruct (decide (k <= Z.of_nat (length l))).
  - f_equal. lia.
  - rewrite !take_ge by lia. done.
Qed.

Lemma slice_from_drop {A} (l : list A) k :
  0 <= k -> Py.slice_from l k = drop (Z.to_nat k) l.
Proof.
  intros Hk. unfold Py.slice_from, Py.slice_index.
  destruct (k <? 0) eqn:E; [lia|].
  destruct (decide (k <= Z.of_nat (length l))).
  - f_equal. lia.
  - rewrite !drop_ge by lia. done.
Qed.

Lemma slice_beyond {A} (l : list A) a b :
  Z.of_nat (length l) <= a -> Py.slice l a b = [].
Proof.
  intros Ha. unfold Py.slice, Py.slice_index.
  destruct (a <? 0) eqn:E; [lia|].
  rewrite drop_ge by lia. by rewrite take_nil.
Qed.

(** [l[v : v + v]] is empty unless [1 <= v < len(l)], also for a negative
    [v], which counts from the end. *)
Lemma slice_twice_empty {A} (l : list A) v :
  ~ (1 <= v < Z.of_nat (length l)) -> Py.slice l v (v + v) = [].
Proof.
  intros Hv. destruct (decide (Z.of_nat (length l) <= v)) as [Hge|Hlt].
  { by apply slice_beyond. }
  unfold Py.slice, Py.slice_index.
  replace (_ - _)%nat with O; [done|].
  destruct (v <? 0) eqn:E1, (v + v <? 0) eqn:E2; lia.
Qed.

Lemma init_nil batch_size shuffle drop_last rrd :
  exists e, RemoraDataset.init [] batch_size shuffle drop_last rrd = Raise e.
Proof.
  unfold RemoraDataset.init. destruct (batch_size =? 0); simpl; eauto.
Qed.

Lemma init_nil_nonzero batch_size shuffle drop_last rrd :
  batch_size <> 0 ->
  RemoraDataset.init [] batch_size shuffle drop_last rrd
  = Raise (ValueError "need at least one array to stack").
Proof.
  intros Hbs. unfold RemoraDataset.init.
  destruct (batch_size =? 0) eqn:E; [lia|]. done.
Qed.

(** The doubles at which the exact product and the rounded one differ:
    [int(5 * 0.6)] is 3, [int(50 * 0.58)] is 28 and [int(1 / 0.1)] is 10. *)
Lemma val_index_rounds :
  PyFloat.value float_0_6
  = Some (5404319552844595 # 9007199254740992)%Q
  /\ val_index 5 float_0_6 = Ok 3
  /\ val_index 50 float_0_58 = Ok 28
  /\ min_chunks float_0_1 = Ok 20.
Proof. repeat split. Qed.

(** A proportion that passes the test [val_prop <= 0.0] and whose inverse
    [int()] accepts is positive: [val_prop > 0] holds. *)
Lemma float_gt_zero x few :
  PyFloat.le x PyFloat.zero = false ->
  too_few_chunks few x = Ok false ->
  PyFloat.gt x PyFloat.zero = true.
Proof. by destruct x as [s|[]| |[] m e]. Qed.

(** The branch of [load_datasets] for a proportion that passes the guard:
    the three datasets are built from slices of the shuffled chunks. *)
Lemma load_datasets_val_branch reads chunk_context batch_size num_chunks fixed
    focus_offset full label_conv motif base_pred val_prop kmer_context_bases
    return_read_data shuf_idx chunks0 v :
  load_chunks reads num_chunks motif label_conv chunk_context
    kmer_context_bases focus_offset fixed base_pred full = Ok chunks0 ->
  PyFloat.le val_prop PyFloat.zero = false ->
  too_few_chunks (length chunks0) val_prop = Ok false ->
  val_index (length (np_random_shuffle chunks0 shuf_idx)) val_prop = Ok v ->
  load_datasets reads chunk_context batch_size num_chunks fixed focus_offset
    full label_conv motif base_pred val_prop kmer_context_bases
    return_read_data shuf_idx
  = (let chunks := np_random_shuffle chunks0 shuf_idx in
     dl_val ← RemoraDataset.init (Py.slice_to chunks v) batch_size false false
                return_read_data;
     dl_val_trn ← RemoraDataset.init (Py.slice chunks v (v + v)) batch_size
                    false false return_read_data;
     dl_trn ← RemoraDataset.init (Py.slice_from chunks v) batch_size true true
                return_read_data;
     Ok (dl_trn, Some dl_val, Some dl_val_trn, chunks)).
Proof.
  intros Hload Hle Hguard Hv. unfold load_datasets.
  rewrite Hload. simpl. rewrite Hle, Hguard. simpl. rewrite Hv. simpl.
  rewrite (float_gt_zero _ _ Hle Hguard).
  destruct (RemoraDataset.init (Py.slice_to _ _) _ _ _ _); simpl; [|done].
  by destruct (RemoraDataset.init (Py.slice _ _ _) _ _ _ _).
Qed.

(** X11: for a validation proportion that is not [<= 0.0], passes the
    guard, and whose [val_idx = int(len(chunks) * val_prop)], computed in
    double arithmetic, satisfies [1 <= val_idx < len(chunks)],
    [load_datasets] splits the shuffled chunks at [val_idx]: the validation
    set holds the first [val_idx] chunks and the training set all the
    others, so that the two partition the chunks; the third dataset holds
    the first [val_idx] training chunks (all of them when there are
    fewer).  The returned chunk list is the shuffled one, a permutation of
    the extracted chunks.  Only the training set shuffles and drops the
    last partial batch. *)
Theorem load_datasets_split reads chunk_context batch_size num_chunks fixed
    focus_offset full label_conv motif base_pred val_prop kmer_context_bases
    return_read_data shuf_idx chunks0 n v :
  load_chunks reads num_chunks motif label_conv chunk_context
    kmer_context_bases focus_offset fixed base_pred full = Ok chunks0 ->
  PyFloat.le val_prop PyFloat.zero = false ->
  too_few_chunks (length chunks0) val_prop = Ok false ->
  val_index (length chunks0) val_prop = Ok v ->
  1 <= v < Z.of_nat (length chunks0) ->
  batch_size <> 0 ->
  Forall (fun c => length (Chunk.signal c) = n) chunks0 ->
  shuf_idx ≡ₚ seq 0 (length chunks0) ->
  exists dl_trn dl_val dl_val_trn chunks val_idx,
    load_datasets reads chunk_context batch_size num_chunks fixed focus_offset
      full label_conv motif base_pred val_prop kmer_context_bases
      return_read_data shuf_idx
    = Ok (dl_trn, Some dl_val, Some dl_val_trn, chunks)
    /\ chunks = np_random_shuffle chunks0 shuf_idx
    /\ chunks ≡ₚ chunks0
    /\ Z.of_nat val_idx = v
    /\ RemoraDataset.sig_tensor dl_val = Chunk.signal <$> take val_idx chunks
    /\ RemoraDataset.labels dl_val = Chunk.label <$> take val_idx chunks
    /\ RemoraDataset.sig_tensor dl_trn = Chunk.signal <$> drop val_idx chunks
    /\ RemoraDataset.labels dl_trn = Chunk.label <$> drop val_idx chunks
    /\ RemoraDataset.sig_tensor dl_val_trn
       = take val_idx (RemoraDataset.sig_tensor dl_trn)
    /\ RemoraDataset.labels dl_val_trn
       = take val_idx (RemoraDataset.labels dl_trn)
    /\ RemoraDataset.dataset_len dl_val = val_idx
    /\ RemoraDataset.dataset_len dl_trn = (length chunks0 - val_idx)%nat
    /\ RemoraDataset.dataset_len dl_val_trn
       = (val_idx `min` (length chunks0 - val_idx))%nat
    /\ (RemoraDataset.shuffle dl_trn = true
        /\ RemoraDataset.drop_last dl_trn = true)
    /\ (RemoraDataset.shuffle dl_val = false
        /\ RemoraDataset.drop_last dl_val = false)
    /\ (RemoraDataset.shuffle dl_val_trn = false
        /\ RemoraDataset.drop_last dl_val_trn = false).
Proof.
  intros Hload Hle Hguard Hv Hk Hbs Hsame Hperm.
  pose proof (load_chunks_accepted _ _ _ _ _ _ _ _ _ _ _ Hload) as [Hacc _].
  pose proof (np_random_shuffle_perm chunks0 shuf_idx Hperm) as Hp.
  assert (length (np_random_shuffle chunks0 shuf_idx) = length chunks0) as Hlen
    by (by apply Permutation_length).
  rewrite (load_datasets_val_branch _ _ _ _ _ _ _ _ _ _ _ _ _ _ _ v Hload Hle
             Hguard) by (by rewrite Hlen).
  set (chunks := np_random_shuffle chunks0 shuf_idx) in *.
  set (k := Z.to_nat v).
  assert (Forall (accepted kmer_context_bases) chunks) as Hacc'
    by (by rewrite Hp).
  assert (Forall (fun c => length (Chunk.signal c) = n) chunks) as Hsame'
    by (by rewrite Hp).
  destruct (init_accepted kmer_context_bases (take k chunks) batch_size
              false false return_read_data n)
    as (dl_val & Hval & _ & Vsh & Vdl & _ & Vlen & Vsig & _ & Vlab & _).
  { by apply Forall_take. }
  { intros E. apply (f_equal length) in E. rewrite length_take in E.
    simpl in E. lia. }
  { done. }
  { by apply Forall_take. }
  destruct (init_accepted kmer_context_bases (take k (drop k chunks))
              batch_size false false return_read_data n)
    as (dl_vt & Hvt & _ & Tsh & Tdl & _ & Tlen & Tsig & _ & Tlab & _).
  { by apply Forall_take, Forall_drop. }
  { intros E. apply (f_equal length) in E.
    rewrite length_take, length_drop in E. simpl in E. lia. }
  { done. }
  { by apply Forall_take, Forall_drop. }
  destruct (init_accepted kmer_context_bases (drop k chunks) batch_size
              true true return_read_data n)
    as (dl_trn & Htrn & _ & Rsh & Rdl & _ & Rlen & Rsig & _ & Rlab & _).
  { by apply Forall_drop. }
  { intros E. apply (f_equal length) in E. rewrite length_drop in E.
    simpl in E. lia. }
  { done. }
  { by apply Forall_drop. }
  exists dl_trn, dl_val, dl_vt, chunks, k.
  split.
  { simpl. rewrite slice_to_take, slice_from_drop by lia.
    rewrite slice_Z by lia. fold k.
    rewrite Hval. simpl. rewrite Hvt. simpl. rewrite Htrn. done. }
  split; [done|]. split; [done|]. split; [lia|].
  rewrite Vsig, Vlab, Rsig, Rlab, Tsig, Tlab, Vlen, Rlen, Tlen.
  rewrite !fmap_take, !length_take, !length_drop, Hlen.
  repeat split; try done; lia.
Qed.

Lemma load_datasets_split_witness :
  exists dl_trn dl_val dl_val_trn chunks val_idx,
    load_datasets [example_read; example_read] (5, 5) 2 None false None true
      [] motif_CG false float_0_5 (1, 1) false [3%nat; 1%nat; O; 2%nat]
    = Ok (dl_trn, Some dl_val, Some dl_val_trn, chunks)
    /\ chunks = np_random_shuffle example_chunks [3%nat; 1%nat; O; 2%nat]
    /\ chunks ≡ₚ example_chunks
    /\ Z.of_nat val_idx = 2
    /\ RemoraDataset.sig_tensor dl_val = Chunk.signal <$> take val_idx chunks
    /\ RemoraDataset.labels dl_val = Chunk.label <$> take val_idx chunks
    /\ RemoraDataset.sig_tensor dl_trn = Chunk.signal <$> drop val_idx chunks
    /\ RemoraDataset.labels dl_trn = Chunk.label <$> drop val_idx chunks
    /\ RemoraDataset.sig_tensor dl_val_trn
       = take val_idx (RemoraDataset.sig_tensor dl_trn)
    /\ RemoraDataset.labels dl_val_trn
       = take val_idx (RemoraDataset.labels dl_trn)
    /\ RemoraDataset.dataset_len dl_val = val_idx
    /\ RemoraDataset.dataset_len dl_trn = (length example_chunks - val_idx)%nat
    /\ RemoraDataset.dataset_len dl_val_trn
       = (val_idx `min` (length example_chunks - val_idx))%nat
    /\ (RemoraDataset.shuffle dl_trn = true
        /\ RemoraDataset.drop_last dl_trn = true)
    /\ (RemoraDataset.shuffle dl_val = false
        /\ RemoraDataset.drop_last dl_val = false)
    /\ (RemoraDataset.shuffle dl_val_trn = false
        /\ RemoraDataset.drop_last dl_val_trn = false).
Proof.
  apply (load_datasets_split [example_read; example_read] (5, 5) 2 None false
           None true [] motif_CG false float_0_5 (1, 1) false
           [3%nat; 1%nat; O; 2%nat] example_chunks 10%nat 2).
  - vm_compute. reflexivity.
  - reflexivity.
  - vm_compute. reflexivity.
  - vm_compute. reflexivity.
  - change (length example_chunks) with 4%nat. lia.
  - lia.
  - vm_compute. repeat constructor.
  - change (length example_chunks) with 4%nat. simpl.
    eapply perm_trans; [apply (Permutation_cons_append _ 3%nat)|]. simpl.
    eapply perm_trans; [apply perm_swap|]. done.
Defined.

(** ** When the split fails *)

(** X12: for a validation proportion that is not [<= 0.0],
    [load_datasets] returns datasets exactly when the guard passes and
    [val_idx = int(len(chunks) * val_prop)] satisfies
    [1 <= val_idx < len(chunks)].  When the guard passes and [val_idx] is
    outside that range, as for [val_prop = 1.0], where it is
    [len(chunks)], one of the slices is empty and the error is NumPy's
    "need at least one array to stack".  When [int()] refuses the product,
    which is infinite or NaN, its error is the one that [load_datasets]
    raises. *)
Theorem load_datasets_split_fails reads chunk_context batch_size num_chunks
    fixed focus_offset full label_conv motif base_pred val_prop
    kmer_context_bases return_read_data shuf_idx chunks0 n :
  load_chunks reads num_chunks motif label_conv chunk_context
    kmer_context_bases focus_offset fixed base_pred full = Ok chunks0 ->
  PyFloat.le val_prop PyFloat.zero = false ->
  batch_size <> 0 ->
  Forall (fun c => length (Chunk.signal c) = n) chunks0 ->
  shuf_idx ≡ₚ seq 0 (length chunks0) ->
  ((exists r,
      load_datasets reads chunk_context batch_size num_chunks fixed
        focus_offset full label_conv motif base_pred val_prop
        kmer_context_bases return_read_data shuf_idx = Ok r)
   <-> too_few_chunks (length chunks0) val_prop = Ok false
       /\ exists v,
            val_index (length chunks0) val_prop = Ok v
            /\ 1 <= v < Z.of_nat (length chunks0))
  /\ (forall v,
        too_few_chunks (length chunks0) val_prop = Ok false ->
        val_index (length chunks0) val_prop = Ok v ->
        ~ (1 <= v < Z.of_nat (length chunks0)) ->
        load_datasets reads chunk_context batch_size num_chunks fixed
          focus_offset full label_conv motif base_pred val_prop
          kmer_context_bases return_read_data shuf_idx
        = Raise (ValueError "need at least one array to stack"))
  /\ (forall e,
        too_few_chunks (length chunks0) val_prop = Ok false ->
        val_index (length chunks0) val_prop = Raise e ->
        load_datasets reads chunk_context batch_size num_chunks fixed
          focus_offset full label_conv motif base_pred val_prop
          kmer_context_bases return_read_data shuf_idx
        = Raise e).
Proof.
  intros Hload Hle Hbs Hsame Hperm.
  pose proof (load_chunks_accepted _ _ _ _ _ _ _ _ _ _ _ Hload) as [Hacc _].
  pose proof (np_random_shuffle_perm chunks0 shuf_idx Hperm) as Hp.
  assert (length (np_random_shuffle chunks0 shuf_idx) = length chunks0) as Hlen
    by (by apply Permutation_length).
  assert (forall v,
            too_few_chunks (length chunks0) val_prop = Ok false ->
            val_index (length chunks0) val_prop = Ok v ->
            ~ (1 <= v < Z.of_nat (length chunks0)) ->
            load_datasets reads chunk_context batch_size num_chunks fixed
              focus_offset full label_conv motif base_pred val_prop
              kmer_context_bases return_read_data shuf_idx
            = Raise (ValueError "need at least one array to stack")) as Hout.
  { intros v Hguard Hv Hk.
    rewrite (load_datasets_val_branch _ _ _ _ _ _ _ _ _ _ _ _ _ _ _ v Hload
               Hle Hguard) by (by rewrite Hlen).
    set (chunks := np_random_shuffle chunks0 shuf_idx) in *. simpl.
    rewrite slice_twice_empty by (by rewrite Hlen).
    rewrite (init_nil_nonzero _ _ _ _ Hbs).
    unfold Py.slice_to.
    destruct (take _ chunks) as [|c cs] eqn:E.
    { by rewrite init_nil_nonzero. }
    destruct (init_accepted kmer_context_bases (c :: cs) batch_size
                false false return_read_data n) as (dl_val & -> & _);
      try done.
    - rewrite <- E. apply Forall_take. by rewrite Hp.
    - rewrite <- E. apply Forall_take. by rewrite Hp. }
  split; [|split; [exact Hout|]].
  - split.
    + intros [r Hr]. unfold load_datasets in Hr. rewrite Hload in Hr.
      simpl in Hr. rewrite Hle in Hr.
      destruct (too_few_chunks (length chunks0) val_prop) as [[]|e] eqn:Hguard;
        simpl in Hr.
      * by destruct (too_few_error _ _).
      * split; [done|]. rewrite Hlen in Hr.
        destruct (val_index (length chunks0) val_prop) as [v|e] eqn:Hv;
          [|done].
        exists v. split; [done|].
        destruct (decide (1 <= v < Z.of_nat (length chunks0))) as [|Hk];
          [done|].
        pose proof (Hout v eq_refl eq_refl Hk) as Hraise.
        unfold load_datasets in Hraise. rewrite Hload in Hraise.
        simpl in Hraise. rewrite Hle, Hguard in Hraise. simpl in Hraise.
        rewrite Hlen, Hv in Hraise. congruence.
      * done.
    + intros (Hguard & v & Hv & Hk).
      rewrite (load_datasets_val_branch _ _ _ _ _ _ _ _ _ _ _ _ _ _ _ v Hload
                 Hle Hguard) by (by rewrite Hlen).
      set (chunks := np_random_shuffle chunks0 shuf_idx) in *. simpl.
      assert (Forall (accepted kmer_context_bases) chunks) as Hacc'
        by (by rewrite Hp).
      assert (Forall (fun c => length (Chunk.signal c) = n) chunks) as Hsame'
        by (by rewrite Hp).
      rewrite slice_to_take, slice_from_drop by lia.
      rewrite slice_Z by lia.
      destruct (init_accepted kmer_context_bases (take (Z.to_nat v) chunks)
                  batch_size false false return_read_data n)
        as (dl_val & -> & _); [by apply Forall_take| |done|by apply Forall_take|].
      { intros E. apply (f_equal length) in E. rewrite length_take in E.
        simpl in E. lia. }
      destruct (init_accepted kmer_context_bases
                  (take (Z.to_nat v) (drop (Z.to_nat v) chunks))
                  batch_size false false return_read_data n)
        as (dl_vt & -> & _);
        [by apply Forall_take, Forall_drop| |done
        |by apply Forall_take, Forall_drop|].
      { intros E. apply (f_equal length) in E.
        rewrite length_take, length_drop in E. simpl in E. lia. }
      destruct (init_accepted kmer_context_bases (drop (Z.to_nat v) chunks)
                  batch_size true true return_read_data n)
        as (dl_trn & -> & _); [by apply Forall_drop| |done|by apply Forall_drop|].
      { intros E. apply (f_equal length) in E. rewrite length_drop in E.
        simpl in E. lia. }
      simpl. eauto.
  - intros e Hguard Hv. unfold load_datasets. rewrite Hload. simpl.
    rewrite Hle, Hguard. simpl. by rewrite Hlen, Hv.
Qed.

(** X12 at the four chunks of two example reads.  With [val_prop = 1.0]
    the guard is [4 < 2] and [val_idx] is 4: [chunks[4:8]] is empty.  With
    the largest double the guard is [4 < 0] and the product is infinite. *)
Lemma load_datasets_split_fails_witness :
  load_datasets [example_read; example_read] (5, 5) 2 None false None true
    [] motif_CG false float_1 (1, 1) false [3%nat; 1%nat; O; 2%nat]
  = Raise (ValueError "need at least one array to stack")
  /\ load_datasets [example_read; example_read] (5, 5) 2 None false None true
       [] motif_CG false float_max (1, 1) false [3%nat; 1%nat; O; 2%nat]
     = Raise (OverflowError "cannot convert float infinity to integer").
Proof.
  assert ([3%nat; 1%nat; O; 2%nat] ≡ₚ seq 0 (length example_chunks)) as Hperm.
  { change (length example_chunks) with 4%nat. simpl.
    eapply perm_trans; [apply (Permutation_cons_append _ 3%nat)|]. simpl.
    eapply perm_trans; [apply perm_swap|]. done. }
  assert (Forall (fun c => length (Chunk.signal c) = 10%nat) example_chunks)
    as Hsame by (vm_compute; repeat constructor).
  split.
  - apply (proj1 (proj2
             (load_datasets_split_fails [example_read; example_read] (5, 5) 2
                None false None true [] motif_CG false float_1 (1, 1) false
                [3%nat; 1%nat; O; 2%nat] example_chunks 10%nat
                eq_refl eq_refl ltac:(lia) Hsame Hperm)) 4).
    + vm_compute. reflexivity.
    + vm_compute. reflexivity.
    + change (length example_chunks) with 4%nat. lia.
  - apply (proj2 (proj2
             (load_datasets_split_fails [example_read; example_read] (5, 5) 2
                None false None true [] motif_CG false float_max (1, 1) false
                [3%nat; 1%nat; O; 2%nat] example_chunks 10%nat
                eq_refl eq_refl ltac:(lia) Hsame Hperm))).
    + vm_compute. reflexivity.
    + vm_compute. reflexivity.
Defined.

(** ** Datasets built from extracted chunks *)

Lemma accepted_tensor_shape kc c v :
  accepted kc c ->
  Chunk._seq_nn_input c = Some v ->
  tensor_shape v
  = ((4 * Z.to_nat (kc.1 + kc.2 + 1))%nat, length (Chunk.signal c)).
Proof.
  intros (Hb & Ha & _ & _ & _ & _ & _ & _ & (v' & Hv' & _ & H4 & Hrows) & _) Hv.
  rewrite Hv in Hv'. injection Hv' as <-.
  unfold tensor_shape, Chunk.kmer_len in *. f_equal; [lia|].
  destruct v as [|row v]; [simpl in H4; lia|].
  apply Forall_cons in Hrows as [Hrow _]. done.
Qed.

Lemma init_shapes kc chunks batch_size shuffle drop_last rrd n :
  Forall (accepted kc) chunks ->
  chunks <> [] ->
  batch_size <> 0 ->
  Forall (fun c => length (Chunk.signal c) = n) chunks ->
  exists ds,
    RemoraDataset.init chunks batch_size shuffle drop_last rrd = Ok ds
    /\ RemoraDataset.dataset_len ds = length chunks
    /\ RemoraDataset.sig_tensor ds = Chunk.signal <$> chunks
    /\ RemoraDataset.labels ds = Chunk.label <$> chunks
    /\ length (RemoraDataset.seq_tensor ds) = length chunks
    /\ Forall (fun s => length s = n) (RemoraDataset.sig_tensor ds)
    /\ Forall (fun t => tensor_shape t
                        = ((4 * Z.to_nat (kc.1 + kc.2 + 1))%nat, n))
         (RemoraDataset.seq_tensor ds).
Proof.
  intros Hacc Hne Hbs Hsame.
  destruct (init_accepted kc chunks batch_size shuffle drop_last rrd n)
    as (ds & Hinit & _ & _ & _ & _ & Hlen & Hsig & Hseq & Hlab & _);
    try done.
  exists ds. split; [done|]. split; [done|]. split; [done|]. split; [done|].
  split; [by rewrite <- (Forall2_length _ _ _ Hseq)|]. split.
  - rewrite Hsig. by apply Forall_fmap.
  - apply Forall_forall. intros t Ht.
    apply list_elem_of_lookup in Ht as [i Ht].
    destruct (Forall2_lookup_r _ _ _ _ _ Hseq Ht) as (c & Hc & Hv).
    rewrite (accepted_tensor_shape kc c t); [|by eapply Forall_lookup_1|done].
    f_equal. by eapply (Forall_lookup_1 _ _ _ _ Hsame).
Qed.

(** X13: when a dataset can be built from the chunks that [load_chunks]
    returned.  A batch size of zero raises [ZeroDivisionError]; otherwise
    construction succeeds exactly when all chunks hold the same number of
    samples, giving parallel buffers with one row per chunk, in chunk
    order, whose encodings all have shape [(4 * kmer_len, samples)]; chunks
    of different signal lengths make [np.stack] raise "all input arrays
    must have the same shape". *)
Theorem init_of_load_chunks reads num_chunks motif label_conv chunk_context
    kmer_context_bases focus_offset fixed base_pred full chunks batch_size
    shuffle drop_last return_read_data :
  load_chunks reads num_chunks motif label_conv chunk_context
    kmer_context_bases focus_offset fixed base_pred full = Ok chunks ->
  (batch_size = 0 ->
   RemoraDataset.init chunks batch_size shuffle drop_last return_read_data
   = Raise (ZeroDivisionError "integer division or modulo by zero"))
  /\ (batch_size <> 0 ->
      forall n,
        Forall (fun c => length (Chunk.signal c) = n) chunks ->
        exists ds,
          RemoraDataset.init chunks batch_size shuffle drop_last
            return_read_data = Ok ds
          /\ RemoraDataset.dataset_len ds = length chunks
          /\ RemoraDataset.sig_tensor ds = Chunk.signal <$> chunks
          /\ RemoraDataset.labels ds = Chunk.label <$> chunks
          /\ length (RemoraDataset.seq_tensor ds) = length chunks
          /\ Forall (fun s => length s = n) (RemoraDataset.sig_tensor ds)
          /\ Forall (fun t =>
                       tensor_shape t
                       = ((4 * Z.to_nat (kmer_context_bases.1
                                         + kmer_context_bases.2 + 1))%nat, n))
               (RemoraDataset.seq_tensor ds))
  /\ (batch_size <> 0 ->
      ~ (exists n, Forall (fun c => length (Chunk.signal c) = n) chunks) ->
      RemoraDataset.init chunks batch_size shuffle drop_last return_read_data
      = Raise (ValueError "all input arrays must have the same shape")).
Proof.
  intros Hload.
  pose proof (load_chunks_accepted _ _ _ _ _ _ _ _ _ _ _ Hload) as [Hacc Hne].
  split; [|split].
  - intros ->. done.
  - intros Hbs n Hsame. by apply init_shapes.
  - intros Hbs Hdiff. unfold RemoraDataset.init.
    destruct (batch_size =? 0) eqn:E; [lia|].
    destruct chunks as [|c rest]; [done|]. simpl.
    destruct (forallb _ _) eqn:Hall; [|done].
    exfalso. apply Hdiff. exists (length (Chunk.signal c)).
    constructor; [done|].
    apply Is_true_true_2, forallb_True in Hall.
    change (list_fmap Chunk.t (list sample) Chunk.signal rest)
      with (Chunk.signal <$> rest) in Hall.
    rewrite Forall_fmap in Hall.
    eapply Forall_impl; [exact Hall|]. intros c' Hc'. simpl in Hc'.
    by apply bool_decide_unpack in Hc'.
Qed.

Lemma init_of_load_chunks_witness :
  (2 = 0 ->
   RemoraDataset.init example_chunks 2 false false false
   = Raise (ZeroDivisionError "integer division or modulo by zero"))
  /\ (2 <> 0 ->
      forall n,
        Forall (fun c => length (Chunk.signal c) = n) example_chunks ->
        exists ds,
          RemoraDataset.init example_chunks 2 false false false = Ok ds
          /\ RemoraDataset.dataset_len ds = length example_chunks
          /\ RemoraDataset.sig_tensor ds = Chunk.signal <$> example_chunks
          /\ RemoraDataset.labels ds = Chunk.label <$> example_chunks
          /\ length (RemoraDataset.seq_tensor ds) = length example_chunks
          /\ Forall (fun s => length s = n) (RemoraDataset.sig_tensor ds)
          /\ Forall (fun t =>
                       tensor_shape t
                       = ((4 * 3)%nat, n))
               (RemoraDataset.seq_tensor ds))
  /\ (2 <> 0 ->
      ~ (exists n, Forall (fun c => length (Chunk.signal c) = n) example_chunks) ->
      RemoraDataset.init example_chunks 2 false false false
      = Raise (ValueError "all input arrays must have the same shape")).
Proof.
  apply (init_of_load_chunks [example_read; example_read] None motif_CG []
           (5, 5) (1, 1) None false false true example_chunks 2 false false
           false).
  vm_compute. reflexivity.
Defined.

Lemma signal_mode_widths reads num_chunks motif label_conv chunk_context
    kmer_context_bases focus_offset base_pred full chunks :
  chunk_context.1 + chunk_context.2 < 2 ^ 31 ->
  load_chunks reads num_chunks motif label_conv chunk_context
    kmer_context_bases focus_offset false base_pred full = Ok chunks ->
  Forall (fun c => length (Chunk.signal c)
                   = Z.to_nat (chunk_context.1 + chunk_context.2)) chunks.
Proof.
  intros Hcc Hload.
  pose proof (load_chunks_origin _ _ _ _ _ _ _ _ _ _ _ Hload) as H.
  eapply Forall_impl; [exact H|]. clear H. simpl.
  intros c (read & m & _ & _ & sfp & ss & se & sqs & sqe & lab
            & _ & Hw & _ & Htry).
  apply window_inr in Hw as (-> & -> & -> & -> & Hss & Hlt & _).
  pose proof (try_chunk_Ok _ _ _ _ _ _ _ _ _ _ _ Htry) as [Hac _].
  pose proof (accepted_map_length _ _ Hac) as [Hlen _].
  apply try_chunk_fields in Htry
    as (Gs & _ & _ & _ & _ & _ & _ & _ & _ & Glast & _).
  destruct Hac as (_ & _ & _ & Hhd & Hpos & Hint & _ & Hsum & _).
  assert (Z.of_nat (length (Chunk.signal c))
          <= chunk_context.1 + chunk_context.2) as Hle.
  { rewrite Gs. etrans; [apply slice_length_bound; lia|]. lia. }
  pose proof (last_of_diff_sum _ _ Hint Hhd Hlen Hsum) as Hl.
  rewrite Hl in Glast by lia. injection Glast as Heq.
  rewrite wrap32_id in Heq; [lia|]. unfold int32. lia.
Qed.

(** X14: in fixed-signal-length mode dataset construction cannot fail on
    shapes.  Without a validation split and with a non-zero batch size,
    [load_datasets] returns whenever [load_chunks] does: one training
    dataset over all chunks in extraction order, whose signal rows all hold
    [chunk_context[0] + chunk_context[1]] samples and whose encodings all
    have shape [(4 * kmer_len, chunk_context[0] + chunk_context[1])]. *)
Theorem load_datasets_signal_mode reads chunk_context batch_size num_chunks
    focus_offset full label_conv motif base_pred val_prop kmer_context_bases
    return_read_data shuf_idx chunks :
  chunk_context.1 + chunk_context.2 < 2 ^ 31 ->
  batch_size <> 0 ->
  PyFloat.le val_prop PyFloat.zero = true ->
  load_chunks reads num_chunks motif label_conv chunk_context
    kmer_context_bases focus_offset false base_pred full = Ok chunks ->
  exists dl_trn,
    load_datasets reads chunk_context batch_size num_chunks false focus_offset
      full label_conv motif base_pred val_prop kmer_context_bases
      return_read_data shuf_idx
    = Ok (dl_trn, None, None, chunks)
    /\ RemoraDataset.dataset_len dl_trn = length chunks
    /\ RemoraDataset.sig_tensor dl_trn = Chunk.signal <$> chunks
    /\ RemoraDataset.labels dl_trn = Chunk.label <$> chunks
    /\ length (RemoraDataset.seq_tensor dl_trn) = length chunks
    /\ Forall (fun s => Z.of_nat (length s)
                        = chunk_context.1 + chunk_context.2)
         (RemoraDataset.sig_tensor dl_trn)
    /\ Forall (fun t =>
                 tensor_shape t
                 = ((4 * Z.to_nat (kmer_context_bases.1
                                   + kmer_context_bases.2 + 1))%nat,
                    Z.to_nat (chunk_context.1 + chunk_context.2)))
         (RemoraDataset.seq_tensor dl_trn).
Proof.
  intros Hcc Hbs Hv Hload.
  pose proof (load_chunks_accepted _ _ _ _ _ _ _ _ _ _ _ Hload) as [Hacc Hne].
  pose proof (signal_mode_widths _ _ _ _ _ _ _ _ _ _ Hcc Hload) as Hsame.
  destruct (init_shapes kmer_context_bases chunks batch_size false false
              return_read_data _ Hacc Hne Hbs Hsame)
    as (ds & Hinit & Hlen & Hsig & Hlab & Hseq & Hsigs & Hshapes).
  exists ds. split.
  { unfold load_datasets. rewrite Hload. simpl.
    rewrite Hv, (float_le_zero_not_gt _ Hv). simpl. by rewrite Hinit. }
  do 4 (split; [done|]). split; [|done].
  eapply Forall_impl; [exact Hsigs|]. intros s Hs. simpl in Hs.
  rewrite Hs.
  destruct chunks as [|c0 ?]; [done|].
  apply Forall_cons in Hsame as [H0 _].
  apply Forall_cons in Hacc as [Hacc0 _].
  destruct Hacc0 as (_ & _ & _ & _ & Hpos & _). lia.
Qed.

Lemma load_datasets_signal_mode_witness :
  exists dl_trn,
    load_datasets [example_read; example_read] (5, 5) 2 None false None true
      [] motif_CG false PyFloat.zero (1, 1) false []
    = Ok (dl_trn, None, None, example_chunks)
    /\ RemoraDataset.dataset_len dl_trn = length example_chunks
    /\ RemoraDataset.sig_tensor dl_trn = Chunk.signal <$> example_chunks
    /\ RemoraDataset.labels dl_trn = Chunk.label <$> example_chunks
    /\ length (RemoraDataset.seq_tensor dl_trn) = length example_chunks
    /\ Forall (fun s => Z.of_nat (length s) = 5 + 5)
         (RemoraDataset.sig_tensor dl_trn)
    /\ Forall (fun t => tensor_shape t = ((4 * 3)%nat, 10%nat))
         (RemoraDataset.seq_tensor dl_trn).
Proof.
  apply (load_datasets_signal_mode [example_read; example_read] (5, 5) 2 None
           None true [] motif_CG false PyFloat.zero (1, 1) false []
           example_chunks).
  - simpl. lia.
  - lia.
  - reflexivity.
  - vm_compute. reflexivity.
Defined.

(** ** Reads from a Taiyaki file *)

Lemma non_decreasing_shift a d :
  non_decreasing a -> non_decreasing ((fun x => x - d) <$> a).
Proof.
  induction a as [|x [|y a] IH]; simpl; [done|done|].
  intros [Hxy Hnd]. split; [lia|]. by apply IH.
Qed.

Lemma collapse_codes (ca : list ascii) (codes : list Z) :
  Forall (fun b => 0 <= b < Z.of_nat (length ca)) codes ->
  exists seq,
    mapM (fun b => Py.getitem (fun _ _ => Py.str_index_error) ca b) codes
    = Ok seq
    /\ length seq = length codes
    /\ forall i b, codes !! i = Some b -> seq !! i = ca !! Z.to_nat b.
Proof.
  intros Hcodes.
  assert (Forall2 (fun b c =>
                     Py.getitem (fun _ _ => Py.str_index_error) ca b = Ok c)
            codes (omap (fun b => ca !! Z.to_nat b) codes)
          /\ forall i b, codes !! i = Some b ->
               omap (fun b => ca !! Z.to_nat b) codes !! i = ca !! Z.to_nat b)
    as [H2 Hl].
  { induction Hcodes as [|b codes Hb _ [IH1 IH2]]; [by split|].
    destruct (lookup_lt_is_Some_2 ca (Z.to_nat b)) as [c Hc]; [lia|].
    simpl. rewrite Hc. split.
    - constructor; [|done]. by apply getitem_nonneg; [lia|].
    - intros [|i] b' Hi; simpl in *; [by simplify_eq|by apply IH2]. }
  eexists. split; [by apply mapM_Ok_intro|].
  split; [by rewrite <- (Forall2_length _ _ _ H2)|done].
Qed.

Lemma from_taiyaki_read_wf_Ok to_str read collapse_alphabet :
  taiyaki_read_wf collapse_alphabet read ->
  exists r first,
    from_taiyaki_read to_str read collapse_alphabet = Ok r
    /\ TaiyakiRead.Ref_to_signal read !! O = Some first
    /\ RemoraRead.seq_to_sig_map r
       = (fun x => x - first) <$> TaiyakiRead.Ref_to_signal read
    /\ RemoraRead.seq_to_sig_map r !! O = Some 0
    /\ length (RemoraRead.seq_to_sig_map r) = S (length (RemoraRead.seq r))
    /\ (non_decreasing (TaiyakiRead.Ref_to_signal read) ->
        non_decreasing (RemoraRead.seq_to_sig_map r))
    /\ length (RemoraRead.seq r) = length (TaiyakiRead.Reference read)
    /\ (forall i b,
          TaiyakiRead.Reference read !! i = Some b ->
          RemoraRead.seq r !! i = collapse_alphabet !! Z.to_nat b)
    /\ RemoraRead.int_seq r = Some (TaiyakiRead.Reference read)
    /\ RemoraRead.sig r = TaiyakiRead.current read
    /\ RemoraRead.read_id r = Some (to_str (TaiyakiRead.read_id read)).
Proof.
  intros [Hlen Hcodes].
  destruct (collapse_codes _ _ Hcodes) as (seq & Hseq & Hslen & Hschars).
  destruct (TaiyakiRead.Ref_to_signal read) as [|first rest] eqn:Hmap;
    [done|].
  eexists _, first. unfold from_taiyaki_read. rewrite Hseq, Hmap. simpl.
  split; [reflexivity|]. simpl.
  split; [done|]. split; [done|]. split; [by rewrite Z.sub_diag|].
  split; [rewrite length_fmap; simpl in *; lia|].
  split; [apply (non_decreasing_shift (first :: rest))|].
  done.
Qed.

(** X15: [from_taiyaki_read] succeeds on a Taiyaki read with one map entry
    more than reference positions and codes inside the collapsed alphabet.
    The map of the result is [Ref_to_signal] re-anchored at its first
    entry: it starts at 0, has the same length and the same differences,
    and stays non-decreasing.  The sequence spells the reference codes in
    the collapsed alphabet, and the codes themselves become [int_seq]. *)
Theorem from_taiyaki_read_reanchors to_str read collapse_alphabet :
  taiyaki_read_wf collapse_alphabet read ->
  exists r first,
    from_taiyaki_read to_str read collapse_alphabet = Ok r
    /\ TaiyakiRead.Ref_to_signal read !! O = Some first
    /\ RemoraRead.seq_to_sig_map r
       = (fun x => x - first) <$> TaiyakiRead.Ref_to_signal read
    /\ RemoraRead.seq_to_sig_map r !! O = Some 0
    /\ length (RemoraRead.seq_to_sig_map r) = S (length (RemoraRead.seq r))
    /\ (non_decreasing (TaiyakiRead.Ref_to_signal read) ->
        non_decreasing (RemoraRead.seq_to_sig_map r))
    /\ length (RemoraRead.seq r) = length (TaiyakiRead.Reference read)
    /\ (forall i b,
          TaiyakiRead.Reference read !! i = Some b ->
          RemoraRead.seq r !! i = collapse_alphabet !! Z.to_nat b)
    /\ RemoraRead.int_seq r = Some (TaiyakiRead.Reference read)
    /\ RemoraRead.sig r = TaiyakiRead.current read
    /\ RemoraRead.read_id r = Some (to_str (TaiyakiRead.read_id read)).
Proof. exact (from_taiyaki_read_wf_Ok to_str read collapse_alphabet). Qed.

Lemma from_taiyaki_read_reanchors_witness :
  exists r first,
    from_taiyaki_read (fun s => s) example_taiyaki_read (list_ascii_of_string "ACGT")
    = Ok r
    /\ TaiyakiRead.Ref_to_signal example_taiyaki_read !! O = Some first
    /\ RemoraRead.seq_to_sig_map r
       = (fun x => x - first) <$> TaiyakiRead.Ref_to_signal example_taiyaki_read
    /\ RemoraRead.seq_to_sig_map r !! O = Some 0
    /\ length (RemoraRead.seq_to_sig_map r) = S (length (RemoraRead.seq r))
    /\ (non_decreasing (TaiyakiRead.Ref_to_signal example_taiyaki_read) ->
        non_decreasing (RemoraRead.seq_to_sig_map r))
    /\ length (RemoraRead.seq r)
       = length (TaiyakiRead.Reference example_taiyaki_read)
    /\ (forall i b,
          TaiyakiRead.Reference example_taiyaki_read !! i = Some b ->
          RemoraRead.seq r !! i = list_ascii_of_string "ACGT" !! Z.to_nat b)
    /\ RemoraRead.int_seq r
       = Some (TaiyakiRead.Reference example_taiyaki_read)
    /\ RemoraRead.sig r = TaiyakiRead.current example_taiyaki_read
    /\ RemoraRead.read_id r
       = Some (TaiyakiRead.read_id example_taiyaki_read).
Proof.
  apply (from_taiyaki_read_reanchors (fun s => s) example_taiyaki_read
           (list_ascii_of_string "ACGT")).
  split; [reflexivity|]. simpl. repeat constructor; lia.
Defined.

Lemma taiyaki_read_wf_read_wf to_str read collapse_alphabet label_conv r :
  taiyaki_read_wf collapse_alphabet read ->
  (length collapse_alphabet <= length label_conv)%nat ->
  from_taiyaki_read to_str read collapse_alphabet = Ok r ->
  read_wf label_conv r /\ RemoraRead.seq_to_sig_map r !! O = Some 0.
Proof.
  intros Hwf Hconv Hr.
  destruct (from_taiyaki_read_wf_Ok to_str read collapse_alphabet Hwf)
    as (r' & first & Hr' & _ & _ & H0 & Hlen & _ & Hslen & _ & Hint & _).
  rewrite Hr in Hr'. injection Hr' as <-.
  split; [|done]. unfold read_wf. rewrite Hint. split; [done|].
  split; [done|]. destruct Hwf as [_ Hcodes].
  eapply Forall_impl; [exact Hcodes|]. simpl. lia.
Qed.

(** X16: loading a Taiyaki file whose reads are all well formed succeeds
    with one read per file entry, in file order, and returns the alphabet
    information unchanged.  The reads satisfy the data model of
    [load_chunks] for every label table that covers the collapsed alphabet,
    with maps that start at 0.  Extraction from them with a well-formed
    motif and a non-negative chunk context, in full mode or with a focus
    offset that is not negative, either returns chunks or fails with "No
    valid chunks extracted", and raises nothing else; with neither [full]
    nor a focus offset it raises the [ValueError] of the argument check. *)
Theorem load_taiyaki_dataset_reads to_str input_msf label_conv :
  Forall (taiyaki_read_wf (MappedSignalReader.collapse_alphabet input_msf))
    (MappedSignalReader.reads input_msf) ->
  (length (MappedSignalReader.collapse_alphabet input_msf)
   <= length label_conv)%nat ->
  exists reads,
    load_taiyaki_dataset to_str input_msf
    = Ok (reads, MappedSignalReader.alphabet input_msf,
          MappedSignalReader.collapse_alphabet input_msf)
    /\ Forall2 (fun tai_read r =>
                  from_taiyaki_read to_str tai_read
                    (MappedSignalReader.collapse_alphabet input_msf) = Ok r)
         (MappedSignalReader.reads input_msf) reads
    /\ Forall (read_wf label_conv) reads
    /\ Forall (fun r => RemoraRead.seq_to_sig_map r !! O = Some 0) reads
    /\ (forall num_chunks motif chunk_context kmer_context_bases focus_offset
               fixed base_pred full,
         motif_wf motif ->
         0 <= chunk_context.1 -> 0 <= chunk_context.2 ->
         full = true \/ (exists fo, focus_offset = Some fo /\ 0 <= fo) ->
         (exists chunks,
            chunks <> []
            /\ load_chunks reads num_chunks motif label_conv chunk_context
                 kmer_context_bases focus_offset fixed base_pred full
               = Ok chunks)
         \/ load_chunks reads num_chunks motif label_conv chunk_context
              kmer_context_bases focus_offset fixed base_pred full
            = Raise (RemoraError "No valid chunks extracted"))
    /\ forall num_chunks motif chunk_context kmer_context_bases fixed
              base_pred,
         load_chunks reads num_chunks motif label_conv chunk_context
           kmer_context_bases None fixed base_pred false
         = Raise (ValueError "Either --focus-offset or --full need to be set.").
Proof.
  intros Hwf Hconv.
  set (ca := MappedSignalReader.collapse_alphabet input_msf) in *.
  assert (exists reads,
            Forall2 (fun tai_read r =>
                       from_taiyaki_read to_str tai_read ca = Ok r)
              (MappedSignalReader.reads input_msf) reads) as [reads H2].
  { induction Hwf as [|t ts Ht _ [rs IH]]; [by exists []|].
    destruct (from_taiyaki_read_wf_Ok to_str t ca Ht) as (r & _ & Hr & _).
    exists (r :: rs). by constructor. }
  assert (Forall (fun r => read_wf label_conv r
                           /\ RemoraRead.seq_to_sig_map r !! O = Some 0) reads)
    as Hreads.
  { clear -H2 Hwf Hconv. induction H2 as [|t r ts rs Hr _ IH]; [done|].
    apply Forall_cons in Hwf as [Ht Hts]. constructor; [|by apply IH].
    by eapply taiyaki_read_wf_read_wf. }
  apply Forall_and in Hreads as [Hrwf Hzero].
  exists reads. split.
  { unfold load_taiyaki_dataset. fold ca.
    by rewrite (mapM_Ok_intro _ _ _ H2). }
  split; [done|]. split; [done|]. split; [done|]. split; [|done].
  intros num_chunks motif chunk_context kmer_context_bases focus_offset
    fixed base_pred full Hmotif Hc1 Hc2 Hmode.
  destruct (load_chunks_run_total num_chunks motif label_conv chunk_context
              kmer_context_bases focus_offset fixed base_pred full reads
              Hmotif Hc1 Hc2 Hmode Hrwf) as [[chunks hist] Hrun].
  unfold load_chunks. rewrite Hrun. simpl.
  destruct chunks as [|c cs]; [by right|]. left. by exists (c :: cs).
Qed.

Lemma load_taiyaki_dataset_reads_witness :
  exists reads,
    load_taiyaki_dataset (fun s => s)
      (MappedSignalReader.mk [example_taiyaki_read; example_taiyaki_read]
         (list_ascii_of_string "ACGT") (list_ascii_of_string "ACGT"))
    = Ok (reads, list_ascii_of_string "ACGT", list_ascii_of_string "ACGT")
    /\ Forall2 (fun tai_read r =>
                  from_taiyaki_read (fun s => s) tai_read
                    (list_ascii_of_string "ACGT") = Ok r)
         [example_taiyaki_read; example_taiyaki_read] reads
    /\ Forall (read_wf [0; 1; 0; 0]) reads
    /\ Forall (fun r => RemoraRead.seq_to_sig_map r !! O = Some 0) reads
    /\ (forall num_chunks motif chunk_context kmer_context_bases focus_offset
               fixed base_pred full,
         motif_wf motif ->
         0 <= chunk_context.1 -> 0 <= chunk_context.2 ->
         full = true \/ (exists fo, focus_offset = Some fo /\ 0 <= fo) ->
         (exists chunks,
            chunks <> []
            /\ load_chunks reads num_chunks motif [0; 1; 0; 0] chunk_context
                 kmer_context_bases focus_offset fixed base_pred full
               = Ok chunks)
         \/ load_chunks reads num_chunks motif [0; 1; 0; 0] chunk_context
              kmer_context_bases focus_offset fixed base_pred full
            = Raise (RemoraError "No valid chunks extracted"))
    /\ forall num_chunks motif chunk_context kmer_context_bases fixed
              base_pred,
         load_chunks reads num_chunks motif [0; 1; 0; 0] chunk_context
           kmer_context_bases None fixed base_pred false
         = Raise (ValueError "Either --focus-offset or --full need to be set.").
Proof.
  apply (load_taiyaki_dataset_reads (fun s => s)
           (MappedSignalReader.mk [example_taiyaki_read; example_taiyaki_read]
              (list_ascii_of_string "ACGT") (list_ascii_of_string "ACGT"))
           [0; 1; 0; 0]).
  - simpl. repeat constructor; simpl; lia.
  - simpl. lia.
Defined.

Lemma from_taiyaki_read_Ok to_str read collapse_alphabet r :
  from_taiyaki_read to_str read collapse_alphabet = Ok r ->
  TaiyakiRead.Ref_to_signal read <> []
  /\ Forall (fun b => - Z.of_nat (length collapse_alphabet) <= b
                      < Z.of_nat (length collapse_alphabet))
       (TaiyakiRead.Reference read).
Proof.
  unfold from_taiyaki_read. intros H.
  apply bind_Ok in H as (s & Hs & H). apply bind_Ok in H as (first & Hf & _).
  split.
  - intros E. rewrite E in Hf. done.
  - apply mapM_Ok in Hs. apply Forall_forall. intros b Hb.
    apply list_elem_of_lookup in Hb as [i Hb].
    destruct (Forall2_lookup_l _ _ _ _ _ Hs Hb) as (c & _ & Hc).
    apply getitem_Ok in Hc as (k & Hk & _).
    apply norm_index_Some_iff in Hk. lia.
Qed.

Lemma from_taiyaki_read_Raise to_str read collapse_alphabet e :
  from_taiyaki_read to_str read collapse_alphabet = Raise e ->
  exists msg, e = IndexError msg.
Proof.
  unfold from_taiyaki_read. intros H.
  apply bind_Raise in H as [H|(s & _ & H)].
  - apply mapM_Raise in H as (b & _ & H). apply getitem_Raise in H as ->.
    by eexists.
  - apply bind_Raise in H as [H|(first & _ & H)]; [|done].
    apply getitem_Raise in H as ->. by eexists.
Qed.

(** X17: one malformed read fails the whole load.  When some read of the
    file has an empty [Ref_to_signal], or a reference code outside
    [-len, len) of the collapsed alphabet, [load_taiyaki_dataset] raises
    [IndexError]; reads are never skipped. *)
Theorem load_taiyaki_dataset_fails to_str input_msf tai_read :
  tai_read ∈ MappedSignalReader.reads input_msf ->
  TaiyakiRead.Ref_to_signal tai_read = []
  \/ (exists b,
        b ∈ TaiyakiRead.Reference tai_read
        /\ ~ (- Z.of_nat (length (MappedSignalReader.collapse_alphabet input_msf))
              <= b
              < Z.of_nat (length (MappedSignalReader.collapse_alphabet input_msf)))) ->
  exists msg, load_taiyaki_dataset to_str input_msf = Raise (IndexError msg).
Proof.
  intros Hin Hbad. unfold load_taiyaki_dataset.
  destruct (mapM _ _) as [reads|e] eqn:Hm; simpl.
  - exfalso. apply mapM_Ok in Hm.
    apply list_elem_of_lookup in Hin as [i Hi].
    destruct (Forall2_lookup_l _ _ _ _ _ Hm Hi) as (r & _ & Hr).
    apply from_taiyaki_read_Ok in Hr as [Hne Hcodes].
    destruct Hbad as [E|(b & Hb & Hout)]; [done|].
    rewrite Forall_forall in Hcodes. by apply Hout, Hcodes.
  - apply mapM_Raise in Hm as (t & _ & Ht).
    apply from_taiyaki_read_Raise in Ht as [msg ->]. by exists msg.
Qed.

Lemma load_taiyaki_dataset_fails_witness :
  exists msg,
    load_taiyaki_dataset (fun s => s)
      (MappedSignalReader.mk
         [example_taiyaki_read; TaiyakiRead.mk [] [4] [0; 3] "r2"]
         (list_ascii_of_string "ACGT") (list_ascii_of_string "ACGT"))
    = Raise (IndexError msg).
Proof.
  apply (load_taiyaki_dataset_fails (fun s => s)
           (MappedSignalReader.mk
              [example_taiyaki_read; TaiyakiRead.mk [] [4] [0; 3] "r2"]
              (list_ascii_of_string "ACGT") (list_ascii_of_string "ACGT"))
           (TaiyakiRead.mk [] [4] [0; 3] "r2")).
  - simpl. right. left.
  - right. exists 4. split; [simpl; left|simpl; lia].
Defined.

(** ** Accounting in the rejection histogram *)

Lemma hist_total_insert h k v :
  h !! k = None -> hist_total (<[k := v]> h) = (v + hist_total h)%nat.
Proof.
  intros Hk. unfold hist_total.
  rewrite map_fold_insert_L; [done| |done]. intros. lia.
Qed.

Lemma hist_total_incr h k : hist_total (incr h k) = S (hist_total h).
Proof.
  unfold incr, count. destruct (h !! k) as [v|] eqn:E; simpl.
  - rewrite <- (insert_delete_id h k v E) at 2.
    rewrite <- insert_delete_eq.
    rewrite !hist_total_insert by apply lookup_delete_eq. done.
  - by rewrite hist_total_insert.
Qed.

Section HistogramTotal.

Variable num_chunks : option Z.
Variable motif : Motif.t.
Variable label_conv : list Z.
Variable chunk_context : Z * Z.
Variable kmer_context_bases : Z * Z.
Variable focus_offset : option Z.
Variable fixed_seq_len_chunks : bool.
Variable base_pred : bool.
Variable full : bool.

Lemma pos_step_hist read st m fl st' :
  pos_step num_chunks label_conv chunk_context kmer_context_bases
    fixed_seq_len_chunks base_pred read st m = Ok (fl, st') ->
  hist_total st'.2 = S (hist_total st.2)
  /\ (num_chunks = None -> fl = Continue).
Proof.
  destruct st as [chunks hist]. unfold pos_step. intros H.
  apply bind_Ok in H as (sfp & Hsfp & H).
  apply bind_Ok in H as (w & Hw & H).
  destruct w as [reason|[[[ss se] sqs] sqe]].
  - simplify_eq. simpl. by rewrite hist_total_incr.
  - apply bind_Ok in H as (lab & Hlab & H).
    destruct (try_chunk _ _ _ _ _ _ _ _ _ _) as [c|e] eqn:Htry;
      simplify_eq; simpl; rewrite hist_total_incr; split; try done.
    by intros ->.
Qed.

Lemma pos_loop_hist read ms st st' :
  pos_loop num_chunks label_conv chunk_context kmer_context_bases
    fixed_seq_len_chunks base_pred read ms st = Ok st' ->
  (hist_total st'.2 <= hist_total st.2 + length ms)%nat
  /\ (num_chunks = None ->
      hist_total st'.2 = (hist_total st.2 + length ms)%nat).
Proof.
  revert st. induction ms as [|m ms IH]; intros st H; simpl in H.
  - simplify_eq. simpl. lia.
  - apply bind_Ok in H as ([fl st1] & Hstep & H).
    apply pos_step_hist in Hstep as [Hone Hfl]. simpl in *.
    destruct fl.
    + apply IH in H as [Hle Heq]. split; [lia|].
      intros Hnone. rewrite (Heq Hnone). lia.
    + simplify_eq. split; [lia|]. intros Hnone. by specialize (Hfl Hnone).
Qed.

Lemma read_step_hist st read st' :
  read_step num_chunks motif label_conv chunk_context kmer_context_bases
    focus_offset fixed_seq_len_chunks base_pred full st read = Ok st' ->
  (hist_total st'.2 <= hist_total st.2 + positions_examined motif full read)%nat
  /\ (num_chunks = None ->
      hist_total st'.2
      = (hist_total st.2 + positions_examined motif full read)%nat).
Proof.
  unfold read_step, positions_examined. destruct full.
  - intros H. apply pos_loop_hist in H. by rewrite length_fmap in H.
  - destruct focus_offset as [fo|]; [|done].
    destruct (fo >=? _).
    { intros. simplify_eq. simpl. rewrite hist_total_incr. lia. }
    destruct (negb _).
    { intros. simplify_eq. simpl. rewrite hist_total_incr. lia. }
    intros H. by apply pos_loop_hist in H.
Qed.

Lemma reads_loop_hist reads st st' :
  reads_loop num_chunks motif label_conv chunk_context kmer_context_bases
    focus_offset fixed_seq_len_chunks base_pred full reads st = Ok st' ->
  (hist_total st'.2
   <= hist_total st.2 + sum_list (positions_examined motif full <$> reads))%nat
  /\ (num_chunks = None ->
      hist_total st'.2
      = (hist_total st.2
         + sum_list (positions_examined motif full <$> reads))%nat).
Proof.
  revert st. induction reads as [|read reads IH]; intros st H; simpl in H.
  - simplify_eq. simpl. lia.
  - apply bind_Ok in H as (st1 & Hstep & H).
    apply read_step_hist in Hstep as [Hle1 Heq1].
    apply IH in H as [Hle Heq].
    change (sum_list (positions_examined motif full <$> read :: reads))
      with (positions_examined motif full read
            + sum_list (positions_examined motif full <$> reads))%nat.
    split; [lia|].
    intros Hnone. rewrite (Heq Hnone), (Heq1 Hnone). lia.
Qed.

End HistogramTotal.

(** X18: the rejection histogram of [load_chunks] accounts for every focus
    position exactly once.  Without a cap the counts add up to the number
    of motif hits over all reads in full mode, and to the number of reads
    otherwise; each is counted as "success" or under exactly one rejection
    reason, and the "success" count is the number of chunks.  With a cap
    the total can only be smaller, since a [break] leaves positions
    unvisited. *)
Theorem load_chunks_histogram_total num_chunks motif label_conv chunk_context
    kmer_context_bases focus_offset fixed base_pred full reads chunks hist :
  load_chunks_run num_chunks motif label_conv chunk_context kmer_context_bases
    focus_offset fixed base_pred full reads = Ok (chunks, hist) ->
  (hist_total hist <= sum_list (positions_examined motif full <$> reads))%nat
  /\ (num_chunks = None ->
      hist_total hist = sum_list (positions_examined motif full <$> reads))
  /\ count hist "success" = length chunks
  /\ (count hist "success" <= hist_total hist)%nat.
Proof.
  intros Hrun.
  pose proof (success_count_invariant _ _ _ _ _ _ _ _ _ _ _ _ Hrun) as Hs.
  unfold load_chunks_run in Hrun.
  assert (reads_loop num_chunks motif label_conv chunk_context
            kmer_context_bases focus_offset fixed base_pred
            full reads ([], ∅) = Ok (chunks, hist)) as Hloop.
  { revert Hrun. by destruct focus_offset, full. }
  apply reads_loop_hist in Hloop as [Hle Heq]. simpl in Hle, Heq.
  unfold hist_total in Hle at 2. unfold hist_total in Heq at 2.
  rewrite map_fold_empty in Hle, Heq. simpl in *.
  split; [done|]. split; [done|]. split; [done|].
  unfold count. destruct (hist !! "success"%string) as [v|] eqn:E; simpl;
    [|lia].
  rewrite <- (insert_delete_id hist _ _ E), <- insert_delete_eq.
  rewrite hist_total_insert by apply lookup_delete_eq. lia.
Qed.

Lemma load_chunks_histogram_total_witness :
  load_chunks_run None motif_CG [] (20, 5) (1, 1) None false false true
    [example_read] = Ok (example_run.1, example_run.2)
  /\ (hist_total example_run.2
      <= sum_list (positions_examined motif_CG true <$> [example_read]))%nat
  /\ (@None Z = None ->
      hist_total example_run.2
      = sum_list (positions_examined motif_CG true <$> [example_read]))
  /\ count example_run.2 "success" = length example_run.1
  /\ (count example_run.2 "success" <= hist_total example_run.2)%nat.
Proof.
  split.
  - vm_compute. reflexivity.
  - apply (load_chunks_histogram_total None motif_CG [] (20, 5) (1, 1) None
             false false true [example_read]).
    vm_compute. reflexivity.
Defined.

(** ** The training set and the reads of one file *)

Lemma train_set_entry_Ok to_str collapse_alphabet mod_offset read :
  taiyaki_read_wf collapse_alphabet read ->
  0 <= mod_offset < Z.of_nat (length (TaiyakiRead.Reference read)) ->
  exists r code,
    from_taiyaki_read to_str read collapse_alphabet = Ok r
    /\ TaiyakiRead.Reference read !! Z.to_nat mod_offset = Some code
    /\ train_set_entry collapse_alphabet mod_offset read
       = Ok (RemoraRead.sig r, code =? 1, RemoraRead.seq r,
             RemoraRead.seq_to_sig_map r)
    /\ RemoraRead.seq_to_sig_map r !! O = Some 0.
Proof.
  intros Hwf Hoff.
  destruct (from_taiyaki_read_wf_Ok to_str read collapse_alphabet Hwf)
    as (r & first & Hr & _ & _ & H0 & _).
  destruct (lookup_lt_is_Some_2 (TaiyakiRead.Reference read)
              (Z.to_nat mod_offset)) as [code Hcode]; [lia|].
  exists r, code. split; [done|]. split; [done|]. split; [|done].
  unfold from_taiyaki_read in Hr. unfold train_set_entry.
  apply bind_Ok in Hr as (s & -> & Hr).
  apply bind_Ok in Hr as (f & -> & Hr). simpl.
  rewrite (getitem_nonneg _ _ _ code) by (lia || done). simpl.
  by injection Hr as <-.
Qed.

(** X19: [get_train_set] and [load_taiyaki_dataset] read a file alike.  On
    a file of well-formed reads that all have a reference position
    [mod_offset], [get_train_set] returns four lists with one entry per
    read, in file order: the signal, the sequence and the re-anchored map
    are those of the [RemoraRead] that [load_taiyaki_dataset] builds for
    the same read, each map starts at 0, and the label tells whether the
    reference code at [mod_offset] is 1. *)
Theorem get_train_set_agrees to_str input_msf mod_offset :
  Forall (fun read =>
            taiyaki_read_wf (MappedSignalReader.collapse_alphabet input_msf)
              read
            /\ 0 <= mod_offset
               < Z.of_nat (length (TaiyakiRead.Reference read)))
    (MappedSignalReader.reads input_msf) ->
  exists reads sigs labels refs base_locs,
    load_taiyaki_dataset to_str input_msf
    = Ok (reads, MappedSignalReader.alphabet input_msf,
          MappedSignalReader.collapse_alphabet input_msf)
    /\ get_train_set input_msf mod_offset = Ok (sigs, labels, refs, base_locs)
    /\ sigs = RemoraRead.sig <$> reads
    /\ refs = RemoraRead.seq <$> reads
    /\ base_locs = RemoraRead.seq_to_sig_map <$> reads
    /\ Forall (fun m => m !! O = Some 0) base_locs
    /\ Forall2 (fun read lab =>
                  exists code,
                    TaiyakiRead.Reference read !! Z.to_nat mod_offset
                    = Some code
                    /\ lab = (code =? 1))
         (MappedSignalReader.reads input_msf) labels.
Proof.
  intros Hwf.
  set (ca := MappedSignalReader.collapse_alphabet input_msf) in *.
  assert (exists reads entries,
            Forall2 (fun t r => from_taiyaki_read to_str t ca = Ok r)
              (MappedSignalReader.reads input_msf) reads
            /\ Forall2 (fun t e => train_set_entry ca mod_offset t = Ok e)
                 (MappedSignalReader.reads input_msf) entries
            /\ (fun e => e.1.1.1) <$> entries = RemoraRead.sig <$> reads
            /\ (fun e => e.1.2) <$> entries = RemoraRead.seq <$> reads
            /\ (fun e => e.2) <$> entries = RemoraRead.seq_to_sig_map <$> reads
            /\ Forall (fun m => m !! O = Some 0)
                 (RemoraRead.seq_to_sig_map <$> reads)
            /\ Forall2 (fun read lab =>
                          exists code,
                            TaiyakiRead.Reference read !! Z.to_nat mod_offset
                            = Some code
                            /\ lab = (code =? 1))
                 (MappedSignalReader.reads input_msf)
                 ((fun e => e.1.1.2) <$> entries))
    as (reads & entries & Hreads & Hentries & Es & Eq & Em & Hz & Hlab).
  { induction Hwf as [|t ts [Ht Hoff] _ IH].
    - exists [], []. repeat split; constructor.
    - destruct IH as (rs & es & H1 & H2 & E1 & E2 & E3 & H0 & HL).
      destruct (train_set_entry_Ok to_str ca mod_offset t Ht Hoff)
        as (r & code & Hr & Hcode & He & Hr0).
      exists (r :: rs),
        ((RemoraRead.sig r, code =? 1, RemoraRead.seq r,
          RemoraRead.seq_to_sig_map r) :: es).
      split; [by constructor|]. split; [by constructor|].
      rewrite !fmap_cons. simpl. rewrite E1, E2, E3.
      split; [done|]. split; [done|]. split; [done|].
      split; [by constructor|]. constructor; [eauto|done]. }
  exists reads, ((fun e => e.1.1.1) <$> entries),
    ((fun e => e.1.1.2) <$> entries), ((fun e => e.1.2) <$> entries),
    ((fun e => e.2) <$> entries).
  split.
  { unfold load_taiyaki_dataset. fold ca.
    by rewrite (mapM_Ok_intro _ _ _ Hreads). }
  split.
  { unfold get_train_set. fold ca.
    by rewrite (mapM_Ok_intro _ _ _ Hentries). }
  rewrite Em. done.
Qed.

Lemma get_train_set_agrees_witness :
  exists reads sigs labels refs base_locs,
    load_taiyaki_dataset (fun s => s)
      (MappedSignalReader.mk [example_taiyaki_read; example_taiyaki_read]
         (list_ascii_of_string "ACGT") (list_ascii_of_string "ACGT"))
    = Ok (reads, list_ascii_of_string "ACGT", list_ascii_of_string "ACGT")
    /\ get_train_set
         (MappedSignalReader.mk [example_taiyaki_read; example_taiyaki_read]
            (list_ascii_of_string "ACGT") (list_ascii_of_string "ACGT")) 0
       = Ok (sigs, labels, refs, base_locs)
    /\ sigs = RemoraRead.sig <$> reads
    /\ refs = RemoraRead.seq <$> reads
    /\ base_locs = RemoraRead.seq_to_sig_map <$> reads
    /\ Forall (fun m => m !! O = Some 0) base_locs
    /\ Forall2 (fun read lab =>
                  exists code,
                    TaiyakiRead.Reference read !! Z.to_nat 0 = Some code
                    /\ lab = (code =? 1))
         [example_taiyaki_read; example_taiyaki_read] labels.
Proof.
  apply (get_train_set_agrees (fun s => s)
           (MappedSignalReader.mk [example_taiyaki_read; example_taiyaki_read]
              (list_ascii_of_string "ACGT") (list_ascii_of_string "ACGT")) 0).
  simpl. repeat constructor; simpl; lia.
Defined.

(** ** The order of the chunks *)

Section ChunkOrder.

Variable num_chunks : option Z.
Variable motif : Motif.t.
Variable label_conv : list Z.
Variable chunk_context : Z * Z.
Variable kmer_context_bases : Z * Z.
Variable focus_offset : option Z.
Variable fixed_seq_len_chunks : bool.
Variable base_pred : bool.
Variable full : bool.

Lemma pos_loop_sublist read ms st st' :
  pos_loop num_chunks label_conv chunk_context kmer_context_bases
    fixed_seq_len_chunks base_pred read ms st = Ok st' ->
  exists new,
    st'.1 = st.1 ++ new
    /\ (chunk_meta <$> new)
         `sublist_of` ((fun m => (RemoraRead.read_id read, m)) <$> ms).
Proof.
  revert st. induction ms as [|m ms IH]; intros st H; simpl in H.
  - simplify_eq. exists []. by rewrite app_nil_r.
  - apply bind_Ok in H as ([fl st1] & Hstep & H).
    apply pos_step_origin in Hstep as [[-> Hst]|(c & Hst & _ & Hc)].
    + apply IH in H as (new & Hnew & Hsub). exists new.
      rewrite Hnew, Hst. split; [done|]. rewrite fmap_cons.
      by apply sublist_cons.
    + destruct Hc as (sfp & ss & se & sqs & sqe & lab & _ & _ & _ & Htry).
      apply try_chunk_fields in Htry
        as (_ & _ & _ & _ & _ & _ & Hid & Hpos & _).
      assert (exists new, st'.1 = st1.1 ++ new
                /\ (chunk_meta <$> new)
                     `sublist_of` ((fun m => (RemoraRead.read_id read, m))
                                     <$> ms))
        as (new & Hnew & Hsub).
      { destruct fl; [by apply IH|]. simplify_eq. exists [].
        rewrite app_nil_r. split; [done|]. apply sublist_nil_l. }
      exists (c :: new). rewrite Hnew, Hst, <- app_assoc. split; [done|].
      rewrite !fmap_cons. unfold chunk_meta at 1. rewrite Hid, Hpos.
      by apply sublist_skip.
Qed.

Lemma read_step_sublist st read st' :
  read_step num_chunks motif label_conv chunk_context kmer_context_bases
    focus_offset fixed_seq_len_chunks base_pred full st read = Ok st' ->
  exists new,
    st'.1 = st.1 ++ new
    /\ (chunk_meta <$> new)
         `sublist_of` ((fun m => (RemoraRead.read_id read, m))
                         <$> motif_pos motif focus_offset full read).
Proof.
  unfold read_step, motif_pos. destruct full.
  - apply pos_loop_sublist.
  - destruct focus_offset as [fo|]; [|done].
    destruct (fo >=? _).
    { intros. simplify_eq. exists []. by rewrite app_nil_r. }
    destruct (negb _).
    { intros. simplify_eq. exists []. by rewrite app_nil_r. }
    apply pos_loop_sublist.
Qed.

Lemma reads_loop_sublist reads st st' :
  reads_loop num_chunks motif label_conv chunk_context kmer_context_bases
    focus_offset fixed_seq_len_chunks base_pred full reads st = Ok st' ->
  exists new,
    st'.1 = st.1 ++ new
    /\ (chunk_meta <$> new) `sublist_of` visited motif focus_offset full reads.
Proof.
  revert st. induction reads as [|read reads IH]; intros st H; simpl in H.
  - simplify_eq. exists []. by rewrite app_nil_r.
  - apply bind_Ok in H as (st1 & Hstep & H).
    apply read_step_sublist in Hstep as (new1 & Hnew1 & Hsub1).
    apply IH in H as (new & Hnew & Hsub).
    exists (new1 ++ new). rewrite Hnew, Hnew1, <- app_assoc. split; [done|].
    rewrite fmap_app. unfold visited. rewrite fmap_cons. simpl.
    by apply sublist_app.
Qed.

End ChunkOrder.

(** X20: the chunks come out in the order in which [load_chunks] visits the
    focus positions: read by read, and within a read in the order of the
    motif hits.  The list of [(read_id, read_seq_pos)] pairs of the
    returned chunks, which a dataset with [return_read_data] keeps as its
    [read_data], is a subsequence of the visited positions, so that no
    position gives more than one chunk. *)
Theorem load_chunks_order reads num_chunks motif label_conv chunk_context
    kmer_context_bases focus_offset fixed base_pred full chunks :
  load_chunks reads num_chunks motif label_conv chunk_context
    kmer_context_bases focus_offset fixed base_pred full = Ok chunks ->
  (chunk_meta <$> chunks) `sublist_of` visited motif focus_offset full reads
  /\ (length chunks <= length (visited motif focus_offset full reads))%nat.
Proof.
  intros H. apply load_chunks_Ok_run in H as (hist & H).
  unfold load_chunks_run in H.
  assert (reads_loop num_chunks motif label_conv chunk_context
            kmer_context_bases focus_offset fixed base_pred
            full reads ([], ∅) = Ok (chunks, hist)) as Hrun.
  { revert H. by destruct focus_offset, full. }
  apply reads_loop_sublist in Hrun as (new & Hnew & Hsub).
  simpl in Hnew. subst new. split; [done|].
  apply sublist_length in Hsub. by rewrite length_fmap in Hsub.
Qed.

Lemma load_chunks_order_witness :
  (chunk_meta <$> example_run.1)
    `sublist_of` visited motif_CG None true [example_read]
  /\ (length example_run.1
      <= length (visited motif_CG None true [example_read]))%nat.
Proof.
  apply (load_chunks_order [example_read] None motif_CG [] (20, 5) (1, 1)
           None false false true).
  vm_compute. reflexivity.
Defined.

(** ** Masking in base-prediction mode *)

Lemma try_chunk_masked kc read ss se lab sqs sqe sfp m c :
  try_chunk kc true read ss se lab sqs sqe sfp m = Ok c ->
  Chunk.seq_focus_pos c <> -1 ->
  Py.getitem (fun _ _ => Py.str_index_error) (Chunk.sequence c)
    (Chunk.seq_focus_pos c) = Ok "N"%char.
Proof.
  unfold try_chunk. intros H Hf.
  apply bind_Ok in H as (c0 & Hex & H). apply bind_Ok in H as (c1 & Hmask & H).
  pose proof (extract_chunk_from_read_Ok _ _ _ _ _ _ _ _ _ _ _ Hex)
    as (_ & _ & Hl0 & Hv0 & _).
  pose proof (mask_focus_base_Ok _ _ Hmask) as (_ & _ & _ & _ & Hl & Hv).
  apply check_Ok in H as (Hsame & _); [|by rewrite Hl|by apply Hv].
  destruct Hsame as (_ & Fq & _ & _ & _ & _ & Fqf & _).
  rewrite Fq, Fqf in *. clear dependent c.
  assert (exists k b,
            Py.norm_index (length (Chunk.sequence c0)) (Chunk.seq_focus_pos c0)
            = Some k /\ Chunk.sequence c0 !! k = Some b) as (k & b & Hk & Hb).
  { unfold Chunk.mask_focus_base in Hmask.
    apply bind_Ok in Hmask as (b & Hb & _).
    apply getitem_Ok in Hb as (k & ? & ?). eauto. }
  pose proof (lookup_lt_Some _ _ _ Hb) as Hlt.
  assert (Chunk.seq_focus_pos c1 = Chunk.seq_focus_pos c0) as Hfoc.
  { unfold Chunk.mask_focus_base in Hmask.
    apply bind_Ok in Hmask as (b' & _ & Hmask).
    destruct (Ascii.eqb b' "N"); by injection Hmask as <-. }
  rewrite Hfoc in *.
  pose proof (mask_focus_base_norm c0 k b Hk Hf Hb) as Hm.
  rewrite Hm in Hmask. clear Hm.
  apply getitem_Ok. exists k.
  destruct (Ascii.eqb b "N") eqn:E; injection Hmask as <-.
  - apply Ascii.eqb_eq in E as ->. done.
  - destruct (masked_focus c0 k Hlt) as (HN & Hlen & _). by rewrite Hlen.
Qed.

(** X21: in base-prediction mode the focus base of every returned chunk is
    masked: the base at [seq_focus_pos] of the chunk's sequence is [N].
    The one exception is a focus index of [-1], for which
    [mask_focus_base] does not replace the last base. *)
Theorem load_chunks_base_pred_masked reads num_chunks motif label_conv
    chunk_context kmer_context_bases focus_offset fixed full chunks :
  load_chunks reads num_chunks motif label_conv chunk_context
    kmer_context_bases focus_offset fixed true full = Ok chunks ->
  Forall (fun c =>
            Chunk.seq_focus_pos c <> -1 ->
            Py.getitem (fun _ _ => Py.str_index_error) (Chunk.sequence c)
              (Chunk.seq_focus_pos c) = Ok "N"%char) chunks.
Proof.
  intros H. apply load_chunks_origin in H.
  eapply Forall_impl; [exact H|]. clear H. simpl.
  intros c (read & m & _ & _ & sfp & ss & se & sqs & sqe & lab
            & _ & _ & _ & Htry) Hf.
  by apply (try_chunk_masked _ _ _ _ _ _ _ _ _ _ Htry).
Qed.

Lemma load_chunks_base_pred_masked_witness :
  exists chunks,
    load_chunks [example_read] None motif_CG [] (1, 2) (1, 1) None
      true true true = Ok chunks
    /\ Forall (fun c =>
                 Chunk.seq_focus_pos c <> -1 ->
                 Py.getitem (fun _ _ => Py.str_index_error) (Chunk.sequence c)
                   (Chunk.seq_focus_pos c) = Ok "N"%char) chunks.
Proof.
  eexists. split; [vm_compute; reflexivity|].
  apply (load_chunks_base_pred_masked [example_read] None motif_CG []
           (1, 2) (1, 1) None true true).
  vm_compute. reflexivity.
Defined.

(** ** The fatal condition and the outcomes of the focus positions *)

(** One iteration of the position loop does to the state what the outcome
    of its position says. *)
Lemma pos_step_outcome num_chunks label_conv chunk_context kmer fixed
    base_pred read st m :
  pos_step num_chunks label_conv chunk_context kmer fixed base_pred read st m
  = o ← pos_outcome label_conv chunk_context kmer fixed base_pred read m;
    Ok (match o with
        | Extracted c =>
            (if cap_reached num_chunks (st.1 ++ [c]) then Break else Continue,
             (st.1 ++ [c], incr st.2 "success"))
        | Rejected reason => (Continue, (st.1, incr st.2 reason))
        end).
Proof.
  destruct st as [chunks hist]. unfold pos_step, pos_outcome.
  destruct (focus_sig_pos read m) as [sfp|e]; simpl; [|done].
  destruct (window _ _ _ _ _) as [[reason|[[[ss se] sqs] sqe]]|e]; simpl;
    [done| |done].
  destruct (chunk_label _ _ _) as [lab|e]; simpl; [|done].
  by destruct (try_chunk _ _ _ _ _ _ _ _ _ _).
Qed.

Lemma extracted_at_outcome label_conv chunk_context kmer fixed base_pred
    read m c :
  extracted_at label_conv chunk_context kmer fixed base_pred read m c
  <-> pos_outcome label_conv chunk_context kmer fixed base_pred read m
      = Ok (Extracted c).
Proof.
  unfold extracted_at, pos_outcome. split.
  - intros (sfp & ss & se & sqs & sqe & lab & -> & Hw & Hlab & Htry). simpl.
    rewrite Hw. simpl. rewrite Hlab. simpl. by rewrite Htry.
  - intros H. apply bind_Ok in H as (sfp & Hsfp & H).
    apply bind_Ok in H as (w & Hw & H).
    destruct w as [reason|[[[ss se] sqs] sqe]]; [discriminate|].
    apply bind_Ok in H as (lab & Hlab & H).
    destruct (try_chunk _ _ _ _ _ _ _ _ _ _) as [c'|e] eqn:Htry;
      [|discriminate].
    injection H as <-. by exists sfp, ss, se, sqs, sqe, lab.
Qed.

Section Outcomes.

Variable num_chunks : option Z.
Variable motif : Motif.t.
Variable label_conv : list Z.
Variable chunk_context : Z * Z.
Variable kmer_context_bases : Z * Z.
Variable focus_offset : option Z.
Variable fixed_seq_len_chunks : bool.
Variable base_pred : bool.
Variable full : bool.

Let rejected (read : RemoraRead.t) (m : Z) : Prop :=
  exists reason,
    pos_outcome label_conv chunk_context kmer_context_bases
      fixed_seq_len_chunks base_pred read m = Ok (Rejected reason).

(** When every position is rejected, the loop reaches the end with the
    chunk list unchanged. *)
Lemma pos_loop_rejected read ms st :
  Forall (rejected read) ms ->
  exists hist,
    pos_loop num_chunks label_conv chunk_context kmer_context_bases
      fixed_seq_len_chunks base_pred read ms st = Ok (st.1, hist).
Proof.
  intros Hall. revert st.
  induction Hall as [|m ms [reason Hm] _ IH]; intros st; simpl.
  - exists st.2. by destruct st.
  - rewrite pos_step_outcome, Hm. simpl. apply (IH (st.1, _)).
Qed.

(** A loop that ends without chunks started without chunks and rejected
    every position. *)
Lemma pos_loop_no_chunk read ms st st' :
  pos_loop num_chunks label_conv chunk_context kmer_context_bases
    fixed_seq_len_chunks base_pred read ms st = Ok st' ->
  st'.1 = [] ->
  st.1 = [] /\ Forall (rejected read) ms.
Proof.
  revert st. induction ms as [|m ms IH]; intros st H Hnil; simpl in H.
  - simplify_eq. by split.
  - rewrite pos_step_outcome in H.
    apply bind_Ok in H as ([fl st1] & Hstep & H).
    apply bind_Ok in Hstep as (o & Ho & Hstep). simpl in H.
    destruct o as [c|reason]; injection Hstep as <- <-.
    + exfalso. destruct (cap_reached _ _).
      * injection H as <-. simpl in Hnil. by destruct (st.1).
      * apply IH in H as [H _]; [|done]. simpl in H. by destruct (st.1).
    + apply IH in H as [H Hall]; [|done]. split; [done|].
      constructor; [by exists reason|done].
Qed.

Lemma read_step_rejected read st :
  full = true \/ focus_offset <> None ->
  Forall (rejected read) (motif_pos motif focus_offset full read) ->
  exists hist,
    read_step num_chunks motif label_conv chunk_context kmer_context_bases
      focus_offset fixed_seq_len_chunks base_pred full st read
    = Ok (st.1, hist).
Proof.
  unfold read_step, motif_pos. intros Hmode Hall. destruct full.
  - by apply pos_loop_rejected.
  - destruct focus_offset as [fo|]; [|by destruct Hmode].
    destruct (fo >=? _); [eauto|]. destruct (negb _); [eauto|].
    by apply pos_loop_rejected.
Qed.

Lemma read_step_no_chunk read st st' :
  read_step num_chunks motif label_conv chunk_context kmer_context_bases
    focus_offset fixed_seq_len_chunks base_pred full st read = Ok st' ->
  st'.1 = [] ->
  st.1 = [] /\ Forall (rejected read) (motif_pos motif focus_offset full read).
Proof.
  unfold read_step, motif_pos. intros H Hnil. destruct full.
  - by eapply pos_loop_no_chunk.
  - destruct focus_offset as [fo|]; [|discriminate].
    destruct (fo >=? _); [by simplify_eq|].
    destruct (negb _); [by simplify_eq|].
    by eapply pos_loop_no_chunk.
Qed.

Lemma reads_loop_rejected reads st :
  full = true \/ focus_offset <> None ->
  Forall (fun p => rejected p.1 p.2)
    (focus_positions motif focus_offset full reads) ->
  exists hist,
    reads_loop num_chunks motif label_conv chunk_context kmer_context_bases
      focus_offset fixed_seq_len_chunks base_pred full reads st
    = Ok (st.1, hist).
Proof.
  intros Hmode. revert st. unfold focus_positions.
  induction reads as [|read reads IH]; intros st Hall; simpl.
  - exists st.2. by destruct st.
  - rewrite fmap_cons in Hall. simpl in Hall.
    apply Forall_app in Hall as [Hread Hrest]. rewrite Forall_fmap in Hread.
    destruct (read_step_rejected read st Hmode Hread) as [h1 ->]. simpl.
    apply (IH (st.1, h1) Hrest).
Qed.

Lemma reads_loop_no_chunk reads st st' :
  reads_loop num_chunks motif label_conv chunk_context kmer_context_bases
    focus_offset fixed_seq_len_chunks base_pred full reads st = Ok st' ->
  st'.1 = [] ->
  st.1 = []
  /\ Forall (fun p => rejected p.1 p.2)
       (focus_positions motif focus_offset full reads).
Proof.
  unfold focus_positions. revert st.
  induction reads as [|read reads IH]; intros st H Hnil; simpl in H.
  - simplify_eq. by split.
  - apply bind_Ok in H as (st1 & Hstep & H).
    apply IH in H as [H1 Hrest]; [|done].
    apply read_step_no_chunk in Hstep as [H0 Hread]; [|done].
    split; [done|]. rewrite fmap_cons. simpl. apply Forall_app.
    split; [by rewrite Forall_fmap|done].
Qed.

(** Without a cap every position is examined, whatever became of the ones
    before it: the chunks are the extracted ones in order, and every
    outcome is counted under its key. *)
Lemma pos_loop_outcomes read ms st st' :
  num_chunks = None ->
  pos_loop num_chunks label_conv chunk_context kmer_context_bases
    fixed_seq_len_chunks base_pred read ms st = Ok st' ->
  exists outs,
    Forall2 (fun m o =>
               pos_outcome label_conv chunk_context kmer_context_bases
                 fixed_seq_len_chunks base_pred read m = Ok o) ms outs
    /\ st'.1 = st.1 ++ extracted_chunks outs
    /\ forall k,
         count st'.2 k
         = (count st.2 k
            + length (filter (fun o => outcome_key o = k) outs))%nat.
Proof.
  intros ->. revert st. induction ms as [|m ms IH]; intros st H; simpl in H.
  - simplify_eq. exists []. split; [constructor|].
    split; [by rewrite app_nil_r|]. intros k. simpl. lia.
  - rewrite pos_step_outcome in H.
    apply bind_Ok in H as ([fl st1] & Hstep & H).
    apply bind_Ok in Hstep as (o & Ho & Hstep). simpl in H.
    assert (fl = Continue /\ st1.1 = st.1 ++ extracted_chunks [o]
            /\ st1.2 = incr st.2 (outcome_key o)) as (-> & H1 & H2).
    { destruct o; injection Hstep as <- <-; simpl; by rewrite ?app_nil_r. }
    apply IH in H as (outs & Hall & Hcs & Hcount).
    exists (o :: outs). split; [by constructor|]. split.
    + rewrite Hcs, H1, <- app_assoc. by destruct o.
    + intros k. rewrite Hcount, H2, filter_cons.
      destruct (decide (outcome_key o = k)) as [<-|Hne].
      * rewrite count_incr_eq. simpl. lia.
      * rewrite count_incr_ne by done. lia.
Qed.

Lemma read_step_outcomes read st st' :
  num_chunks = None ->
  read_step num_chunks motif label_conv chunk_context kmer_context_bases
    focus_offset fixed_seq_len_chunks base_pred full st read = Ok st' ->
  exists outs,
    Forall2 (fun m o =>
               pos_outcome label_conv chunk_context kmer_context_bases
                 fixed_seq_len_chunks base_pred read m = Ok o)
      (motif_pos motif focus_offset full read) outs
    /\ st'.1 = st.1 ++ extracted_chunks outs
    /\ forall k,
         k ∉ skip_reasons ->
         count st'.2 k
         = (count st.2 k
            + length (filter (fun o => outcome_key o = k) outs))%nat.
Proof.
  intros Hcap. unfold read_step, motif_pos. intros H.
  assert (forall key : string,
            key ∈ skip_reasons ->
            st' = (st.1, incr st.2 key) ->
            exists outs : list outcome,
              Forall2 (fun m o =>
                         pos_outcome label_conv chunk_context
                           kmer_context_bases fixed_seq_len_chunks base_pred
                           read m = Ok o) [] outs
              /\ st'.1 = st.1 ++ extracted_chunks outs
              /\ forall k,
                   k ∉ skip_reasons ->
                   count st'.2 k
                   = (count st.2 k
                      + length (filter (fun o => outcome_key o = k) outs))%nat)
    as Hskip.
  { intros key Hkey ->. exists []. split; [constructor|]. simpl.
    split; [by rewrite app_nil_r|]. intros k Hk.
    rewrite count_incr_ne; [lia|]. by intros ->. }
  destruct full.
  - destruct (pos_loop_outcomes _ _ _ _ Hcap H) as (outs & ? & ? & ?).
    exists outs. auto.
  - destruct focus_offset as [fo|]; [|discriminate].
    destruct (fo >=? _).
    { apply (Hskip "[--focus-offset] past read seq"%string);
        [set_solver|by simplify_eq]. }
    destruct (negb _).
    { apply (Hskip "Focus position motif mismatch"%string);
        [set_solver|by simplify_eq]. }
    destruct (pos_loop_outcomes _ _ _ _ Hcap H) as (outs & ? & ? & ?).
    exists outs. auto.
Qed.

Lemma reads_loop_outcomes reads st st' :
  num_chunks = None ->
  reads_loop num_chunks motif label_conv chunk_context kmer_context_bases
    focus_offset fixed_seq_len_chunks base_pred full reads st = Ok st' ->
  exists outs,
    Forall2 (fun p o =>
               pos_outcome label_conv chunk_context kmer_context_bases
                 fixed_seq_len_chunks base_pred p.1 p.2 = Ok o)
      (focus_positions motif focus_offset full reads) outs
    /\ st'.1 = st.1 ++ extracted_chunks outs
    /\ forall k,
         k ∉ skip_reasons ->
         count st'.2 k
         = (count st.2 k
            + length (filter (fun o => outcome_key o = k) outs))%nat.
Proof.
  intros Hcap. unfold focus_positions. revert st.
  induction reads as [|read reads IH]; intros st H; simpl in H.
  - simplify_eq. exists []. split; [constructor|].
    split; [by rewrite app_nil_r|]. intros k _. simpl. lia.
  - apply bind_Ok in H as (st1 & Hstep & H).
    apply (read_step_outcomes _ _ _ Hcap) in Hstep
      as (outs1 & Hall1 & Hcs1 & Hcount1).
    apply IH in H as (outs & Hall & Hcs & Hcount).
    exists (outs1 ++ outs). split.
    { rewrite fmap_cons. simpl. apply Forall2_app; [|done].
      by apply Forall2_fmap_l. }
    split.
    { unfold extracted_chunks. rewrite omap_app.
      by rewrite Hcs, Hcs1, <- app_assoc. }
    intros k Hk. rewrite Hcount, Hcount1 by done.
    rewrite filter_app, length_app. lia.
Qed.

End Outcomes.

(** C9: when the mode arguments pass the argument check, [load_chunks]
    raises the fatal "No valid chunks extracted" error exactly when no
    focus position of any read gives a chunk: every position that the
    loops visit, over all reads, is rejected.  When it returns, the list is
    not empty and each of its chunks is the one extracted at a focus
    position of a read.
    A rejection is not an error of the call: the iteration of a rejected
    position leaves the chunk list unchanged, adds one to the counter keyed
    by the reason, which for a failure of extraction, masking or validation
    is [str(e)], and continues with the next position.  Without a cap the
    loops therefore examine every position, return the extracted chunks in
    order and count every outcome under its key (of the keys that skip a
    whole read, the histogram counts the skipped reads as well).  On reads
    of the data model, with a non-negative chunk context and either motif
    search or a non-negative focus offset, the fatal error is the only one
    [load_chunks] can raise. *)
Theorem load_chunks_fatal_iff_no_chunks num_chunks motif label_conv
    chunk_context kmer_context_bases focus_offset fixed base_pred full reads :
  (full = true \/ focus_offset <> None ->
   (load_chunks reads num_chunks motif label_conv chunk_context
      kmer_context_bases focus_offset fixed base_pred full
    = Raise (RemoraError "No valid chunks extracted")
    <-> Forall (fun p =>
                  exists reason,
                    pos_outcome label_conv chunk_context kmer_context_bases
                      fixed base_pred p.1 p.2 = Ok (Rejected reason))
          (focus_positions motif focus_offset full reads)))
  /\ (forall chunks,
        load_chunks reads num_chunks motif label_conv chunk_context
          kmer_context_bases focus_offset fixed base_pred full = Ok chunks ->
        chunks <> []
        /\ Forall (fun c =>
                     exists p,
                       p ∈ focus_positions motif focus_offset full reads
                       /\ pos_outcome label_conv chunk_context
                            kmer_context_bases fixed base_pred p.1 p.2
                          = Ok (Extracted c)) chunks)
  /\ (forall read st m reason,
        pos_outcome label_conv chunk_context kmer_context_bases fixed
          base_pred read m = Ok (Rejected reason) ->
        pos_step num_chunks label_conv chunk_context kmer_context_bases fixed
          base_pred read st m
        = Ok (Continue, (st.1, incr st.2 reason))
        /\ count (incr st.2 reason) reason = S (count st.2 reason))
  /\ (forall chunks hist,
        load_chunks_run None motif label_conv chunk_context
          kmer_context_bases focus_offset fixed base_pred full reads
        = Ok (chunks, hist) ->
        exists outs,
          Forall2 (fun p o =>
                     pos_outcome label_conv chunk_context kmer_context_bases
                       fixed base_pred p.1 p.2 = Ok o)
            (focus_positions motif focus_offset full reads) outs
          /\ chunks = extracted_chunks outs
          /\ forall k,
               k ∉ skip_reasons ->
               count hist k
               = length (filter (fun o => outcome_key o = k) outs))
  /\ (motif_wf motif ->
      0 <= chunk_context.1 -> 0 <= chunk_context.2 ->
      full = true \/ (exists fo, focus_offset = Some fo /\ 0 <= fo) ->
      Forall (read_wf label_conv) reads ->
      (exists chunks,
         chunks <> []
         /\ load_chunks reads num_chunks motif label_conv chunk_context
              kmer_context_bases focus_offset fixed base_pred full
            = Ok chunks)
      \/ load_chunks reads num_chunks motif label_conv chunk_context
           kmer_context_bases focus_offset fixed base_pred full
         = Raise (RemoraError "No valid chunks extracted")).
Proof.
  assert (forall nc,
            (full = true \/ focus_offset <> None) ->
            load_chunks_run nc motif label_conv chunk_context
              kmer_context_bases focus_offset fixed base_pred full reads
            = reads_loop nc motif label_conv chunk_context kmer_context_bases
                focus_offset fixed base_pred full reads ([], ∅)) as Hrun_eq.
  { intros nc Hmode. unfold load_chunks_run.
    destruct focus_offset, full; try done. by destruct Hmode. }
  split; [|split; [|split; [|split]]].
  - intros Hmode. unfold load_chunks. split.
    + intros H.
      destruct (load_chunks_run _ _ _ _ _ _ _ _ _ _) as [[chunks hist]|e]
        eqn:Hrun; simpl in H.
      * destruct chunks as [|c cs]; [|discriminate].
        rewrite Hrun_eq in Hrun by done.
        by apply reads_loop_no_chunk in Hrun as [_ Hall].
      * injection H as ->. by apply load_chunks_run_Raise in Hrun.
    + intros Hall. rewrite Hrun_eq by done.
      destruct (reads_loop_rejected num_chunks motif label_conv chunk_context
                  kmer_context_bases focus_offset fixed base_pred full reads
                  ([], ∅) Hmode Hall) as [hist ->].
      done.
  - intros chunks H.
    split; [by apply load_chunks_accepted in H as [_ ?]|].
    apply load_chunks_origin in H. eapply Forall_impl; [exact H|].
    intros c (read & m & Hread & Hm & Hc). exists (read, m). simpl.
    split; [|by apply extracted_at_outcome].
    unfold focus_positions. apply list_elem_of_join.
    exists ((fun m_pos => (read, m_pos))
              <$> motif_pos motif focus_offset full read).
    split; [by apply list_elem_of_fmap_2|].
    by apply (list_elem_of_fmap_2
                (fun read =>
                   (fun m_pos => (read, m_pos))
                     <$> motif_pos motif focus_offset full read)).
  - intros read st m reason Ho. rewrite pos_step_outcome, Ho. simpl.
    split; [done | apply count_incr_eq].
  - intros chunks hist Hrun.
    assert (full = true \/ focus_offset <> None) as Hmode.
    { unfold load_chunks_run in Hrun.
      destruct focus_offset, full; (discriminate || auto). }
    rewrite Hrun_eq in Hrun by done.
    apply reads_loop_outcomes in Hrun as (outs & Hall & Hcs & Hcount);
      [|done].
    exists outs. split; [done|]. split; [done|].
    intros k Hk. by rewrite Hcount.
  - intros Hmotif Hc1 Hc2 Hmode Hreads.
    destruct (load_chunks_run_total num_chunks motif label_conv chunk_context
                kmer_context_bases focus_offset fixed base_pred full reads
                Hmotif Hc1 Hc2 Hmode Hreads) as [[chunks hist] Hrun].
    unfold load_chunks. rewrite Hrun. simpl.
    destruct chunks as [|c cs]; [by right|]. left. by exists (c :: cs).
Qed.

(** C9 at the example read.  With a signal context of 200 samples before
    the focus both hits of CG are rejected for their signal start, and the
    call fails; with a context of 20 samples the hit at position 1 is
    rejected, the one at position 5 gives the chunk that is returned, and
    both are counted. *)
Lemma load_chunks_fatal_iff_no_chunks_witness :
  load_chunks [example_read] None motif_CG [] (200, 5) (1, 1) None false
    false true
  = Raise (RemoraError "No valid chunks extracted")
  /\ focus_positions motif_CG None true [example_read]
     = [(example_read, 1); (example_read, 5)]
  /\ exists c,
       pos_outcome [] (20, 5) (1, 1) false false example_read 1
       = Ok (Rejected "Invalid signal start")
       /\ pos_outcome [] (20, 5) (1, 1) false false example_read 5
          = Ok (Extracted c)
       /\ example_run.1 = [c]
       /\ count example_run.2 "Invalid signal start" = 1%nat
       /\ count example_run.2 "success" = 1%nat.
Proof.
  pose proof (load_chunks_fatal_iff_no_chunks None motif_CG [] (200, 5) (1, 1)
                None false false true [example_read]) as (Hfatal & _).
  pose proof (load_chunks_fatal_iff_no_chunks None motif_CG [] (20, 5) (1, 1)
                None false false true [example_read])
    as (_ & _ & _ & Hrun & _).
  split.
  { apply Hfatal; [by left|].
    repeat constructor; eexists; vm_compute; reflexivity. }
  split; [reflexivity|].
  destruct (Hrun example_run.1 example_run.2) as (outs & Hall & Hcs & Hcount).
  { vm_compute. reflexivity. }
  change (focus_positions motif_CG None true [example_read])
    with [(example_read, 1); (example_read, 5)] in Hall.
  apply Forall2_cons_inv_l in Hall as (o1 & outs1 & H1 & Hall & ->).
  apply Forall2_cons_inv_l in Hall as (o2 & outs2 & H2 & Hall & ->).
  apply Forall2_nil_inv_l in Hall as ->. simpl in H1, H2.
  assert (o1 = Rejected "Invalid signal start") as ->.
  { vm_compute in H1. by injection H1 as <-. }
  destruct o2 as [c|reason]; [|vm_compute in H2; discriminate].
  exists c. split; [vm_compute; reflexivity|]. split; [done|].
  split; [done|].
  split; (rewrite Hcount; [done|]);
    unfold skip_reasons; intros Hin;
    repeat (apply elem_of_cons in Hin as [Hin|Hin]; [discriminate|]);
    by apply elem_of_nil in Hin.
Defined.
